(** * wallpaper-001: the request core of @butility/network, the attribute
      helper of @butility/dom and the wallpaper page script

    A shallow embedding of

    - [src/utils/ajax.ts] and [src/core/request.ts] of @butility/network
      ([ajaxFetch], [ajaxXHR], [handleFetchResponse], [formatDataForFetch],
      [handleError], [retryRequest], [formatDataForXHR], [ajax], [get],
      [post], [put], [patch], [deleteRequest]);
    - [src/core/attribute.ts] of @butility/dom ([setAttribute]);
    - the page script ([setRandomWallpaper], [goBack], [goForward]).

    JavaScript code that calls back into the caller, logs, talks to the
    network or throws is written in a small writer-and-exception monad: a
    computation yields the list of effects it performed, in order, and
    either a value or the exception it threw.  The browser (fetch,
    XMLHttpRequest, the DOM, JSON) is a parameter of the model. *)

From Stdlib Require Import ZArith List String Ascii Bool Lia DecimalString.
From Stdlib Require Import Permutation Sorted.
Import ListNotations.
Local Open Scope string_scope.
Local Open Scope Z_scope.
Set Warnings "-register-all".

(* ================================================================== *)
(** * JavaScript values, exceptions and computations                   *)
(* ================================================================== *)

Module Js.

(** An exception object: its [name] ("TypeError", "AbortError", ...) and
    its [message]. *)
Record Exn : Type := mkExn { exn_name : string; exn_message : string }.

(** [new Error(msg)], [new TypeError(msg)]. *)
Definition Error (msg : string) : Exn := mkExn "Error" msg.
Definition TypeError (msg : string) : Exn := mkExn "TypeError" msg.

(** A Number, restricted to the integral values the code counts with
    (of magnitude below 1e21, where [ToString] is plain decimal), and NaN. *)
Inductive JsNum : Type :=
| Num (z : Z)
| NaN.

(** The values that flow through the code. Strings are sequences of
    bytes (the UTF-8 encoding of the JavaScript string). *)
Inductive JsVal : Type :=
| VUndefined
| VNull
| VBool (b : bool)
| VNumber (n : JsNum)
| VStr (s : string)
| VObject (props : list (string * JsVal))
| VFormData (fields : list (string * string))
| VBlob (bytes : string)
| VArrayBuffer (bytes : string)
| VDocument (markup : string).

(** Outcome of an expression that may throw (or of a promise that may
    reject). *)
Inductive Result (A : Type) : Type :=
| Ok (a : A)
| Throw (e : Exn).
Arguments Ok {A} a.
Arguments Throw {A} e.

(** A computation over effects [E]: the effects performed, oldest first,
    and how it ended. *)
Definition M (E A : Type) : Type := (list E * Result A)%type.

Definition ret {E A} (a : A) : M E A := ([], Ok a).

Definition bind {E A B} (m : M E A) (f : A -> M E B) : M E B :=
  match m with
  | (t, Ok a) => let (t', r) := f a in ((t ++ t')%list, r)
  | (t, Throw e) => (t, Throw e)
  end.

Definition throw {E A} (e : Exn) : M E A := ([], Throw e).

Definition emit {E} (e : E) : M E unit := ([e], Ok tt).

(** An effect whose outcome the environment decides. *)
Definition perform {E A} (e : E) (r : Result A) : M E A := ([e], r).

(** [try { m } catch (e) { h e }]. *)
Definition try_catch {E A} (m : M E A) (h : Exn -> M E A) : M E A :=
  match m with
  | (t, Throw e) => let (t', r) := h e in ((t ++ t')%list, r)
  | (t, Ok a) => (t, Ok a)
  end.

Declare Scope js_scope.
Delimit Scope js_scope with js.
Notation "x <- m ;; k" := (bind m (fun x => k))
  (at level 61, m at next level, right associativity) : js_scope.
Notation "m ;; k" := (bind m (fun _ => k))
  (at level 61, right associativity) : js_scope.

(** [if (c) m]. *)
Definition when {E} (c : bool) (m : M E unit) : M E unit :=
  if c then m else ret tt.

Definition trace {E A} (m : M E A) : list E := fst m.
Definition outcome {E A} (m : M E A) : Result A := snd m.

Definition throws {A} (r : Result A) : bool :=
  match r with Throw _ => true | Ok _ => false end.

(** ** Coercions of the language *)

(** [ToString] of an integer. *)
Definition string_of_Z (z : Z) : string :=
  NilZero.string_of_int (Z.to_int z).

Definition num_to_string (n : JsNum) : string :=
  match n with
  | Num z => string_of_Z z
  | NaN => "NaN"
  end.

(** [ToBoolean] of a Number: 0 and NaN are falsy. *)
Definition num_truthy (n : JsNum) : bool :=
  match n with
  | Num z => negb (z =? 0)
  | NaN => false
  end.

(** [ToBoolean] of a String: the empty string is falsy. *)
Definition str_truthy (s : string) : bool :=
  match s with
  | EmptyString => false
  | String _ _ => true
  end.

(** [ToString] of a value, as a template literal or [encodeURIComponent]
    applies it. *)
Definition to_string (v : JsVal) : string :=
  match v with
  | VUndefined => "undefined"
  | VNull => "null"
  | VBool true => "true"
  | VBool false => "false"
  | VNumber n => num_to_string n
  | VStr s => s
  | VObject _ => "[object Object]"
  | VFormData _ => "[object FormData]"
  | VBlob _ => "[object Blob]"
  | VArrayBuffer _ => "[object ArrayBuffer]"
  | VDocument _ => "[object HTMLDocument]"
  end.

(** [ToBoolean] of a value. *)
Definition truthy (v : JsVal) : bool :=
  match v with
  | VUndefined | VNull => false
  | VBool b => b
  | VNumber n => num_truthy n
  | VStr s => str_truthy s
  | _ => true
  end.

(** [typeof v === "object"]: objects and [null]. *)
Definition typeof_object (v : JsVal) : bool :=
  match v with
  | VNull | VObject _ | VFormData _ | VBlob _ | VArrayBuffer _
  | VDocument _ => true
  | _ => false
  end.

(** [Object.entries(v)]: the own enumerable properties of an object in
    enumeration order; a [TypeError] on [null] and [undefined]. The
    host objects of the model carry no own enumerable property; a string
    primitive lists its units under their decimal indices. *)
Fixpoint string_entries (i : nat) (s : string) : list (string * JsVal) :=
  match s with
  | EmptyString => []
  | String c rest =>
      (string_of_Z (Z.of_nat i), VStr (String c ""))
        :: string_entries (S i) rest
  end.

Definition object_entries (v : JsVal) : Result (list (string * JsVal)) :=
  match v with
  | VUndefined | VNull =>
      Throw (TypeError "Cannot convert undefined or null to object")
  | VObject props => Ok props
  | VStr s => Ok (string_entries 0 s)
  | _ => Ok []
  end.

(** [Array.prototype.join]. *)
Fixpoint join (sep : string) (parts : list string) : string :=
  match parts with
  | [] => ""
  | [p] => p
  | p :: rest => p ++ sep ++ join sep rest
  end.

(** ** encodeURIComponent (ECMA-262, 19.2.6.4)

    Every byte of the UTF-8 encoding is replaced by [%XX] in upper-case
    hexadecimal, except the unreserved characters
    [A-Z a-z 0-9 - _ . ! ~ * ' ( )].  A string with a lone surrogate, on
    which the function throws a [URIError], has no UTF-8 encoding and is
    outside the string type. *)

Definition is_alnum (c : ascii) : bool :=
  let n := nat_of_ascii c in
  ((48 <=? n) && (n <=? 57) || (65 <=? n) && (n <=? 90)
   || (97 <=? n) && (n <=? 122))%nat.

Definition is_mark (c : ascii) : bool :=
  existsb (Ascii.eqb c)
    ["-"; "_"; "."; "!"; "~"; "*"; "'"; "("; ")"]%char.

Definition uri_unreserved (c : ascii) : bool := is_alnum c || is_mark c.

Definition hex_digit (n : nat) : ascii :=
  match n with
  | 0 => "0" | 1 => "1" | 2 => "2" | 3 => "3" | 4 => "4" | 5 => "5"
  | 6 => "6" | 7 => "7" | 8 => "8" | 9 => "9" | 10 => "A" | 11 => "B"
  | 12 => "C" | 13 => "D" | 14 => "E" | _ => "F"
  end%nat%char.

Definition percent_byte (c : ascii) : string :=
  let n := nat_of_ascii c in
  String "%"
    (String (hex_digit (n / 16)) (String (hex_digit (n mod 16)) ""))%nat.

Fixpoint encodeURIComponent (s : string) : string :=
  match s with
  | EmptyString => ""
  | String c rest =>
      (if uri_unreserved c then String c "" else percent_byte c)
        ++ encodeURIComponent rest
  end.

(** Every character of [s] satisfies [p]. *)
Fixpoint all_chars (p : ascii -> bool) (s : string) : bool :=
  match s with
  | EmptyString => true
  | String c rest => p c && all_chars p rest
  end.

(** What a percent-encoded query string is made of: unreserved
    characters, [%XX] escapes, and the separators [=] and [&]. *)
Definition query_char (c : ascii) : bool :=
  uri_unreserved c || existsb (Ascii.eqb c) ["%"; "="; "&"]%char.

(** [Array.prototype.splice(start)] with one argument: everything from
    [start] on is removed; a negative [start] counts from the end, and
    [start] is clamped to the array. What is kept is returned. *)
Definition splice_from {A} (start : Z) (l : list A) : list A :=
  let len := Z.of_nat (List.length l) in
  let s := if start <? 0 then Z.max (len + start) 0 else Z.min start len in
  firstn (Z.to_nat s) l.

End Js.

(* ================================================================== *)
(** * @butility/network: src/utils/ajax.ts and src/core/request.ts     *)
(* ================================================================== *)

Module Ajax.
Import Js.
Local Open Scope js_scope.

(** What an error callback receives: a message or an exception object
    ([string | Error]). *)
Inductive ErrorArg : Type :=
| Message (s : string)
| Exception (e : Exn).

(** An [AbortSignal], by whether it is signalled. *)
Record AbortSignal : Type := mkSignal { aborted : bool }.

Definition Headers : Type := list (string * string).

(** [AjaxOptions] (and [Partial<AjaxOptions>]): a property is absent
    ([None]) or holds a value of its declared type. A callback is given
    by how each of its calls ends. *)
Record AjaxOptions : Type := mkAjaxOptions {
  method : option string;
  url : option string;
  headers : option Headers;
  data : option JsVal;
  success : option (JsVal -> Result unit);
  error : option (ErrorArg -> Result unit);
  timeout : option JsNum;
  retries : option JsNum;
  retryDelay : option JsNum;
  responseType : option string;
  onProgress : option (Z -> Z -> Result unit);
  abortSignal : option AbortSignal;
  useFetch : option bool
}.

(** [{}]. *)
Definition empty_options : AjaxOptions :=
  mkAjaxOptions None None None None None None None None None None None None
    None.

(** ** The browser *)

(** The second argument of [fetch]. *)
Record RequestInit : Type := mkInit {
  init_method : option string;
  init_headers : option Headers;
  init_body : JsVal;
  init_signal : option AbortSignal
}.

(** A [Response]: [body] is what reading the body to its end gives (the
    bytes, or the rejection of the read). *)
Record Response : Type := mkResponse {
  ok : bool;
  status : Z;
  body : Result string
}.

(** How a sent XMLHttpRequest ends, with the [status], [statusText] and
    body bytes of a loaded response. *)
Inductive XhrEnding : Type :=
| Loaded (status : Z) (statusText : string) (body : string)
| Errored
| TimedOut.

(** One exchange of an XMLHttpRequest: its progress notifications
    (loaded, total), then its ending. *)
Record XhrExchange : Type := mkExchange {
  notifications : list (Z * Z);
  ending : XhrEnding
}.

(** The platform under the module: [JSON], [fetch] (the promise it
    returns: fulfilled with a response, or rejected) and, for the n-th
    XMLHttpRequest object of a call, the exchange it goes through. *)
Record Browser : Type := mkBrowser {
  JSON_stringify : JsVal -> Result string;
  JSON_parse : string -> Result JsVal;
  fetch : option string -> RequestInit -> Result Response;
  xhr_exchange : nat -> XhrExchange
}.

(** [response.json()], [.blob()], [.arrayBuffer()], [.text()] (Fetch
    Standard, the Body mixin): the body is read, then packaged. *)
Definition response_json (B : Browser) (r : Response) : Result JsVal :=
  match body r with
  | Ok b => JSON_parse B b
  | Throw e => Throw e
  end.

Definition response_blob (r : Response) : Result JsVal :=
  match body r with Ok b => Ok (VBlob b) | Throw e => Throw e end.

Definition response_arrayBuffer (r : Response) : Result JsVal :=
  match body r with Ok b => Ok (VArrayBuffer b) | Throw e => Throw e end.

Definition response_text (r : Response) : Result JsVal :=
  match body r with Ok b => Ok (VStr b) | Throw e => Throw e end.

(** [xhr.response] and [xhr.responseText] of a loaded request whose
    [responseType] attribute is [rt] (XMLHttpRequest Standard): a JSON
    body that does not parse gives [null]; [responseText] throws unless
    [rt] is the empty string or "text". *)
Definition xhr_response (B : Browser) (rt : string) (b : string) : JsVal :=
  if (rt =? "json")%string then
    match JSON_parse B b with Ok v => v | Throw _ => VNull end
  else if (rt =? "blob")%string then VBlob b
  else if (rt =? "arraybuffer")%string then VArrayBuffer b
  else if (rt =? "document")%string then VDocument b
  else VStr b.

Definition xhr_responseText (rt : string) (b : string) : Result JsVal :=
  if ((rt =? "") || (rt =? "text"))%string then Ok (VStr b)
  else Throw (mkExn "InvalidStateError"
                "responseText needs a responseType that is empty or text").

(** [xhr.status] once the request ended. *)
Definition xhr_status (e : XhrEnding) : Z :=
  match e with
  | Loaded st _ _ => st
  | Errored | TimedOut => 0
  end.

(** ** Effects *)

Inductive Effect : Type :=
| Fetch (url : option string) (init : RequestInit)
| XhrNew
| XhrOpen (method url : option string)
| XhrSetRequestHeader (key value : string)
| XhrSetResponseType (t : string)
| XhrSetTimeout (ms : JsNum)
| XhrSend (body : JsVal)
| CallSuccess (response : JsVal)
| CallError (error : ErrorArg)
| CallOnProgress (loaded total : Z)
| ConsoleError (error : ErrorArg)
| ConsoleWarn (msg : string)
| SetTimeout (ms : JsNum)
| Uncaught (e : Exn).

(** ** src/utils/ajax.ts *)

Definition opt_string_eqb (a : option string) (b : string) : bool :=
  match a with Some s => (s =? b)%string | None => false end.

(** [headers["Content-Type"]]. *)
Fixpoint header (hs : Headers) (name : string) : option string :=
  match hs with
  | [] => None
  | (k, v) :: rest =>
      if (k =? name)%string then Some v else header rest name
  end.

Definition is_FormData (v : JsVal) : bool :=
  match v with VFormData _ => true | _ => false end.

Definition formatDataForFetch (B : Browser) (data : JsVal)
    (headers : option Headers) : Result JsVal :=
  if truthy data && typeof_object data && negb (is_FormData data) then
    match headers with
    | Some hs =>
        if opt_string_eqb (header hs "Content-Type") "application/json" then
          match JSON_stringify B data with
          | Ok s => Ok (VStr s)
          | Throw e => Throw e
          end
        else Ok data
    | None => Ok data
    end
  else Ok data.

Definition formatDataForXHR (B : Browser) (data : JsVal)
    (headers : option Headers) : Result JsVal :=
  if truthy data && typeof_object data && negb (is_FormData data) then
    match headers with
    | Some hs =>
        if opt_string_eqb (header hs "Content-Type") "application/json" then
          match JSON_stringify B data with
          | Ok s => Ok (VStr s)
          | Throw e => Throw e
          end
        else Ok data
    | None => Ok data
    end
  else Ok data.

Definition handleError (o : AjaxOptions) (e : ErrorArg) : M Effect unit :=
  match error o with
  | Some f => perform (CallError e) (f e)
  | None => emit (ConsoleError e)
  end.

Definition handleFetchResponse (B : Browser) (response : Response)
    (responseType : option string) : Result JsVal :=
  if negb (ok response) then
    Throw (Error ("HTTP error: " ++ string_of_Z (status response)))
  else if opt_string_eqb responseType "json" then response_json B response
  else if opt_string_eqb responseType "blob" then response_blob response
  else if opt_string_eqb responseType "arraybuffer" then
    response_arrayBuffer response
  else response_text response.

(** [options.data], [undefined] when absent. *)
Definition data_of (o : AjaxOptions) : JsVal :=
  match data o with Some v => v | None => VUndefined end.

(** [if (options.success) options.success(v)]. *)
Definition call_success (o : AjaxOptions) (v : JsVal) : M Effect unit :=
  match success o with
  | Some f => perform (CallSuccess v) (f v)
  | None => ret tt
  end.

(** The [try] block of [ajaxFetch]. *)
Definition exchange (B : Browser) (o : AjaxOptions) (config : RequestInit)
  : M Effect unit :=
  response <- perform (Fetch (url o) config) (fetch B (url o) config) ;;
  responseBody <- ([], handleFetchResponse B response (responseType o)) ;;
  call_success o responseBody.

(** [const config = { method, headers, body, signal }]. *)
Definition config_of (B : Browser) (o : AjaxOptions) : Result RequestInit :=
  match (if negb (opt_string_eqb (method o) "GET")
         then formatDataForFetch B (data_of o) (headers o)
         else Ok VUndefined) with
  | Ok body => Ok (mkInit (method o) (headers o) body (abortSignal o))
  | Throw e => Throw e
  end.

(** [ajaxFetch] is an async function: the computation is the whole life
    of the promise it returns, [Ok] when the promise is fulfilled and
    [Throw e] when it is rejected with [e]. *)
Definition ajaxFetch (B : Browser) (o : AjaxOptions) : M Effect unit :=
  config <- ([], config_of B o) ;;
  try_catch (exchange B o config)
    (fun error => handleError o (Exception error)).

(** [xhr.timeout]: 0 unless [ajaxXHR] set it. *)
Definition xhr_timeout (o : AjaxOptions) : JsNum :=
  match timeout o with
  | Some n => if num_truthy n then n else Num 0
  | None => Num 0
  end.

(** [xhr.responseType]: the empty string unless [ajaxXHR] set it. *)
Definition xhr_responseType (o : AjaxOptions) : string :=
  match responseType o with Some t => t | None => "" end.

(** The handlers [ajaxXHR] installs. *)
Definition onprogress (o : AjaxOptions) (loaded total : Z)
  : M Effect unit :=
  match onProgress o with
  | Some f => perform (CallOnProgress loaded total) (f loaded total)
  | None => ret tt
  end.

Definition onload (B : Browser) (o : AjaxOptions)
    (status : Z) (statusText : string) (b : string) : M Effect unit :=
  if (200 <=? status) && (status <? 300) then
    match success o with
    | Some f =>
        response <-
          ([], if opt_string_eqb (responseType o) "json"
               then Ok (xhr_response B (xhr_responseType o) b)
               else xhr_responseText (xhr_responseType o) b) ;;
        perform (CallSuccess response) (f response)
    | None => ret tt
    end
  else
    handleError o
      (Message ("Request failed with status " ++ string_of_Z status ++ ": "
                ++ statusText)).

Definition onerror (o : AjaxOptions) : M Effect unit :=
  handleError o (Message "Request failed due to network error.").

Definition ontimeout (o : AjaxOptions) : M Effect unit :=
  handleError o
    (Message ("Request timed out after " ++ num_to_string (xhr_timeout o)
              ++ "ms")).

(** The synchronous body of [ajaxXHR], up to [xhr.send]. *)
Definition ajaxXHR (B : Browser) (o : AjaxOptions) : M Effect unit :=
  emit XhrNew ;;
  emit (XhrOpen (method o) (url o)) ;;
  (match headers o with
   | Some hs => (map (fun kv => XhrSetRequestHeader (fst kv) (snd kv)) hs,
                 Ok tt)
   | None => ret tt
   end) ;;
  (match responseType o with
   | Some t => when (str_truthy t) (emit (XhrSetResponseType t))
   | None => ret tt
   end) ;;
  (match timeout o with
   | Some n => when (num_truthy n) (emit (XhrSetTimeout n))
   | None => ret tt
   end) ;;
  requestData <- ([], formatDataForXHR B (data_of o) (headers o)) ;;
  emit (XhrSend requestData).

(** ** retryRequest *)

(** [a <= b] on Numbers: false when either is NaN. *)
Definition num_leb (a b : JsNum) : bool :=
  match a, b with
  | Num x, Num y => x <=? y
  | _, _ => false
  end.

(** [options.retries || 1] and [options.retryDelay || 1e3]. *)
Definition num_or (n : option JsNum) (d : Z) : JsNum :=
  match n with
  | Some n => if num_truthy n then n else Num d
  | None => Num d
  end.

(** [options.retries - 1]: NaN when [retries] is absent or NaN. *)
Definition retries_minus_1 (o : AjaxOptions) : JsNum :=
  match retries o with
  | Some (Num z) => Num (z - 1)
  | Some NaN | None => NaN
  end.

(** [{ ...options, retries: options.retries - 1 }]. *)
Definition retried (o : AjaxOptions) : AjaxOptions :=
  mkAjaxOptions (method o) (url o) (headers o) (data o) (success o)
    (error o) (timeout o) (Some (retries_minus_1 o)) (retryDelay o)
    (responseType o) (onProgress o) (abortSignal o) (useFetch o).

(** The options with another [abortSignal] property. *)
Definition with_signal (o : AjaxOptions) (s : option AbortSignal)
  : AjaxOptions :=
  mkAjaxOptions (method o) (url o) (headers o) (data o) (success o)
    (error o) (timeout o) (retries o) (retryDelay o) (responseType o)
    (onProgress o) s (useFetch o).

(** The condition of the [onloadend] handler that [retryRequest]
    installs; [attempt] is the third parameter of [retryRequest]. *)
Definition retry_due (o : AjaxOptions) (status : Z) (attempt : Z) : bool :=
  (400 <=? status) && num_leb (Num attempt) (num_or (retries o) 1).

(** No caller passes [attempt]: it is always the default. *)
Definition default_attempt : Z := 1.

Definition retry_warning (o : AjaxOptions) (attempt : Z) : string :=
  "Retrying request... (" ++ string_of_Z attempt ++ "/"
  ++ match retries o with
     | Some n => num_to_string n
     | None => "undefined"
     end
  ++ ")".

(** ** The event loop *)

(** An event handler or a timer callback run by the event loop: an
    exception that leaves it is reported and goes no further. *)
Definition task (m : M Effect unit) : list Effect :=
  match m with
  | (t, Ok _) => t
  | (t, Throw e) => (t ++ [Uncaught e])%list
  end.

(** The events of one exchange, delivered to the handlers of [o]. *)
Definition events (B : Browser) (o : AjaxOptions) (x : XhrExchange)
  : list Effect :=
  (flat_map (fun lt => task (onprogress o (fst lt) (snd lt)))
     (notifications x)
   ++ task (match ending x with
            | Loaded st txt b => onload B o st txt b
            | Errored => onerror o
            | TimedOut => ontimeout o
            end))%list.

(** All that happens once the [n]-th request object of a call was sent
    with options [o]: its events, then [onloadend], which may set the
    timer whose callback warns and calls [ajaxXHR] again. [fuel] bounds
    the number of exchanges followed. *)
Fixpoint settle (B : Browser) (fuel : nat) (n : nat) (o : AjaxOptions)
  : list Effect :=
  match fuel with
  | O => []
  | S fuel' =>
      let x := xhr_exchange B n in
      (events B o x ++
       if retry_due o (xhr_status (ending x)) default_attempt then
         SetTimeout (num_or (retryDelay o) 1000)
         :: ConsoleWarn (retry_warning o default_attempt)
         :: match ajaxXHR B (retried o) with
            | (t, Ok _) => t ++ settle B fuel' (S n) (retried o)
            | (t, Throw e) => t ++ [Uncaught e]
            end
       else [])%list
  end.

(** One logical call through XMLHttpRequest: [ajaxXHR], and what follows
    the send. *)
Definition xhr_call (B : Browser) (fuel : nat) (o : AjaxOptions)
  : list Effect :=
  match ajaxXHR B o with
  | (t, Ok _) => (t ++ settle B fuel 0 o)%list
  | (t, Throw _) => t
  end.

(** ** src/core/request.ts *)

(** What [ajax] returns to its caller: the promise of [ajaxFetch], given
    by how it settles, or [undefined]. *)
Inductive Returned : Type :=
| Promise (settled : Result unit)
| Undefined.

Definition use_fetch (o : AjaxOptions) : bool :=
  match useFetch o with Some b => b | None => false end.

(** For the fetch transport the trace is that of the whole promise; for
    XMLHttpRequest it ends at [xhr.send] ([xhr_call] has the rest). *)
Definition ajax (B : Browser) (o : AjaxOptions) : M Effect Returned :=
  if use_fetch o then
    let (t, settled) := ajaxFetch B o in (t, Ok (Promise settled))
  else
    ajaxXHR B o ;; ret Undefined.

Definition or_else {A} (a b : option A) : option A :=
  match a with Some _ => a | None => b end.

(** [{ ...base, ...options }]. *)
Definition spread (base options : AjaxOptions) : AjaxOptions :=
  mkAjaxOptions
    (or_else (method options) (method base))
    (or_else (url options) (url base))
    (or_else (headers options) (headers base))
    (or_else (data options) (data base))
    (or_else (success options) (success base))
    (or_else (error options) (error base))
    (or_else (timeout options) (timeout base))
    (or_else (retries options) (retries base))
    (or_else (retryDelay options) (retryDelay base))
    (or_else (responseType options) (responseType base))
    (or_else (onProgress options) (onProgress base))
    (or_else (abortSignal options) (abortSignal base))
    (or_else (useFetch options) (useFetch base)).

(** [{ method, url }] and [{ method, url, data, headers }]. *)
Definition base_options (m u : string) : AjaxOptions :=
  mkAjaxOptions (Some m) (Some u) None None None None None None None None
    None None None.

Definition body_options (m u : string) (d : JsVal) : AjaxOptions :=
  mkAjaxOptions (Some m) (Some u)
    (Some [("Content-Type", "application/json")]) (Some d)
    None None None None None None None None None.

(** [Object.entries(data).map(([key, value]) =>
    `${encodeURIComponent(key)}=${encodeURIComponent(value)}`).join("&")]. *)
Definition queryString (entries : list (string * JsVal)) : string :=
  join "&"
    (map (fun kv => encodeURIComponent (fst kv) ++ "="
                    ++ encodeURIComponent (to_string (snd kv)))
       entries).

Definition fullUrl (u : string) (qs : string) : string :=
  if str_truthy qs then u ++ "?" ++ qs else u.

(** A parameter with the default [{}]. *)
Definition or_empty (d : JsVal) : JsVal :=
  match d with VUndefined => VObject [] | _ => d end.

Definition get (B : Browser) (u : string) (d : JsVal) (options : AjaxOptions)
  : M Effect Returned :=
  entries <- ([], object_entries (or_empty d)) ;;
  ajax B (spread (base_options "GET" (fullUrl u (queryString entries)))
            options).

Definition post (B : Browser) (u : string) (d : JsVal)
    (options : AjaxOptions) : M Effect Returned :=
  ajax B (spread (body_options "POST" u d) options).

Definition put (B : Browser) (u : string) (d : JsVal)
    (options : AjaxOptions) : M Effect Returned :=
  ajax B (spread (body_options "PUT" u d) options).

Definition patch (B : Browser) (u : string) (d : JsVal)
    (options : AjaxOptions) : M Effect Returned :=
  ajax B (spread (body_options "PATCH" u d) options).

Definition deleteRequest (B : Browser) (u : string) (d : JsVal)
    (options : AjaxOptions) : M Effect Returned :=
  entries <- ([], object_entries (or_empty d)) ;;
  ajax B (spread (base_options "DELETE" (fullUrl u (queryString entries)))
            options).

(** The effects of [ajaxXHR] before it serialises the body. *)
Definition configure (o : AjaxOptions) : list Effect :=
  (XhrNew :: XhrOpen (method o) (url o)
   :: match headers o with
      | Some hs => map (fun kv => XhrSetRequestHeader (fst kv) (snd kv)) hs
      | None => []
      end
   ++ match responseType o with
      | Some t => if str_truthy t then [XhrSetResponseType t] else []
      | None => []
      end
   ++ match timeout o with
      | Some n => if num_truthy n then [XhrSetTimeout n] else []
      | None => []
      end)%list.

(** ** Reading a trace *)

(** The attempts of a call: the requests handed to a transport. *)
Definition is_attempt (e : Effect) : bool :=
  match e with
  | XhrSend _ | Fetch _ _ => true
  | _ => false
  end.

Definition attempts (t : list Effect) : nat :=
  List.length (filter is_attempt t).

(** The transport was touched. *)
Definition touches_transport (e : Effect) : bool :=
  match e with
  | Fetch _ _ | XhrNew | XhrOpen _ _ | XhrSetRequestHeader _ _
  | XhrSetResponseType _ | XhrSetTimeout _ | XhrSend _ => true
  | _ => false
  end.

(** The URLs requested and the bodies sent. *)
Definition requested (e : Effect) : list (option string) :=
  match e with
  | XhrOpen _ u => [u]
  | Fetch u _ => [u]
  | _ => []
  end.

Definition sent (e : Effect) : list JsVal :=
  match e with
  | XhrSend b => [b]
  | Fetch _ init => [init_body init]
  | _ => []
  end.

(** The errors handed to the error callback or, without one, to the
    console; and the values handed to the success callback. *)
Definition reported (e : Effect) : list ErrorArg :=
  match e with
  | CallError a | ConsoleError a => [a]
  | _ => []
  end.

Definition succeeded (e : Effect) : list JsVal :=
  match e with
  | CallSuccess v => [v]
  | _ => []
  end.

(** The effect by which [handleError] passes [a] on. *)
Definition report (o : AjaxOptions) (a : ErrorArg) : Effect :=
  match error o with
  | Some _ => CallError a
  | None => ConsoleError a
  end.

(** A server that fails every exchange of the call with a status of 400
    or more. *)
Definition always_failing (B : Browser) : Prop :=
  forall n, 400 <= xhr_status (ending (xhr_exchange B n)).

Definition error_total (o : AjaxOptions) : Prop :=
  forall f, error o = Some f -> forall a, f a = Ok tt.


Definition is_promise (r : Result Returned) : bool :=
  match r with
  | Ok (Promise _) => true
  | _ => false
  end.

End Ajax.

(* ================================================================== *)
(** * @butility/dom: src/core/attribute.ts                             *)
(* ================================================================== *)

Module Attribute.
Import Js.
Local Open Scope js_scope.

(** The first argument: an [HTMLElement] or anything else. *)
Inductive Target : Type :=
| HTMLElement (tag : string)
| NotAnElement (v : JsVal).

(** The object built so far in [settedAttributes]. *)
Definition Attrs : Type := list (string * JsVal).

(** [SetAttributesOptions]; [None] is an absent property. A callback is
    given by how each of its calls ends. *)
Record SetAttributesOptions : Type := mkOptions {
  whitelist : option (list string);
  blacklist : option (list string);
  validate : option (string -> JsVal -> Result bool);
  transformValue : option (string -> JsVal -> Result JsVal);
  addPrefix : option string;
  onAttributeSet : option (Attrs -> Result unit);
  onError : option (Exn -> Result unit);
  log : option bool
}.

(** [options = {}]. *)
Definition no_options : SetAttributesOptions :=
  mkOptions None None None None None None None None.

(** The element's side: how [element.dataset[key] = v] and
    [element.setAttribute(name, v)] end (the DOM throws on names it does
    not accept). *)
Record Dom : Type := mkDom {
  dataset_set : string -> JsVal -> Result unit;
  element_setAttribute : string -> JsVal -> Result unit
}.

Inductive Effect : Type :=
| DatasetSet (key : string) (v : JsVal)
| SetAttribute (name : string) (v : JsVal)
| ConsoleLog (msg : string)
| ConsoleError (e : Exn)
| CallValidate (name : string) (v : JsVal)
| CallTransformValue (name : string) (v : JsVal)
| CallOnAttributeSet (attrs : Attrs)
| CallOnError (e : Exn).

(** [onError(error)], with its default [(error) => console.error(error)]. *)
Definition call_onError (o : SetAttributesOptions) (e : Exn)
  : M Effect unit :=
  match onError o with
  | Some f => perform (CallOnError e) (f e)
  | None => emit (ConsoleError e)
  end.

(** [onAttributeSet(settedAttributes)], with its default no-op. *)
Definition call_onAttributeSet (o : SetAttributesOptions) (a : Attrs)
  : M Effect unit :=
  match onAttributeSet o with
  | Some f => perform (CallOnAttributeSet a) (f a)
  | None => ret tt
  end.

Definition includes (l : list string) (key : string) : bool :=
  existsb (String.eqb key) l.

Definition shouldSetAttribute (o : SetAttributesOptions) (key : string)
  : bool :=
  if match whitelist o with
     | Some w => negb (includes w key)
     | None => false
     end
  then false
  else if match blacklist o with
          | Some b => includes b key
          | None => false
          end
  then false
  else true.

Definition prefix_of (o : SetAttributesOptions) : string :=
  match addPrefix o with Some p => p | None => "" end.

Definition logging (o : SetAttributesOptions) : bool :=
  match log o with Some b => b | None => false end.

(** [/^data-/.test(name)] and [name.slice(5)]. *)
Definition is_data_name (name : string) : bool := String.prefix "data-" name.
Definition slice5 (name : string) : string :=
  substring 5 (String.length name - 5) name.

(** [Object.defineProperty(obj, name, {value, writable, enumerable,
    configurable})] on a plain object. *)
Fixpoint defineProperty (a : Attrs) (name : string) (v : JsVal) : Attrs :=
  match a with
  | [] => [(name, v)]
  | (k, w) :: rest =>
      if String.eqb k name then (k, v) :: rest
      else (k, w) :: defineProperty rest name v
  end.

(** How one round of the [for] loop ends: the function returns, or the
    loop goes on. *)
Inductive Round : Type :=
| Return
| Continue (setted : Attrs).

(** The body of the inner [try]. *)
Definition attempt (dom : Dom) (o : SetAttributesOptions)
    (attributeName : string) (attributeValue : JsVal) (setted : Attrs)
  : M Effect Round :=
  let finalAttributeName :=
    if str_truthy (prefix_of o) then prefix_of o ++ attributeName
    else attributeName in
  if negb (shouldSetAttribute o finalAttributeName) then
    when (logging o)
      (emit (ConsoleLog ("Skipping attribute: " ++ finalAttributeName))) ;;
    ret Return
  else
    valid <- match validate o with
             | Some f =>
                 perform (CallValidate finalAttributeName attributeValue)
                   (f finalAttributeName attributeValue)
             | None => ret true
             end ;;
    (if negb valid then
       throw (Error ("Validation failed for attribute: " ++ finalAttributeName
                     ++ " with value: " ++ to_string attributeValue))
     else ret tt) ;;
    transformedValue <-
      match transformValue o with
      | Some f =>
          perform (CallTransformValue finalAttributeName attributeValue)
            (f finalAttributeName attributeValue)
      | None => ret attributeValue
      end ;;
    (if is_data_name finalAttributeName then
       let dataKey := slice5 finalAttributeName in
       perform (DatasetSet dataKey transformedValue)
         (dataset_set dom dataKey transformedValue) ;;
       when (logging o)
         (emit (ConsoleLog ("Set data attribute: data-" ++ dataKey ++ " = "
                            ++ to_string transformedValue)))
     else
       perform (SetAttribute finalAttributeName transformedValue)
         (element_setAttribute dom finalAttributeName transformedValue) ;;
       when (logging o)
         (emit (ConsoleLog ("Set attribute: " ++ finalAttributeName ++ " = "
                            ++ to_string transformedValue)))) ;;
    ret (Continue (defineProperty setted finalAttributeName transformedValue)).

(** One round: the inner [try ... catch (error) { onError(error); }]. *)
Definition round (dom : Dom) (o : SetAttributesOptions)
    (attributeName : string) (attributeValue : JsVal) (setted : Attrs)
  : M Effect Round :=
  try_catch (attempt dom o attributeName attributeValue setted)
    (fun error => call_onError o error ;; ret (Continue setted)).

(** The [for ... of Object.entries(attribute)] loop; [None] when a round
    returned from the function. *)
Fixpoint rounds (dom : Dom) (o : SetAttributesOptions)
    (entries : list (string * JsVal)) (setted : Attrs)
  : M Effect (option Attrs) :=
  match entries with
  | [] => ret (Some setted)
  | (attributeName, attributeValue) :: rest =>
      r <- round dom o attributeName attributeValue setted ;;
      match r with
      | Return => ret None
      | Continue setted' => rounds dom o rest setted'
      end
  end.

Definition setAttribute (dom : Dom) (element : Target) (attribute : JsVal)
    (o : SetAttributesOptions) : M Effect unit :=
  try_catch
    ((match element with
      | HTMLElement _ => ret tt
      | NotAnElement _ =>
          throw (TypeError "Provided element is not a valid HTMLElement.")
      end) ;;
     (if negb (typeof_object attribute) then
        throw (Error "Attribute name must be a non-empty string.")
      else ret tt) ;;
     entries <- ([], object_entries attribute) ;;
     done <- rounds dom o entries [] ;;
     match done with
     | Some settedAttributes => call_onAttributeSet o settedAttributes
     | None => ret tt
     end)
    (fun error => call_onError o error).

(** What it means for the caller's callbacks not to throw. *)
Definition onError_total (o : SetAttributesOptions) : Prop :=
  forall f, onError o = Some f -> forall e, f e = Ok tt.


(** The effect by which [error] reaches [onError]. *)
Definition delivered (o : SetAttributesOptions) (error : Exn) : Effect :=
  match onError o with
  | Some _ => CallOnError error
  | None => ConsoleError error
  end.

End Attribute.

(* ================================================================== *)
(** * The wallpaper page script                                        *)
(* ================================================================== *)

Module Wallpaper.

(** The module-level variables of the script, and what the page shows:
    the history entry last given to [setAttribute] as the [src] of the
    image ([None] for [undefined]) and the number of requests
    [setRandomWallpaper] has issued. *)
Record State : Type := mkState {
  wallpaperHistory : list string;
  currentIndex : Z;
  imageSrc : option string;
  requests : nat
}.

Definition initial : State := mkState [] (-1) None 0.

(** [wallpaperHistory[i]]: [undefined] out of range. *)
Definition at_index (h : list string) (i : Z) : option string :=
  if i <? 0 then None else nth_error h (Z.to_nat i).

(** [setRandomWallpaper()]: only issues the request. *)
Definition setRandomWallpaper (s : State) : State :=
  mkState (wallpaperHistory s) (currentIndex s) (imageSrc s) (S (requests s)).

(** The [success] callback of the request, with the object URL made for
    the response. *)
Definition onSuccess (blobUrl : string) (s : State) : State :=
  let h := Js.splice_from (currentIndex s + 1) (wallpaperHistory s) in
  let h := (h ++ [blobUrl])%list in
  mkState h (currentIndex s + 1) (Some blobUrl) (requests s).

Definition goBack (s : State) : State :=
  if 0 <? currentIndex s then
    let i := currentIndex s - 1 in
    mkState (wallpaperHistory s) i (at_index (wallpaperHistory s) i)
      (requests s)
  else s.

Definition goForward (s : State) : State :=
  if currentIndex s <? Z.of_nat (List.length (wallpaperHistory s)) - 1 then
    let i := currentIndex s + 1 in
    mkState (wallpaperHistory s) i (at_index (wallpaperHistory s) i)
      (requests s)
  else setRandomWallpaper s.

(** What can happen to the page: a click on either button (or a tick of
    the slideshow timer, which calls [goForward]) and the completion of
    a request. *)
Inductive Event : Type :=
| ClickBack
| ClickForward
| FetchSuccess (blobUrl : string)
| FetchFailure.

Definition step (s : State) (e : Event) : State :=
  match e with
  | ClickBack => goBack s
  | ClickForward => goForward s
  | FetchSuccess u => onSuccess u s
  | FetchFailure => s
  end.

Definition run (evs : list Event) (s : State) : State :=
  fold_left step evs s.

Definition index_in_range (s : State) : Prop :=
  -1 <= currentIndex s <= Z.of_nat (List.length (wallpaperHistory s)) - 1.

End Wallpaper.

(* ================================================================== *)
(** * Scenarios                                                        *)
(* ================================================================== *)

Module Scenario.
Import Js Ajax.

(** A JSON parser that knows three texts. *)
Definition parse_literal (s : string) : Result JsVal :=
  if (s =? "null")%string then Ok VNull
  else if (s =? "true")%string then Ok (VBool true)
  else if (s =? "[]")%string then Ok (VObject [])
  else Throw (mkExn "SyntaxError" "Unexpected token in JSON").

Definition stringify_opaque (v : JsVal) : Result string := Ok "{}".

Definition network_failure : Exn := TypeError "Failed to fetch".
Definition abort_error : Exn :=
  mkExn "AbortError" "The operation was aborted.".

(** A [fetch] that observes the signal it is given and otherwise answers
    [r]. *)
Definition fetch_answering (r : Result Response)
    (u : option string) (init : RequestInit) : Result Response :=
  match init_signal init with
  | Some (mkSignal true) => Throw abort_error
  | _ => r
  end.

(** A server that answers every request with [status] and [body]. *)
Definition answering (st : Z) (txt : string) (b : string) : Browser :=
  mkBrowser stringify_opaque parse_literal
    (fetch_answering (Ok (mkResponse ((200 <=? st) && (st <? 300)) st (Ok b))))
    (fun _ => mkExchange [] (Loaded st txt b)).

(** A network that is down. *)
Definition unreachable : Browser :=
  mkBrowser stringify_opaque parse_literal
    (fetch_answering (Throw network_failure))
    (fun _ => mkExchange [] Errored).

(** A server that fails the first [k] requests of a call with status
    500 and then answers 200 with [b]. *)
Definition flaky (k : nat) (b : string) : Browser :=
  mkBrowser stringify_opaque parse_literal
    (fetch_answering (Ok (mkResponse true 200 (Ok b))))
    (fun n => mkExchange []
                (if (n <? k)%nat then Loaded 500 "Internal Server Error" ""
                 else Loaded 200 "OK" b)).

Definition accept {A} (a : A) : Result unit := Ok tt.

(** [{ success: f }]. *)
Definition on_success (f : JsVal -> Result unit) : AjaxOptions :=
  mkAjaxOptions None None None None (Some f) None None None None None None
    None None.

(** [{ method: "GET", url: "/x", retries: 2, retryDelay: 10, success }]. *)
Definition patient : AjaxOptions :=
  mkAjaxOptions (Some "GET") (Some "/x") None None (Some accept) None None
    (Some (Num 2)) (Some (Num 10)) None None None None.

(** [{ method: "GET", url: "/x", retries: n }]. *)
Definition with_retries (n : Z) : AjaxOptions :=
  spread (base_options "GET" "/x")
    (mkAjaxOptions None None None None None None None (Some (Num n)) None
       None None None None).

(** [{ method: "GET", url: "/x", responseType: t, success, error }]. *)
Definition expecting (t : string) (fetching : bool) : AjaxOptions :=
  mkAjaxOptions (Some "GET") (Some "/x") None None (Some accept)
    (Some accept) None None None (Some t) None None
    (if fetching then Some true else None).

(** [{ method: "GET", url: "/x", retries: 1, abortSignal }] with the
    signal already signalled. *)
Definition cancelled (fetching : bool) : AjaxOptions :=
  mkAjaxOptions (Some "GET") (Some "/x") None None None (Some accept) None
    (Some (Num 1)) None None None (Some (mkSignal true))
    (if fetching then Some true else None).

End Scenario.

(* ================================================================== *)
(** * Reading the traces of the request core                           *)
(* ================================================================== *)

Module Observe.
Import Js Ajax.

(** The delays of the timers set. *)
Definition timers (e : Effect) : list JsNum :=
  match e with
  | SetTimeout ms => [ms]
  | _ => []
  end.

(** The method and URL of every [xhr.open]. *)
Definition opened (e : Effect) : list (option string * option string) :=
  match e with
  | XhrOpen m u => [(m, u)]
  | _ => []
  end.

(** The Content-Type a request carries. *)
Definition content_type (e : Effect) : list string :=
  match e with
  | XhrSetRequestHeader k v =>
      if (k =? "Content-Type")%string then [v] else []
  | Fetch _ init =>
      match init_headers init with
      | Some hs =>
          match header hs "Content-Type" with
          | Some v => [v]
          | None => []
          end
      | None => []
      end
  | _ => []
  end.

(** The exceptions that left a handler. *)
Definition uncaught (e : Effect) : list Exn :=
  match e with
  | Uncaught x => [x]
  | _ => []
  end.

(** The effects of callbacks, logging and reporting: everything that is
    neither a call of the transport nor a timer. *)
Definition is_callback (e : Effect) : bool :=
  match e with
  | CallSuccess _ | CallError _ | CallOnProgress _ _ | ConsoleError _
  | Uncaught _ => true
  | _ => false
  end.

(** [data] is handed to the transport as it is: it is falsy, not an
    object, or a [FormData]. *)
Definition passes_through (d : JsVal) : bool :=
  negb (truthy d && typeof_object d && negb (is_FormData d)).

(** The options with other [timeout], [retries], [retryDelay] and
    [onProgress] properties. *)
Definition with_xhr_settings (o : AjaxOptions) (t r d : option JsNum)
    (p : option (Z -> Z -> Result unit)) : AjaxOptions :=
  mkAjaxOptions (method o) (url o) (headers o) (data o) (success o)
    (error o) t r d (responseType o) p (abortSignal o) (useFetch o).

End Observe.

(* ================================================================== *)
(** * More scenarios                                                   *)
(* ================================================================== *)

Module Cases.
Import Js Ajax.

(** [{ method: "GET", url: "/x", success, error }] whose success
    callback throws [e]. *)
Definition careless (e : Exn) (fetching : bool) : AjaxOptions :=
  mkAjaxOptions (Some "GET") (Some "/x") None None (Some (fun _ => Throw e))
    (Some Scenario.accept) None None None None None None
    (if fetching then Some true else None).

(** [{ method: "GET", url: "/x", data: d }]. *)
Definition carrying (d : JsVal) : AjaxOptions :=
  mkAjaxOptions (Some "GET") (Some "/x") None (Some d) None None None None
    None None None None None.

(** A browser whose [JSON.stringify] throws [e]. *)
Definition unserialising (e : Exn) : Browser :=
  mkBrowser (fun _ => Throw e) Scenario.parse_literal
    (Scenario.fetch_answering (Throw Scenario.network_failure))
    (fun _ => mkExchange [] Errored).

End Cases.

(* ================================================================== *)
(** * The page script: what the image shows, and the slideshow timer   *)
(* ================================================================== *)

Module Page.
Import Wallpaper.

(** The image shows the current entry of the history: nothing before the
    first wallpaper arrived, [wallpaperHistory[currentIndex]] after. *)
Definition shows_current (s : State) : Prop :=
  (currentIndex s = -1 /\ wallpaperHistory s = [] /\ imageSrc s = None)
  \/ (0 <= currentIndex s
      /\ imageSrc s <> None
      /\ imageSrc s
         = nth_error (wallpaperHistory s) (Z.to_nat (currentIndex s))).

(** What an interval timer calls. *)
Inductive Callback : Type :=
| GoForward
| UpdateClock.

(** The timer table of the window and the variable [slideshowTimer]
    ([None] is [null]). [setInterval] hands out the handles
    [next_handle], [next_handle + 1], ...; handles are greater than
    zero. *)
Record Timers : Type := mkTimers {
  slideshowTimer : option nat;
  intervals : list (nat * (Callback * Z));
  next_handle : nat
}.

Definition slideshowIntervalMs : Z := 500000.

(** [setInterval(callback, ms)]: the handle, and the table after. *)
Definition setInterval (cb : Callback) (ms : Z) (t : Timers)
  : nat * Timers :=
  (next_handle t,
   mkTimers (slideshowTimer t)
     (intervals t ++ [(next_handle t, (cb, ms))])
     (S (next_handle t))).

(** [clearInterval(handle)]. *)
Definition clearInterval (h : nat) (t : Timers) : Timers :=
  mkTimers (slideshowTimer t)
    (filter (fun e => negb (fst e =? h)%nat) (intervals t))
    (next_handle t).

(** [if (slideshowTimer)]: [null] and 0 are falsy. *)
Definition timer_set (t : Timers) : option nat :=
  match slideshowTimer t with
  | Some h => if (h =? 0)%nat then None else Some h
  | None => None
  end.

Definition stopSlideshow (t : Timers) : Timers :=
  match timer_set t with
  | Some h =>
      let t := clearInterval h t in
      mkTimers None (intervals t) (next_handle t)
  | None => t
  end.

Definition startSlideshow (t : Timers) : Timers :=
  let t := stopSlideshow t in
  let (h, t) := setInterval GoForward slideshowIntervalMs t in
  mkTimers (Some h) (intervals t) (next_handle t).

(** The script as it is loaded: [setInterval(updateClock, 1000)] on a
    window whose next handle is [h0]. *)
Definition loaded (h0 : nat) : Timers :=
  snd (setInterval UpdateClock 1000 (mkTimers None [] h0)).

Inductive Call : Type :=
| Start
| Stop.

Definition call (t : Timers) (c : Call) : Timers :=
  match c with
  | Start => startSlideshow t
  | Stop => stopSlideshow t
  end.

(** The intervals that call [cb]. *)
Definition running (cb : Callback) (t : Timers) : list (nat * Z) :=
  flat_map (fun e => match cb, fst (snd e) with
                     | GoForward, GoForward | UpdateClock, UpdateClock =>
                         [(fst e, snd (snd e))]
                     | _, _ => []
                     end)
    (intervals t).

(** A table as the script keeps it: the handles are distinct, greater
    than zero and below the next one, and the variable holds the handle
    of the one interval that calls [goForward], or there is none. *)
Definition tidy (t : Timers) : Prop :=
  (0 < next_handle t)%nat
  /\ NoDup (map fst (intervals t))
  /\ Forall (fun e => (0 < fst e < next_handle t)%nat) (intervals t)
  /\ match slideshowTimer t with
     | Some h => running GoForward t = [(h, slideshowIntervalMs)]
     | None => running GoForward t = []
     end.

End Page.

(* ================================================================== *)
(** * Reading the traces of setAttribute                               *)
(* ================================================================== *)

Module Inspect.
Import Js Attribute.

(** [finalAttributeName]: the name with the prefix of the options. *)
Definition final_name (o : SetAttributesOptions) (k : string) : string :=
  if str_truthy (prefix_of o) then prefix_of o ++ k else k.

(** The objects handed to [onAttributeSet]. *)
Definition announced (e : Effect) : list Attrs :=
  match e with
  | CallOnAttributeSet a => [a]
  | _ => []
  end.

(** The writes to the element. *)
Definition is_write (e : Effect) : bool :=
  match e with
  | DatasetSet _ _ | SetAttribute _ _ => true
  | _ => false
  end.

(** The write by which [name] gets the value [v]: through the dataset
    for a [data-] name, through [element.setAttribute] otherwise; and
    how it ends. *)
Definition write_of (name : string) (v : JsVal) : Effect :=
  if is_data_name name then DatasetSet (slice5 name) v
  else SetAttribute name v.

Definition write_result (dom : Dom) (name : string) (v : JsVal)
  : Result unit :=
  if is_data_name name then dataset_set dom (slice5 name) v
  else element_setAttribute dom name v.

(** No whitelist, blacklist, validator or transform. *)
Definition unfiltered (o : SetAttributesOptions) : Prop :=
  whitelist o = None /\ blacklist o = None /\ validate o = None
  /\ transformValue o = None.

(** The entries whose write did not throw, as [settedAttributes]
    collects them. *)
Definition kept (dom : Dom) (o : SetAttributesOptions)
    (entries : list (string * JsVal)) (setted : Attrs) : Attrs :=
  fold_left
    (fun acc kv =>
       if throws (write_result dom (final_name o (fst kv)) (snd kv))
       then acc
       else defineProperty acc (final_name o (fst kv)) (snd kv))
    entries setted.

(** The line logged for a skipped name. *)
Definition skip_log (o : SetAttributesOptions) (k : string) : list Effect :=
  if logging o
  then [ConsoleLog ("Skipping attribute: " ++ final_name o k)]
  else [].

End Inspect.

(* ================================================================== *)
(** * The attributes of an element                                     *)
(* ================================================================== *)

(** The part of the DOM that src/core/attribute.ts reads and writes, for
    an HTML element of an HTML document (DOM Standard, Element; HTML
    Standard, DOMStringMap). Attribute names and values are strings. *)
Module Dom.
Import Js.

(** [element.attributes]: qualified names and values, in order. *)
Definition AttrList : Type := list (string * string).

Definition is_upper (c : ascii) : bool :=
  let n := nat_of_ascii c in ((65 <=? n) && (n <=? 90))%nat.

Definition is_lower (c : ascii) : bool :=
  let n := nat_of_ascii c in ((97 <=? n) && (n <=? 122))%nat.

Definition to_lower (c : ascii) : ascii :=
  if is_upper c then ascii_of_nat (nat_of_ascii c + 32) else c.

Definition to_upper (c : ascii) : ascii :=
  if is_lower c then ascii_of_nat (nat_of_ascii c - 32) else c.

(** ASCII lowercase. *)
Fixpoint lower (s : string) : string :=
  match s with
  | EmptyString => ""
  | String c rest => String (to_lower c) (lower rest)
  end.

(** The value of the first attribute whose qualified name is [name]. *)
Fixpoint lookup (name : string) (l : AttrList) : option string :=
  match l with
  | [] => None
  | (n, v) :: rest => if (n =? name)%string then Some v else lookup name rest
  end.

(** [element.getAttribute(name)] ([None] is [null]) and
    [element.hasAttribute(name)]: the name is lowercased first. *)
Definition getAttribute (name : string) (l : AttrList) : option string :=
  lookup (lower name) l.

Definition hasAttribute (name : string) (l : AttrList) : bool :=
  match getAttribute name l with Some _ => true | None => false end.

(** Removing the first attribute whose qualified name is [name]. *)
Fixpoint remove (name : string) (l : AttrList) : AttrList :=
  match l with
  | [] => []
  | (n, v) :: rest =>
      if (n =? name)%string then rest else (n, v) :: remove name rest
  end.

(** [element.removeAttribute(name)]. *)
Definition removeAttribute (name : string) (l : AttrList) : AttrList :=
  remove (lower name) l.

(** Changing the value of the first attribute named [name], or
    appending a new attribute. *)
Fixpoint change (name value : string) (l : AttrList) : AttrList :=
  match l with
  | [] => [(name, value)]
  | (n, v) :: rest =>
      if (n =? name)%string then (n, value) :: rest
      else (n, v) :: change name value rest
  end.

(** [element.setAttribute(name, value)]: an [InvalidCharacterError] when
    the platform does not accept the name ([valid]), else the lowercased
    name gets the value. *)
Definition setAttribute (valid : string -> bool) (name value : string)
    (l : AttrList) : Result AttrList :=
  if valid name then Ok (change (lower name) value l)
  else Throw (mkExn "InvalidCharacterError"
                "String contains an invalid character").

(** ** [element.dataset] *)

Fixpoint has_upper (s : string) : bool :=
  match s with
  | EmptyString => false
  | String c rest => is_upper c || has_upper rest
  end.

(** Attribute name to property name: every [-] followed by an ASCII
    lowercase letter is dropped and the letter is uppercased. *)
Fixpoint camel (s : string) : string :=
  match s with
  | EmptyString => ""
  | String a t =>
      match t with
      | String c rest =>
          if Ascii.eqb a "-" && is_lower c
          then String (to_upper c) (camel rest)
          else String a (camel t)
      | EmptyString => String a ""
      end
  end.

(** Property name to attribute name: [data-], and every ASCII uppercase
    letter becomes [-] and its lowercase. *)
Fixpoint hyphenate (s : string) : string :=
  match s with
  | EmptyString => ""
  | String c rest =>
      if is_upper c then String "-" (String (to_lower c) (hyphenate rest))
      else String c (hyphenate rest)
  end.

Definition data_name (key : string) : string := "data-" ++ hyphenate key.

(** The property an attribute shows up as in the dataset: the attributes
    named [data-...] with no ASCII uppercase letter after the prefix. *)
Definition data_key (name : string) : option string :=
  if String.prefix "data-" name then
    let rest := substring 5 (String.length name - 5) name in
    if has_upper rest then None else Some (camel rest)
  else None.

(** [element.dataset[key]] ([None] is [undefined]). *)
Fixpoint dataset_get (key : string) (l : AttrList) : option string :=
  match l with
  | [] => None
  | (n, v) :: rest =>
      match data_key n with
      | Some k => if (k =? key)%string then Some v else dataset_get key rest
      | None => dataset_get key rest
      end
  end.

(** [key in element.dataset]. *)
Definition dataset_has (key : string) (l : AttrList) : bool :=
  match dataset_get key l with Some _ => true | None => false end.

(** [Object.keys(element.dataset)]. *)
Fixpoint dataset_keys (l : AttrList) : list string :=
  match l with
  | [] => []
  | (n, v) :: rest =>
      match data_key n with
      | Some k =>
          k :: filter (fun k' => negb (k' =? k)%string) (dataset_keys rest)
      | None => dataset_keys rest
      end
  end.

(** A [-] followed by an ASCII lowercase letter. *)
Fixpoint has_hyphen_lower (s : string) : bool :=
  match s with
  | EmptyString => false
  | String a t =>
      match t with
      | String c _ => (Ascii.eqb a "-" && is_lower c) || has_hyphen_lower t
      | EmptyString => false
      end
  end.

(** [element.dataset[key] = value]: a [SyntaxError] when the key has a
    [-] followed by an ASCII lowercase letter, an
    [InvalidCharacterError] when the attribute name is not accepted. *)
Definition dataset_set (valid : string -> bool) (key value : string)
    (l : AttrList) : Result AttrList :=
  if has_hyphen_lower key then
    Throw (mkExn "SyntaxError" "The string did not match the expected pattern")
  else if valid (data_name key) then Ok (change (data_name key) value l)
  else Throw (mkExn "InvalidCharacterError"
                "String contains an invalid character").

(** [delete element.dataset[key]]: the attribute is removed when [key]
    is a property of the dataset; nothing happens otherwise. *)
Definition dataset_delete (key : string) (l : AttrList) : AttrList :=
  if dataset_has key l then remove (data_name key) l else l.

(** The names of a list are lowercase and pairwise distinct, as those of
    attributes set from markup or through [setAttribute] are. *)
Definition plain (l : AttrList) : Prop :=
  NoDup (map fst l) /\ Forall (fun a => lower (fst a) = fst a) l.

End Dom.

(* ================================================================== *)
(** * @butility/dom: the other functions of src/core/attribute.ts      *)
(* ================================================================== *)

Module Attributes.
Import Js.
Local Open Scope js_scope.

(** An argument that should be an element: an [HTMLElement] with its
    attributes, or anything else ([null] included). *)
Inductive Node : Type :=
| HtmlElement (tag : string) (attrs : Dom.AttrList)
| NonElement (v : JsVal).

(** ** Plain objects filled by assignment *)

(** The own properties of an object, in the order [Object.keys] lists
    them: the array indices in ascending order first, then the other
    names in the order of their creation. *)
Definition Props (V : Type) : Type := list (string * V).

(** The array index a property name denotes, if it is one: the canonical
    decimal form of an integer from 0 to 2^32 - 2. *)
Definition array_index (key : string) : option Z :=
  match NilEmpty.uint_of_string key with
  | Some d =>
      let n := Z.of_uint d in
      if (string_of_Z n =? key)%string && (n <? 4294967295) then Some n
      else None
  | None => None
  end.

Definition is_index (key : string) : bool :=
  match array_index key with Some _ => true | None => false end.

(** Both names are array indices, the first the smaller. *)
Definition index_ltb (a b : string) : bool :=
  match array_index a, array_index b with
  | Some i, Some j => i <? j
  | _, _ => false
  end.

Fixpoint has_own {V : Type} (props : Props V) (key : string) : bool :=
  match props with
  | [] => false
  | (k, _) :: rest => (k =? key)%string || has_own rest key
  end.

(** The value of an own property changes where the property is. *)
Fixpoint update {V : Type} (props : Props V) (key : string) (value : V)
  : Props V :=
  match props with
  | [] => []
  | (k, w) :: rest =>
      if (k =? key)%string then (k, value) :: rest
      else (k, w) :: update rest key value
  end.

(** A new array index goes after the smaller array indices. *)
Fixpoint insert_index {V : Type} (i : Z) (key : string) (value : V)
    (props : Props V) : Props V :=
  match props with
  | [] => [(key, value)]
  | (k, w) :: rest =>
      match array_index k with
      | Some j =>
          if j <? i then (k, w) :: insert_index i key value rest
          else (key, value) :: props
      | None => (key, value) :: props
      end
  end.

(** Setting an own data property: an existing one is updated, a new one
    takes its place in the order of the keys. *)
Definition define {V : Type} (props : Props V) (key : string) (value : V)
  : Props V :=
  if has_own props key then update props key value
  else
    match array_index key with
    | Some i => insert_index i key value props
    | None => (props ++ [(key, value)])%list
    end.

(** An object made by [{}] and filled by [obj[key] = value]: the value
    that the [__proto__] setter last took as the prototype of the object
    ([None]: the prototype is still [Object.prototype]), and the own
    properties. *)
Record Object (V : Type) : Type := mkObject {
  prototype : option V;
  own : Props V
}.
Arguments mkObject {V} _ _.
Arguments prototype {V} _.
Arguments own {V} _.

(** [obj[key] = value]. The name [__proto__] is found on
    [Object.prototype] as an accessor: its setter replaces the prototype
    of the object when the value is an object or [null] ([accepts]) and
    does nothing otherwise; no own property is made. Every other
    inherited property is a writable data property, so the assignment
    sets an own property. *)
Definition assign_to {V : Type} (accepts : V -> bool) (obj : Object V)
    (key : string) (value : V) : Object V :=
  if (key =? "__proto__")%string then
    if accepts value then mkObject (Some value) (own obj) else obj
  else mkObject (prototype obj) (define (own obj) key value).

(** A plain object with string values: its prototype stays
    [Object.prototype], so it is given by its own properties. *)
Definition Obj : Type := Props string.

(** [obj[key] = value] for a string [value]. *)
Definition assign (obj : Obj) (key value : string) : Obj :=
  own (assign_to (fun _ => false) (mkObject None obj) key value).

(** One entry of the object [compareAttributes] returns:
    [{ el1Value, el2Value }] ([None] is [null]). *)
Definition DiffEntry : Type := (option string * option string)%type.

Definition Diff : Type := Object DiffEntry.

(** [{}] *)
Definition no_diff : Diff := mkObject None [].

(** [diff[key] = { el1Value, el2Value }]. *)
Definition assign_diff (d : Diff) (key : string) (v : DiffEntry) : Diff :=
  assign_to (fun _ => true) d key v.

(** The object holds a difference for [name]: as an own property or,
    for [__proto__], as its prototype. *)
Definition records (d : Diff) (name : string) : Prop :=
  (name = "__proto__" /\ prototype d <> None) \/ In name (map fst (own d)).

Inductive Log : Type :=
| Warn (msg : string)
| LogError (msg : string)
| Setting (e : Attribute.Effect)
| CallTransform (value : option string)
| CallOnRemove (name : string)
| CallCustomCompare (v1 : string) (v2 : option string)
| CallOnTrue (name v1 : string) (v2 : option string)
| CallOnFalse (name : string) (v1 v2 : option string).

(** [new Error("Invalid HTMLElement provided.")]. *)
Definition invalid_element : Exn := Error "Invalid HTMLElement provided.".

Definition quote : string := String (ascii_of_nat 34) "".

(** ** The library's [setAttribute] on an element with attributes *)

Definition unit_of {A} (r : Result A) : Result unit :=
  match r with Ok _ => Ok tt | Throw e => Throw e end.

(** How the writes of [setAttribute] end on this platform. *)
Definition dom_of (valid : string -> bool) (l : Dom.AttrList)
  : Attribute.Dom :=
  Attribute.mkDom
    (fun key v => unit_of (Dom.dataset_set valid key (to_string v) l))
    (fun name v => unit_of (Dom.setAttribute valid name (to_string v) l)).

(** What a write does to the attributes. *)
Definition written (valid : string -> bool) (l : Dom.AttrList)
    (e : Attribute.Effect) : Dom.AttrList :=
  match e with
  | Attribute.DatasetSet key v =>
      match Dom.dataset_set valid key (to_string v) l with
      | Ok l' => l'
      | Throw _ => l
      end
  | Attribute.SetAttribute name v =>
      match Dom.setAttribute valid name (to_string v) l with
      | Ok l' => l'
      | Throw _ => l
      end
  | _ => l
  end.

(** [setAttribute(element, attribute, options)] on an element whose
    attributes are [l]: the computation, and the attributes after. *)
Definition set_on (valid : string -> bool) (tag : string)
    (l : Dom.AttrList) (attribute : JsVal)
    (o : Attribute.SetAttributesOptions)
  : M Log unit * Dom.AttrList :=
  let m := Attribute.setAttribute (dom_of valid l)
             (Attribute.HTMLElement tag) attribute o in
  ((map Setting (trace m), outcome m), fold_left (written valid) (trace m) l).

(** ** removeAttribute, hasAttribute, toggleAttribute *)

(** Each function returns the attributes the element has afterwards,
    with its own result if it has one. *)
Definition removeAttribute (element : Node) (attributeName : string)
  : M Log Dom.AttrList :=
  match element with
  | NonElement _ => throw invalid_element
  | HtmlElement _ l =>
      if Attribute.is_data_name attributeName then
        ret (Dom.dataset_delete (Attribute.slice5 attributeName) l)
      else if Dom.hasAttribute attributeName l then
        ret (Dom.removeAttribute attributeName l)
      else
        emit (Warn ("Attribute " ++ quote ++ attributeName ++ quote
                    ++ " does not exist on")) ;;
        ret l
  end.

Definition hasAttribute (element : Node) (attributeName : string)
  : M Log bool :=
  match element with
  | NonElement _ => throw invalid_element
  | HtmlElement _ l =>
      ret (if Attribute.is_data_name attributeName
           then Dom.dataset_has (Attribute.slice5 attributeName) l
           else Dom.hasAttribute attributeName l)
  end.

Definition toggleAttribute (valid : string -> bool) (element : Node)
    (attributeName : string) (attributeValue : JsVal)
  : M Log Dom.AttrList :=
  match element with
  | NonElement _ => throw invalid_element
  | HtmlElement tag l =>
      present <- hasAttribute element attributeName ;;
      if present then removeAttribute element attributeName
      else
        let (m, l') :=
          set_on valid tag l (VObject [(attributeName, attributeValue)])
            Attribute.no_options in
        m ;; ret l'
  end.

(** ** getAttribute, getAllAttributes *)

Record GetAttributeOptions : Type := mkGetOptions {
  dataPrefix : option bool;
  defaultValue : option string;
  transform : option (option string -> Result (option string))
}.

(** [x || null] on a string that may be missing. *)
Definition or_null (x : option string) : option string :=
  match x with
  | Some v => if str_truthy v then Some v else None
  | None => None
  end.

(** [null] is the one value of [getAttribute] that the [__proto__]
    setter takes. *)
Definition is_null (v : option string) : bool :=
  match v with None => true | Some _ => false end.

(** The object returned holds the value ([None] is [null]) under the
    name asked for. *)
Definition getAttribute (element : Node) (attributeName : string)
    (options : option GetAttributeOptions)
  : M Log (Object (option string)) :=
  match element with
  | NonElement _ => throw invalid_element
  | HtmlElement _ l =>
      let by_dataset :=
        match options with
        | Some o => match dataPrefix o with Some b => b | None => false end
        | None => false
        end in
      let value :=
        if by_dataset && Attribute.is_data_name attributeName
        then or_null (Dom.dataset_get (Attribute.slice5 attributeName) l)
        else Dom.getAttribute attributeName l in
      value <- match options with
               | Some o =>
                   match transform o with
                   | Some f => perform (CallTransform value) (f value)
                   | None => ret value
                   end
               | None => ret value
               end ;;
      ret (assign_to is_null (mkObject None []) attributeName
             match value with
             | Some v => Some v
             | None =>
                 match options with
                 | Some o => or_null (defaultValue o)
                 | None => None
                 end
             end)
  end.

Definition getAllAttributes (element : Node) : M Log Obj :=
  match element with
  | NonElement _ => throw invalid_element
  | HtmlElement _ l =>
      let attributes :=
        fold_left (fun acc a => assign acc (fst a) (snd a)) l [] in
      ret (fold_left
             (fun acc dataKey =>
                match Dom.dataset_get dataKey l with
                | Some dataValue => assign acc ("data-" ++ dataKey) dataValue
                | None => acc
                end)
             (Dom.dataset_keys l) attributes)
  end.

(** ** removeAllAttributes, attributesToQueryString, copyAttributes *)

Definition removeAllAttributes (element : Node) : M Log Dom.AttrList :=
  match element with
  | NonElement _ => throw invalid_element
  | HtmlElement _ l =>
      let l1 := fold_left (fun acc a => Dom.removeAttribute (fst a) acc) l l in
      ret (fold_left (fun acc dataKey => Dom.dataset_delete dataKey acc)
             (Dom.dataset_keys l1) l1)
  end.

Definition attributesToQueryString (element : Node) : M Log string :=
  match element with
  | NonElement _ => throw invalid_element
  | HtmlElement _ l =>
      ret (join "&"
             (map (fun a => encodeURIComponent (fst a) ++ "="
                             ++ encodeURIComponent (snd a)) l))
  end.

(** The [forEach] of [copyAttributes]: one [setAttribute] on the target
    for every attribute of the source. *)
Fixpoint copy_each (valid : string -> bool) (tag : string)
    (source : Dom.AttrList) (t : Dom.AttrList) : M Log Dom.AttrList :=
  match source with
  | [] => ret t
  | (name, value) :: rest =>
      let (m, t') :=
        set_on valid tag t (VObject [(name, VStr value)])
          Attribute.no_options in
      m ;; copy_each valid tag rest t'
  end.

(** The attributes of the target afterwards. *)
Definition copyAttributes (valid : string -> bool) (element target : Node)
  : M Log Dom.AttrList :=
  match element, target with
  | HtmlElement _ l, HtmlElement tag t => copy_each valid tag l t
  | _, _ => throw invalid_element
  end.

(** ** The functions without an element check: the element is given by
    its attributes *)

(** The attributes afterwards, and how the call ended: a throwing
    [element.setAttribute] stops the [forEach] where it is. *)
Fixpoint toggleAttributes (valid : string -> bool) (l : Dom.AttrList)
    (attributes : list (string * JsVal)) : Dom.AttrList * Result unit :=
  match attributes with
  | [] => (l, Ok tt)
  | (attr, flag) :: rest =>
      if truthy flag then
        match Dom.setAttribute valid attr "" l with
        | Ok l' => toggleAttributes valid l' rest
        | Throw e => (l, Throw e)
        end
      else toggleAttributes valid (Dom.removeAttribute attr l) rest
  end.

Definition hasAnyAttributes (l : Dom.AttrList) : bool :=
  (0 <? List.length l)%nat.

Definition removeAttributesByName (l : Dom.AttrList)
    (attributeNames : list string) : Dom.AttrList :=
  fold_left (fun acc attr => Dom.removeAttribute attr acc) attributeNames l.

Definition getAttributesByPrefix (l : Dom.AttrList) (prefix : string)
  : Obj :=
  fold_left
    (fun result a =>
       if String.prefix prefix (fst a) then assign result (fst a) (snd a)
       else result)
    l [].

(** ** compareAttributes *)

Record CompareAttributesOptions : Type := mkCompareOptions {
  onTrue : option (string -> string -> option string -> Result unit);
  onFalse : option (string -> option string -> option string -> Result unit);
  ignoreAttributes : option (list string);
  customCompare : option (string -> option string -> Result bool)
}.

Definition no_compare_options : CompareAttributesOptions :=
  mkCompareOptions None None None None.

Definition shouldIgnore (o : CompareAttributesOptions) (attrName : string)
  : bool :=
  match ignoreAttributes o with
  | Some l => Attribute.includes l attrName
  | None => false
  end.

(** [attr.value === el2Value]. *)
Definition same_value (v : string) (w : option string) : bool :=
  match w with Some w => (v =? w)%string | None => false end.

Definition call_onTrue (o : CompareAttributesOptions) (n v : string)
    (w : option string) : M Log unit :=
  match onTrue o with
  | Some f => perform (CallOnTrue n v w) (f n v w)
  | None => ret tt
  end.

Definition call_onFalse (o : CompareAttributesOptions) (n : string)
    (v w : option string) : M Log unit :=
  match onFalse o with
  | Some f => perform (CallOnFalse n v w) (f n v w)
  | None => ret tt
  end.

(** A loop over attributes that fills [diff]: what it logged, the
    object as it stands, and how the loop ended. *)
Definition Filling : Type := (list Log * Diff * Result unit)%type.

(** The callback of the first [forEach], on one attribute of [el1]. *)
Definition compare_one (o : CompareAttributesOptions) (l2 : Dom.AttrList)
    (a : string * string) (diff : Diff) : Filling :=
  let el2Value := Dom.getAttribute (fst a) l2 in
  if shouldIgnore o (fst a) then ([], diff, Ok tt)
  else
    let (t, isEqual) :=
      match customCompare o with
      | Some f => perform (CallCustomCompare (snd a) el2Value)
                    (f (snd a) el2Value)
      | None => ret (same_value (snd a) el2Value)
      end in
    match isEqual with
    | Throw e => (t, diff, Throw e)
    | Ok false =>
        let (t', r) := call_onFalse o (fst a) (Some (snd a)) el2Value in
        ((t ++ t')%list,
         assign_diff diff (fst a) (Some (snd a), el2Value), r)
    | Ok true =>
        let (t', r) := call_onTrue o (fst a) (snd a) el2Value in
        ((t ++ t')%list, diff, r)
    end.

(** The callback of the second [forEach], on one attribute of [el2]. *)
Definition missing_one (o : CompareAttributesOptions) (l1 : Dom.AttrList)
    (a : string * string) (diff : Diff) : Filling :=
  if negb (Dom.hasAttribute (fst a) l1) && negb (shouldIgnore o (fst a)) then
    let (t, r) := call_onFalse o (fst a) None (Some (snd a)) in
    (t, assign_diff diff (fst a) (None, Some (snd a)), r)
  else ([], diff, Ok tt).

(** [forEach]: an exception ends it. *)
Fixpoint for_each (body : string * string -> Diff -> Filling)
    (l : Dom.AttrList) (diff : Diff) : Filling :=
  match l with
  | [] => ([], diff, Ok tt)
  | a :: rest =>
      match body a diff with
      | (t, diff', Ok _) =>
          match for_each body rest diff' with
          | (t', diff'', r) => ((t ++ t')%list, diff'', r)
          end
      | (t, diff', Throw e) => (t, diff', Throw e)
      end
  end.

(** What was logged, and the object returned. *)
Definition compareAttributes (el1 el2 : Node) (o : CompareAttributesOptions)
  : list Log * Diff :=
  let caught (f : Filling) : list Log * Diff :=
    match f with
    | (t, diff, Ok _) => (t, diff)
    | (t, diff, Throw e) =>
        ((t ++ [LogError ("Error comparing attributes: "
                          ++ exn_message e)])%list, diff)
    end in
  match el1, el2 with
  | HtmlElement _ l1, HtmlElement _ l2 =>
      caught
        match for_each (compare_one o l2) l1 no_diff with
        | (t, diff, Ok _) =>
            match for_each (missing_one o l1) l2 diff with
            | (t', diff', r) => ((t ++ t')%list, diff', r)
            end
        | (t, diff, Throw e) => (t, diff, Throw e)
        end
  | _, _ =>
      caught ([], no_diff,
              Throw (TypeError "Both el1 and el2 must be valid HTMLElements."))
  end.

(** ** removeAttributesByPrefix *)

Record RemoveAttributesByPrefixOptions : Type := mkRemoveOptions {
  onRemove : option (string -> Result unit);
  protectedAttr : option (list string)
}.

(** [isRemovable(attrName) === true]: without [protectedAttr] the
    function returns [undefined]. *)
Definition isRemovable (o : RemoveAttributesByPrefixOptions)
    (attrName : string) : bool :=
  match protectedAttr o with
  | Some p => negb (Attribute.includes p attrName)
  | None => false
  end.

(** The [forEach] over the attributes the element had when the loop
    began; [l] is what it has now. *)
Fixpoint remove_each (o : RemoveAttributesByPrefixOptions)
    (prefixList : list string) (snapshot : Dom.AttrList) (l : Dom.AttrList)
  : list Log * Dom.AttrList * Result unit :=
  match snapshot with
  | [] => ([], l, Ok tt)
  | (attrName, _) :: rest =>
      if existsb (fun prefix => String.prefix prefix attrName) prefixList
      then
        let (t, r) :=
          match onRemove o with
          | Some f => perform (CallOnRemove attrName) (f attrName)
          | None => ret tt
          end in
        match r with
        | Throw e => (t, l, Throw e)
        | Ok _ =>
            let l' := if isRemovable o attrName
                      then Dom.removeAttribute attrName l else l in
            match remove_each o prefixList rest l' with
            | (t', l'', r') => ((t ++ t')%list, l'', r')
            end
        end
      else remove_each o prefixList rest l
  end.

(** [prefixes] is the list of prefixes (a single string is a list of
    one); [blank] tells the strings that [trim()] leaves empty. What
    was logged, and the attributes afterwards (none for an argument
    that is no element). *)
Definition removeAttributesByPrefix (blank : string -> bool)
    (element : Node) (prefixes : list string)
    (o : RemoveAttributesByPrefixOptions) : list Log * Dom.AttrList :=
  let report (e : Exn) : Log :=
    LogError ("Error while removing attributes by prefix: "
              ++ exn_message e) in
  match element with
  | NonElement _ =>
      ([report (TypeError "Provided element is not a valid HTMLElement.")],
       [])
  | HtmlElement _ l =>
      if (List.length prefixes =? 0)%nat || existsb blank prefixes then
        ([report
            (Error
               "Invalid prefixes provided. Prefixes must be non-empty strings.")],
         l)
      else
        match remove_each o prefixes l l with
        | (t, l', Ok _) => (t, l')
        | (t, l', Throw e) => ((t ++ [report e])%list, l')
        end
  end.



End Attributes.

(* ================================================================== *)
(** * Properties of the wallpaper page script                          *)
(* ================================================================== *)

Section WallpaperFacts.
Import Wallpaper.

Lemma splice_from_length {A} (start : Z) (l : list A) :
  0 <= start <= Z.of_nat (List.length l) ->
  Z.of_nat (List.length (Js.splice_from start l)) = start.
Proof.
  intros [H0 H1]. unfold Js.splice_from.
  destruct (start <? 0) eqn:E; [apply Z.ltb_lt in E; lia|].
  rewrite Z.min_l by lia. rewrite firstn_length_le by lia. lia.
Qed.

Lemma step_index_in_range (s : State) (e : Event) :
  index_in_range s -> index_in_range (step s e).
Proof.
  unfold index_in_range. intros H. destruct e; simpl; auto.
  - unfold goBack. destruct (0 <? currentIndex s) eqn:E; simpl; auto.
    apply Z.ltb_lt in E. lia.
  - unfold goForward.
    destruct (currentIndex s <? _) eqn:E; simpl; auto.
    apply Z.ltb_lt in E. lia.
  - rewrite length_app, Nat2Z.inj_add, splice_from_length by lia.
    simpl. lia.
Qed.

Lemma run_index_in_range (evs : list Event) (s : State) :
  index_in_range s -> index_in_range (run evs s).
Proof.
  revert s. induction evs as [|e evs IH]; intros s H; simpl; auto.
  apply IH, step_index_in_range, H.
Qed.

(** C9: from the initial state (empty history, index -1), after any
    sequence of back clicks, forward clicks and fetch completions the
    index satisfies -1 <= currentIndex <= wallpaperHistory.length - 1;
    goBack changes nothing when currentIndex <= 0; and a fetch success
    truncates the history after the previous index, pushes the new entry
    and leaves currentIndex = wallpaperHistory.length - 1. *)
Theorem wallpaper_index_invariant (evs : list Event) :
  let s := run evs initial in
  index_in_range s
  /\ (currentIndex s <= 0 -> goBack s = s)
  /\ (forall u,
        let s' := step s (FetchSuccess u) in
        wallpaperHistory s'
          = (firstn (Z.to_nat (currentIndex s + 1)) (wallpaperHistory s)
             ++ [u])%list
        /\ currentIndex s' = Z.of_nat (List.length (wallpaperHistory s')) - 1).
Proof.
  intros s.
  assert (Hs : index_in_range s).
  { apply run_index_in_range. unfold index_in_range, initial. simpl. lia. }
  split; [exact Hs|]. split.
  - intros H. unfold goBack.
    destruct (0 <? currentIndex s) eqn:E; auto. apply Z.ltb_lt in E. lia.
  - intros u s'. unfold index_in_range in Hs. split.
    + subst s'. simpl. f_equal. unfold Js.splice_from.
      destruct (currentIndex s + 1 <? 0) eqn:E; [apply Z.ltb_lt in E; lia|].
      rewrite Z.min_l by lia. reflexivity.
    + subst s'. simpl.
      rewrite length_app, Nat2Z.inj_add, splice_from_length by lia.
      simpl. lia.
Qed.

Lemma wallpaper_index_invariant_witness :
  goBack (run [ClickForward; FetchSuccess "blob:1"; ClickBack] initial)
  = run [ClickForward; FetchSuccess "blob:1"; ClickBack] initial.
Proof.
  apply (proj1 (proj2 (wallpaper_index_invariant
                         [ClickForward; FetchSuccess "blob:1"; ClickBack]))).
  vm_compute. discriminate.
Defined.

(** The first wallpaper, a second one, back, and a third one that
    replaces the second. *)
Example history_is_truncated :
  run [FetchSuccess "blob:1"; ClickForward; FetchSuccess "blob:2";
       ClickBack; ClickForward; ClickForward; ClickBack;
       FetchSuccess "blob:3"] initial
  = mkState ["blob:1"; "blob:3"] 1 (Some "blob:3") 2.
Proof. reflexivity. Qed.

End WallpaperFacts.

(* ================================================================== *)
(** * Properties of setAttribute                                       *)
(* ================================================================== *)

Section AttributeFacts.
Import Js Attribute.

Lemma call_onError_delivers (o : SetAttributesOptions) (e : Exn) :
  onError_total o -> call_onError o e = ([delivered o e], Ok tt).
Proof.
  intros H. unfold call_onError, delivered.
  destruct (onError o) as [f|] eqn:E; [|reflexivity].
  unfold perform. now rewrite (H f E e).
Qed.

Lemma round_caught (dom : Dom) (o : SetAttributesOptions)
    (name : string) (value : JsVal) (setted : Attrs) (error : Exn) :
  onError_total o ->
  outcome (attempt dom o name value setted) = Throw error ->
  round dom o name value setted
  = ((trace (attempt dom o name value setted) ++ [delivered o error])%list,
     Ok (Continue setted)).
Proof.
  intros Ho H. unfold round, try_catch.
  destruct (attempt dom o name value setted) as [t r]. simpl in *. subst r.
  unfold bind. now rewrite call_onError_delivers.
Qed.

Lemma round_returns (dom : Dom) (o : SetAttributesOptions)
    (name : string) (value : JsVal) (setted : Attrs) :
  onError_total o ->
  exists r, outcome (round dom o name value setted) = Ok r.
Proof.
  intros Ho.
  destruct (outcome (attempt dom o name value setted)) as [r|e] eqn:E.
  - exists r. unfold round, try_catch.
    destruct (attempt dom o name value setted) as [t r']. simpl in *.
    now subst.
  - rewrite (round_caught _ _ _ _ _ e Ho E). now eexists.
Qed.

Lemma rounds_return (dom : Dom) (o : SetAttributesOptions)
    (entries : list (string * JsVal)) (setted : Attrs) :
  onError_total o ->
  exists r, outcome (rounds dom o entries setted) = Ok r.
Proof.
  intros Ho. revert setted.
  induction entries as [|[name value] rest IH]; intros setted; simpl.
  - now eexists.
  - destruct (round_returns dom o name value setted Ho) as [r Hr].
    unfold bind. destruct (round dom o name value setted) as [t r'].
    simpl in Hr. subst r'. destruct r as [|setted'].
    + now eexists.
    + destruct (IH setted') as [r Hr].
      destruct (rounds dom o rest setted') as [t' r']. simpl in *.
      subst. now eexists.
Qed.




(** A name outside the whitelist ends the whole call: the attributes
    after it are not set and onAttributeSet is not called. *)
Example skipped_attribute_returns :
  setAttribute (mkDom (fun _ _ => Ok tt) (fun _ _ => Ok tt))
    (HTMLElement "img")
    (VObject [("src", VStr "a.png"); ("id", VStr "x"); ("alt", VStr "y")])
    (mkOptions (Some ["src"; "alt"]) None None None None
       (Some (fun _ => Ok tt)) None (Some true))
  = ([SetAttribute "src" (VStr "a.png");
      ConsoleLog "Set attribute: src = a.png";
      ConsoleLog "Skipping attribute: id"], Ok tt).
Proof. reflexivity. Qed.

Example data_attribute_and_dom_error :
  setAttribute
    (mkDom (fun _ _ => Ok tt)
       (fun _ _ => Throw (mkExn "InvalidCharacterError" "bad name")))
    (HTMLElement "img")
    (VObject [("data-kind", VNumber (Num 3)); ("a b", VStr "x")])
    no_options
  = ([DatasetSet "kind" (VNumber (Num 3)); SetAttribute "a b" (VStr "x");
      ConsoleError (mkExn "InvalidCharacterError" "bad name")], Ok tt).
Proof. reflexivity. Qed.

End AttributeFacts.

(* ================================================================== *)
(** * Properties of the request core                                   *)
(* ================================================================== *)

Section AjaxFacts.
Import Js Ajax.

(** ** What [ajax] returns *)

Lemma ajax_is_promise (B : Browser) (o : AjaxOptions) :
  is_promise (outcome (ajax B o)) = use_fetch o.
Proof.
  unfold ajax. destruct (use_fetch o).
  - now destruct (ajaxFetch B o).
  - unfold bind. now destruct (ajaxXHR B o) as [t [[]|e]].
Qed.

Lemma use_fetch_spread (base o : AjaxOptions) :
  useFetch base = None -> use_fetch (spread base o) = use_fetch o.
Proof.
  intros H. unfold use_fetch, spread. simpl. rewrite H.
  now destruct (useFetch o).
Qed.

Lemma bind_pure {E A B} (a : A) (f : A -> M E B) :
  bind ([], Ok a) f = f a.
Proof. unfold bind. now destruct (f a). Qed.

(** C1, as the code has it: ajax and every verb wrapper return a promise
    exactly when useFetch is set (and true); through XMLHttpRequest, the
    transport chosen when useFetch is false or absent, the caller gets no
    promise: the call returns undefined. *)
Theorem ajax_promise_iff_useFetch (B : Browser) (o : AjaxOptions)
    (u : string) (props : list (string * JsVal)) (d : JsVal) :
  is_promise (outcome (ajax B o)) = use_fetch o
  /\ is_promise (outcome (get B u (VObject props) o)) = use_fetch o
  /\ is_promise (outcome (deleteRequest B u (VObject props) o)) = use_fetch o
  /\ is_promise (outcome (post B u d o)) = use_fetch o
  /\ is_promise (outcome (put B u d o)) = use_fetch o
  /\ is_promise (outcome (patch B u d o)) = use_fetch o.
Proof.
  repeat split; try apply ajax_is_promise;
    unfold get, deleteRequest, post, put, patch; simpl object_entries;
    rewrite ?bind_pure, ajax_is_promise; now apply use_fetch_spread.
Qed.

(** C1 fails as stated: with useFetch absent, [ajax] and [get] return
    undefined, not a promise. *)
Lemma ajax_xhr_returns_undefined :
  outcome (ajax (Scenario.answering 200 "OK" "hello")
             (base_options "GET" "/x")) = Ok Undefined
  /\ outcome (get (Scenario.answering 200 "OK" "hello") "/x" (VObject [])
                empty_options) = Ok Undefined.
Proof. split; reflexivity. Qed.

(** ** Counting attempts *)

Lemma attempts_app (t1 t2 : list Effect) :
  attempts (t1 ++ t2) = (attempts t1 + attempts t2)%nat.
Proof. unfold attempts. now rewrite filter_app, length_app. Qed.

Lemma attempts_handleError (o : AjaxOptions) (a : ErrorArg) :
  attempts (task (handleError o a)) = 0%nat.
Proof.
  unfold handleError, task, perform, emit.
  destruct (error o) as [f|]; [destruct (f a)|]; reflexivity.
Qed.

Lemma attempts_onload (B : Browser) (o : AjaxOptions) st txt b :
  attempts (task (onload B o st txt b)) = 0%nat.
Proof.
  unfold onload. destruct ((200 <=? st) && (st <? 300)).
  - destruct (success o) as [f|]; [|reflexivity].
    destruct (opt_string_eqb (responseType o) "json").
    + rewrite bind_pure. unfold task, perform. now destruct (f _).
    + destruct (xhr_responseText (xhr_responseType o) b) as [v|e].
      * rewrite bind_pure. unfold task, perform. now destruct (f _).
      * reflexivity.
  - apply attempts_handleError.
Qed.

Lemma attempts_progress (o : AjaxOptions) (l : list (Z * Z)) :
  attempts (flat_map (fun lt => task (onprogress o (fst lt) (snd lt))) l)
  = 0%nat.
Proof.
  induction l as [|[a b] l IH]; [reflexivity|].
  simpl flat_map. rewrite attempts_app, IH. unfold onprogress. simpl.
  destruct (onProgress o) as [f|]; [|reflexivity].
  unfold task, perform. now destruct (f a b).
Qed.

Lemma attempts_events (B : Browser) (o : AjaxOptions) (x : XhrExchange) :
  attempts (events B o x) = 0%nat.
Proof.
  unfold events. rewrite attempts_app, attempts_progress.
  destruct (ending x); [apply attempts_onload| |];
    apply attempts_handleError.
Qed.

(** The effects of [ajaxXHR] before it serialises the body. *)
Lemma ajaxXHR_trace (B : Browser) (o : AjaxOptions) :
  ajaxXHR B o
  = ((configure o
      ++ match formatDataForXHR B (data_of o) (headers o) with
         | Ok v => [XhrSend v]
         | Throw _ => []
         end)%list,
     match formatDataForXHR B (data_of o) (headers o) with
     | Ok _ => Ok tt
     | Throw e => Throw e
     end).
Proof.
  unfold ajaxXHR, configure.
  destruct (formatDataForXHR B (data_of o) (headers o)) as [v|e];
    destruct (headers o) as [hs|], (responseType o) as [t|],
      (timeout o) as [n|]; simpl;
    try destruct (str_truthy t); try destruct (num_truthy n); simpl;
    rewrite ?app_nil_r, <- ?app_assoc; reflexivity.
Qed.

Lemma attempts_configure (o : AjaxOptions) : attempts (configure o) = 0%nat.
Proof.
  unfold configure. cbn [app]. unfold attempts. cbn [filter is_attempt].
  rewrite !filter_app, !length_app.
  assert (H : forall hs : Headers,
             filter is_attempt
               (map (fun kv => XhrSetRequestHeader (fst kv) (snd kv)) hs) = []).
  { induction hs as [|h hs IH]; simpl; auto. }
  destruct (headers o) as [hs|]; [rewrite H|];
    destruct (responseType o) as [t|]; try destruct (str_truthy t);
    destruct (timeout o) as [n|]; try destruct (num_truthy n); reflexivity.
Qed.

(** [ajaxXHR] sends once, unless serialising the body throws. *)
Lemma ajaxXHR_sends (B : Browser) (o : AjaxOptions) :
  throws (formatDataForXHR B (data_of o) (headers o)) = false ->
  exists t, ajaxXHR B o = (t, Ok tt) /\ attempts t = 1%nat.
Proof.
  intros H. rewrite ajaxXHR_trace.
  destruct (formatDataForXHR B (data_of o) (headers o)) as [v|e];
    [clear H|discriminate].
  eexists. split; [reflexivity|].
  now rewrite attempts_app, attempts_configure.
Qed.

(** ** The retry budget *)

Lemma retried_format (B : Browser) (o : AjaxOptions) :
  formatDataForXHR B (data_of (retried o)) (headers (retried o))
  = formatDataForXHR B (data_of o) (headers o).
Proof. reflexivity. Qed.

Lemma settle_step (B : Browser) (fuel n : nat) (o : AjaxOptions) :
  always_failing B ->
  throws (formatDataForXHR B (data_of o) (headers o)) = false ->
  attempts (settle B (S fuel) n o)
  = if num_leb (Num default_attempt) (num_or (retries o) 1)
    then S (attempts (settle B fuel (S n) (retried o)))
    else 0%nat.
Proof.
  intros HB Hf. cbn [settle]. rewrite attempts_app, attempts_events.
  unfold retry_due. specialize (HB n). apply Z.leb_le in HB. rewrite HB.
  cbn [andb]. destruct (num_leb _ _); [|reflexivity].
  destruct (ajaxXHR_sends B (retried o)) as (t & Ht & Hn).
  { now rewrite retried_format. }
  rewrite Ht. change (attempts (?a :: ?b :: ?l)) with (attempts l).
  rewrite attempts_app, Hn. reflexivity.
Qed.

Lemma budget_test (z : Z) :
  num_leb (Num default_attempt) (num_or (Some (Num z)) 1)
  = (z =? 0) || (1 <=? z).
Proof.
  unfold num_or, num_truthy, num_leb, default_attempt.
  now destruct (z =? 0).
Qed.

Lemma retries_retried (o : AjaxOptions) (z : Z) :
  retries o = Some (Num z) -> retries (retried o) = Some (Num (z - 1)).
Proof. intros H. cbn. unfold retries_minus_1. now rewrite H. Qed.

(** With a budget of [k] the call retries [k + 1] times. *)
Lemma settle_budget (B : Browser) (k : nat) :
  always_failing B ->
  forall (fuel n : nat) (o : AjaxOptions),
    throws (formatDataForXHR B (data_of o) (headers o)) = false ->
    retries o = Some (Num (Z.of_nat k)) ->
    (k + 2 <= fuel)%nat ->
    attempts (settle B fuel n o) = S k.
Proof.
  intros HB. induction k as [|k IH]; intros fuel n o Hf Hr Hfuel.
  - destruct fuel as [|[|fuel]]; try lia.
    rewrite settle_step, Hr, budget_test by assumption.
    change ((Z.of_nat 0 =? 0) || (1 <=? Z.of_nat 0)) with true. cbv iota.
    rewrite settle_step, (retries_retried o _ Hr), budget_test by assumption.
    reflexivity.
  - destruct fuel as [|fuel]; try lia.
    rewrite settle_step, Hr, budget_test by assumption.
    replace (1 <=? Z.of_nat (S k)) with true by (symmetry; apply Z.leb_le; lia).
    rewrite orb_true_r. f_equal. apply IH; [assumption| |lia].
    rewrite (retries_retried o _ Hr). do 2 f_equal. lia.
Qed.

(** Without a usable budget (absent, or NaN) the call never stops
    retrying. *)
Lemma settle_unbounded (B : Browser) :
  always_failing B ->
  forall (fuel n : nat) (o : AjaxOptions),
    throws (formatDataForXHR B (data_of o) (headers o)) = false ->
    retries o = None \/ retries o = Some NaN ->
    attempts (settle B fuel n o) = fuel.
Proof.
  intros HB. induction fuel as [|fuel IH]; intros n o Hf Hr; [reflexivity|].
  rewrite settle_step by assumption.
  replace (num_leb _ _) with true by (destruct Hr as [-> | ->]; reflexivity).
  f_equal. apply IH; [assumption|]. right.
  cbn. unfold retries_minus_1. now destruct Hr as [-> | ->].
Qed.

(** C2 on the code: against a server that answers every attempt with a
    status of 400 or more, a call with retries = N (N >= 0) makes N + 2
    attempts, one more than the N + 1 the budget allows: the handler of
    retryRequest tests options.retries || 1, so a budget that has run down
    to 0 still buys a retry. *)
Theorem retry_attempts_exceed_budget (B : Browser) (o : AjaxOptions)
    (N : Z) (fuel : nat) :
  always_failing B ->
  throws (formatDataForXHR B (data_of o) (headers o)) = false ->
  retries o = Some (Num N) ->
  0 <= N ->
  (Z.to_nat N + 2 <= fuel)%nat ->
  Z.of_nat (attempts (xhr_call B fuel o)) = N + 2.
Proof.
  intros HB Hf Hr HN Hfuel. unfold xhr_call.
  destruct (ajaxXHR_sends B o Hf) as (t & -> & Ht).
  rewrite attempts_app, Ht.
  rewrite (settle_budget B (Z.to_nat N) HB fuel 0 o Hf); [lia| |assumption].
  now rewrite Z2Nat.id.
Qed.

Lemma retry_attempts_exceed_budget_witness :
  Z.of_nat
    (attempts (xhr_call (Scenario.answering 500 "Internal Server Error" "")
                 5 (Scenario.with_retries 0)))
  = 0 + 2.
Proof.
  apply retry_attempts_exceed_budget.
  - intros n. simpl. lia.
  - reflexivity.
  - reflexivity.
  - lia.
  - simpl. lia.
Defined.

(** C7 on the code: with only method and url given, ajax selects
    XMLHttpRequest and sets neither a response type nor a timeout on it
    (so the response is read as text and never times out); but the
    retry count does not default to 0: against a server that answers
    every attempt with a status of 400 or more the call is retried
    without end, however many exchanges are followed. *)
Theorem default_retries_unbounded (B : Browser) (m u : string)
    (fuel : nat) :
  always_failing B ->
  ajax B (base_options m u)
  = ([XhrNew; XhrOpen (Some m) (Some u); XhrSend VUndefined], Ok Undefined)
  /\ (forall f st txt b,
        (200 <=? st) && (st <? 300) = true ->
        events B (spread (base_options m u) (Scenario.on_success f))
          (mkExchange [] (Loaded st txt b))
        = task (perform (CallSuccess (VStr b)) (f (VStr b))))
  /\ attempts (xhr_call B fuel (base_options m u)) = S fuel.
Proof.
  intros HB. split; [reflexivity|]. split.
  - intros f st txt b H. unfold events, onload.
    cbn [notifications ending flat_map app]. rewrite H. reflexivity.
  - unfold xhr_call.
    destruct (ajaxXHR_sends B (base_options m u) eq_refl) as (t & -> & Ht).
    rewrite attempts_app, Ht.
    rewrite (settle_unbounded B HB fuel 0); auto.
Qed.

Lemma default_retries_unbounded_witness :
  attempts (xhr_call (Scenario.answering 500 "Internal Server Error" "")
              7 (base_options "GET" "/x")) = 8%nat.
Proof.
  apply (default_retries_unbounded
           (Scenario.answering 500 "Internal Server Error" "") "GET" "/x" 7).
  intros n. simpl. lia.
Defined.

(** The scenario of the retry policy: two failures, then a success, with
    retries = 2 and retryDelay = 10. *)
Example two_failures_then_success :
  xhr_call (Scenario.flaky 2 "hello") 9 Scenario.patient
  = [XhrNew; XhrOpen (Some "GET") (Some "/x"); XhrSend VUndefined;
     ConsoleError
       (Message "Request failed with status 500: Internal Server Error");
     SetTimeout (Num 10); ConsoleWarn "Retrying request... (1/2)";
     XhrNew; XhrOpen (Some "GET") (Some "/x"); XhrSend VUndefined;
     ConsoleError
       (Message "Request failed with status 500: Internal Server Error");
     SetTimeout (Num 10); ConsoleWarn "Retrying request... (1/1)";
     XhrNew; XhrOpen (Some "GET") (Some "/x"); XhrSend VUndefined;
     CallSuccess (VStr "hello")].
Proof. reflexivity. Qed.

(** A network error or a timeout leaves [xhr.status] at 0: no retry. *)
Example network_error_is_not_retried :
  xhr_call Scenario.unreachable 9 Scenario.patient
  = [XhrNew; XhrOpen (Some "GET") (Some "/x"); XhrSend VUndefined;
     ConsoleError (Message "Request failed due to network error.")].
Proof. reflexivity. Qed.

(** ** Query data *)

Lemma all_chars_app (p : ascii -> bool) (a b : string) :
  all_chars p (a ++ b) = all_chars p a && all_chars p b.
Proof.
  induction a as [|c a IH]; simpl; [reflexivity|].
  now rewrite IH, andb_assoc.
Qed.

Lemma hex_digit_unreserved (n : nat) : uri_unreserved (hex_digit n) = true.
Proof. do 15 (destruct n as [|n]; [reflexivity|]). reflexivity. Qed.

Lemma encodeURIComponent_chars (s : string) :
  all_chars query_char (encodeURIComponent s) = true.
Proof.
  induction s as [|c s IH]; simpl; [reflexivity|].
  rewrite all_chars_app, IH, andb_true_r.
  destruct (uri_unreserved c) eqn:E.
  - simpl. unfold query_char. now rewrite E.
  - unfold percent_byte. cbn [all_chars append].
    assert (H : forall n, query_char (hex_digit n) = true).
    { intros n. unfold query_char. now rewrite hex_digit_unreserved. }
    now rewrite !H.
Qed.

Lemma pair_chars (k v : string) :
  all_chars query_char (encodeURIComponent k ++ "=" ++ encodeURIComponent v)
  = true.
Proof.
  rewrite all_chars_app, encodeURIComponent_chars.
  change ("=" ++ encodeURIComponent v)
    with (String "="%char (encodeURIComponent v)).
  cbn [all_chars]. now rewrite encodeURIComponent_chars.
Qed.

Lemma queryString_chars (props : list (string * JsVal)) :
  all_chars query_char (queryString props) = true.
Proof.
  unfold queryString.
  induction props as [|[k v] [|kv props] IH]; [reflexivity| |].
  - cbn [map join fst snd]. apply pair_chars.
  - change (map ?f ((k, v) :: ?l)) with (f (k, v) :: map f l).
    cbn [join]. cbn [map] in IH |- *. cbn [fst snd].
    rewrite all_chars_app, pair_chars.
    change ("&" ++ ?x) with (String "&"%char x).
    cbn [all_chars]. exact IH.
Qed.


Lemma configure_requests (o : AjaxOptions) :
  flat_map requested (configure o) = [url o]
  /\ flat_map sent (configure o) = [].
Proof.
  unfold configure. cbn [flat_map requested sent app].
  rewrite !flat_map_app.
  assert (H : forall hs : Headers,
             flat_map requested
               (map (fun kv => XhrSetRequestHeader (fst kv) (snd kv)) hs) = []
             /\ flat_map sent
                  (map (fun kv => XhrSetRequestHeader (fst kv) (snd kv)) hs)
                = []).
  { induction hs as [|h hs [IH1 IH2]]; simpl; auto. }
  destruct (headers o) as [hs|]; [destruct (H hs) as [-> ->]|];
    destruct (responseType o) as [t|]; try destruct (str_truthy t);
    destruct (timeout o) as [n|]; try destruct (num_truthy n);
    split; reflexivity.
Qed.





(** ** Errors *)

Lemma handleError_reports (o : AjaxOptions) (a : ErrorArg) :
  error_total o -> handleError o a = ([report o a], Ok tt).
Proof.
  intros H. unfold handleError, report.
  destruct (error o) as [f|] eqn:E; [|reflexivity].
  unfold perform. now rewrite (H f E a).
Qed.

(** What the [try] block of [ajaxFetch] throws reaches [handleError],
    and the promise is fulfilled. *)
Lemma ajaxFetch_caught (B : Browser) (o : AjaxOptions)
    (config : RequestInit) (e : Exn) :
  error_total o ->
  config_of B o = Ok config ->
  exchange B o config = ([Fetch (url o) config], Throw e) ->
  ajaxFetch B o = ([Fetch (url o) config; report o (Exception e)], Ok tt).
Proof.
  intros Ho Hc Hx. unfold ajaxFetch. rewrite Hc, bind_pure, Hx.
  unfold try_catch. now rewrite handleError_reports.
Qed.


Lemma exchange_rejected (B : Browser) (o : AjaxOptions)
    (config : RequestInit) (e : Exn) :
  fetch B (url o) config = Throw e ->
  exchange B o config = ([Fetch (url o) config], Throw e).
Proof. intros H. unfold exchange, perform. now rewrite H. Qed.

Lemma exchange_undecoded (B : Browser) (o : AjaxOptions)
    (config : RequestInit) (r : Response) (e : Exn) :
  fetch B (url o) config = Ok r ->
  handleFetchResponse B r (responseType o) = Throw e ->
  exchange B o config = ([Fetch (url o) config], Throw e).
Proof.
  intros H1 H2. unfold exchange, perform. rewrite H1. cbn [bind].
  now rewrite H2.
Qed.




(** ** Cancellation *)

Lemma settle_with_signal (B : Browser) (s : option AbortSignal)
    (fuel : nat) :
  forall (n : nat) (o : AjaxOptions),
    settle B fuel n (with_signal o s) = settle B fuel n o.
Proof.
  induction fuel as [|fuel IH]; intros n o; [reflexivity|].
  cbn [settle].
  change (retried (with_signal o s)) with (with_signal (retried o) s).
  change (ajaxXHR B (with_signal (retried o) s))
    with (ajaxXHR B (retried o)).
  rewrite IH. reflexivity.
Qed.

(** C5, as the code has it. Only the fetch transport knows the token:
    ajaxFetch hands options.abortSignal to fetch as the signal of its one
    request, never makes a second attempt, and passes whatever fetch
    rejects with (the AbortError of an aborted request) unchanged to
    handleError while the promise is fulfilled. ajaxXHR never reads the
    token: the attempts and retries of a call through XMLHttpRequest are
    the same whatever the token is. *)
Theorem abort_signal_only_reaches_fetch (B : Browser) (o : AjaxOptions)
    (config : RequestInit) :
  error_total o ->
  config_of B o = Ok config ->
  init_signal config = abortSignal o
  /\ flat_map requested (trace (ajaxFetch B o)) = [url o]
  /\ attempts (trace (ajaxFetch B o)) = 1%nat
  /\ (forall e, fetch B (url o) config = Throw e ->
        ajaxFetch B o
        = ([Fetch (url o) config; report o (Exception e)], Ok tt))
  /\ (forall s fuel, xhr_call B fuel (with_signal o s) = xhr_call B fuel o).
Proof.
  intros Ho Hc.
  assert (Ht : exists rest,
             trace (ajaxFetch B o) = Fetch (url o) config :: rest
             /\ flat_map requested rest = [] /\ attempts rest = 0%nat).
  { unfold ajaxFetch. rewrite Hc, bind_pure.
    assert (Hrep : forall a, exists t,
               handleError o a = (t, Ok tt)
               /\ flat_map requested t = [] /\ attempts t = 0%nat).
    { intros a. rewrite handleError_reports by assumption.
      eexists. split; [reflexivity|]. unfold report.
      destruct (error o); now split. }
    unfold exchange, call_success, perform, ret, bind, try_catch.
    destruct (fetch B (url o) config) as [r|e].
    - destruct (handleFetchResponse B r (responseType o)) as [v|e].
      + destruct (success o) as [f|]; [destruct (f v) as [[]|e]|].
        * eexists. split; [reflexivity|now split].
        * destruct (Hrep (Exception e)) as (t & Ht & H1 & H2).
          rewrite Ht. eexists. split; [reflexivity|].
          cbn [app]. split; [exact H1|].
          change (CallSuccess v :: t) with ([CallSuccess v] ++ t)%list.
          now rewrite attempts_app, H2.
        * eexists. split; [reflexivity|now split].
      + destruct (Hrep (Exception e)) as (t & Ht & H1 & H2).
        rewrite Ht. eexists. split; [reflexivity|]. now split.
    - destruct (Hrep (Exception e)) as (t & Ht & H1 & H2).
      rewrite Ht. eexists. split; [reflexivity|]. now split. }
  destruct Ht as (rest & Ht & Hr & Ha).
  repeat split.
  - unfold config_of in Hc. destruct (if negb _ then _ else _);
      [now injection Hc as <-|discriminate].
  - rewrite Ht. cbn. now rewrite Hr.
  - rewrite Ht. change (Fetch (url o) config :: rest)
      with ([Fetch (url o) config] ++ rest)%list.
    now rewrite attempts_app, Ha.
  - intros e H.
    exact (ajaxFetch_caught B o config e Ho Hc
             (exchange_rejected B o config e H)).
  - intros s fuel. unfold xhr_call.
    change (ajaxXHR B (with_signal o s)) with (ajaxXHR B o).
    now rewrite settle_with_signal.
Qed.

Lemma abort_signal_only_reaches_fetch_witness :
  ajaxFetch (Scenario.answering 200 "OK" "hello") (Scenario.cancelled true)
  = ([Fetch (Some "/x")
        (mkInit (Some "GET") None VUndefined (Some (mkSignal true)));
      CallError (Exception Scenario.abort_error)], Ok tt).
Proof.
  apply (proj1 (proj2 (proj2 (proj2
           (abort_signal_only_reaches_fetch
              (Scenario.answering 200 "OK" "hello")
              (Scenario.cancelled true)
              (mkInit (Some "GET") None VUndefined (Some (mkSignal true)))
              ltac:(intros f H a; injection H as <-; reflexivity)
              eq_refl))))).
  reflexivity.
Defined.

(** C5 fails as stated: through XMLHttpRequest a call whose token was
    signalled before the call still starts, and still retries. *)
Lemma xhr_ignores_signalled_token :
  aborted (mkSignal true) = true
  /\ abortSignal (Scenario.cancelled false) = Some (mkSignal true)
  /\ trace (ajax (Scenario.answering 500 "Internal Server Error" "")
              (Scenario.cancelled false))
     = [XhrNew; XhrOpen (Some "GET") (Some "/x"); XhrSend VUndefined]
  /\ attempts (xhr_call (Scenario.answering 500 "Internal Server Error" "")
                 9 (Scenario.cancelled false)) = 3%nat.
Proof. repeat split. Qed.

(** ** The response decoder *)

(** C6: the decoder against the declared response types. For a
    response that is ok and whose body reads as [b], handleFetchResponse
    gives the parsed value for "json" (and rejects with the parser's
    exception when [b] does not parse), a Blob for "blob", an
    ArrayBuffer for "arraybuffer", and the text for every other declared
    type, "text", "document", the empty string and none at all included:
    a response declared "document" is never parsed into a document. A
    rejection of the decoder is caught by ajaxFetch and handed to
    handleError as it is; the promise is fulfilled. Through
    XMLHttpRequest the success callback gets xhr.response for "json",
    null when the body does not parse, and the response text when the
    type is "text" or absent; for "blob", "arraybuffer" and "document"
    the load handler reads xhr.responseText, which throws
    InvalidStateError, so success is not called and nothing is
    reported. *)
Theorem decoder_by_response_type (B : Browser) (r : Response) (b : string) :
  ok r = true ->
  body r = Ok b ->
  handleFetchResponse B r (Some "json") = JSON_parse B b
  /\ handleFetchResponse B r (Some "blob") = Ok (VBlob b)
  /\ handleFetchResponse B r (Some "arraybuffer") = Ok (VArrayBuffer b)
  /\ handleFetchResponse B r (Some "text") = Ok (VStr b)
  /\ handleFetchResponse B r None = Ok (VStr b)
  /\ handleFetchResponse B r (Some "document") = Ok (VStr b)
  /\ (forall o config e,
        error_total o ->
        responseType o = Some "json" ->
        config_of B o = Ok config ->
        fetch B (url o) config = Ok r ->
        JSON_parse B b = Throw e ->
        ajaxFetch B o
        = ([Fetch (url o) config; report o (Exception e)], Ok tt))
  /\ (forall o f st txt,
        success o = Some f ->
        (200 <=? st) && (st <? 300) = true ->
        (responseType o = Some "json" ->
         events B o (mkExchange [] (Loaded st txt b))
         = task (perform
                   (CallSuccess (match JSON_parse B b with
                                 | Ok v => v
                                 | Throw _ => VNull
                                 end))
                   (f (match JSON_parse B b with
                       | Ok v => v
                       | Throw _ => VNull
                       end))))
        /\ (responseType o = Some "text" \/ responseType o = None ->
            events B o (mkExchange [] (Loaded st txt b))
            = task (perform (CallSuccess (VStr b)) (f (VStr b)))))
  /\ (forall rt,
        rt <> Some "json" -> rt <> Some "blob" -> rt <> Some "arraybuffer" ->
        handleFetchResponse B r rt = Ok (VStr b))
  /\ (forall o f st txt rt,
        success o = Some f ->
        (200 <=? st) && (st <? 300) = true ->
        responseType o = Some rt ->
        rt = "blob" \/ rt = "arraybuffer" \/ rt = "document" ->
        exists e,
          exn_name e = "InvalidStateError"
          /\ events B o (mkExchange [] (Loaded st txt b)) = [Uncaught e]).
Proof.
  intros Hok Hb.
  assert (Hj : handleFetchResponse B r (Some "json") = JSON_parse B b).
  { unfold handleFetchResponse, response_json. now rewrite Hok, Hb. }
  assert (Ht : forall rt,
             rt <> Some "json" -> rt <> Some "blob" ->
             rt <> Some "arraybuffer" ->
             handleFetchResponse B r rt = Ok (VStr b)).
  { intros rt H1 H2 H3. unfold handleFetchResponse, response_text.
    rewrite Hok, Hb. cbn [negb].
    destruct rt as [s|]; cbn [opt_string_eqb]; [|reflexivity].
    destruct (s =? "json")%string eqn:E1;
      [apply String.eqb_eq in E1; subst s; now contradiction H1|].
    destruct (s =? "blob")%string eqn:E2;
      [apply String.eqb_eq in E2; subst s; now contradiction H2|].
    destruct (s =? "arraybuffer")%string eqn:E3;
      [apply String.eqb_eq in E3; subst s; now contradiction H3|].
    reflexivity. }
  repeat match goal with |- _ /\ _ => split end.
  - exact Hj.
  - unfold handleFetchResponse, response_blob. now rewrite Hok, Hb.
  - unfold handleFetchResponse, response_arrayBuffer. now rewrite Hok, Hb.
  - apply Ht; discriminate.
  - apply Ht; discriminate.
  - apply Ht; discriminate.
  - intros o config e Ho Hrt Hc Hf He.
    apply (ajaxFetch_caught B o config e Ho Hc).
    apply (exchange_undecoded B o config r e Hf).
    now rewrite Hrt, Hj.
  - intros o f st txt Hs Hst.
    unfold events, onload. cbn [notifications ending flat_map app].
    rewrite Hst, Hs. unfold xhr_responseType, xhr_response. split.
    + intros Hrt. rewrite Hrt.
      cbn [opt_string_eqb String.eqb Ascii.eqb Bool.eqb].
      now rewrite bind_pure.
    + intros [Hrt | Hrt]; rewrite Hrt;
        cbn [opt_string_eqb String.eqb Ascii.eqb Bool.eqb xhr_responseText
               orb];
        now rewrite bind_pure.
  - exact Ht.
  - intros o f st txt rt Hs Hst Hrt H. unfold events, onload.
    cbn [notifications ending flat_map app]. rewrite Hst, Hs, Hrt.
    unfold xhr_responseType. rewrite Hrt.
    destruct H as [-> | [-> | ->]];
      (eexists; split; [|cbn; reflexivity]; reflexivity).
Qed.

Lemma decoder_by_response_type_witness :
  handleFetchResponse (Scenario.answering 200 "OK" "<p>hi</p>")
    (mkResponse true 200 (Ok "<p>hi</p>")) (Some "")
  = Ok (VStr "<p>hi</p>")
  /\ exists e,
       exn_name e = "InvalidStateError"
       /\ events (Scenario.answering 200 "OK" "<p>hi</p>")
            (Scenario.expecting "document" false)
            (mkExchange [] (Loaded 200 "OK" "<p>hi</p>")) = [Uncaught e].
Proof.
  pose proof (decoder_by_response_type
                (Scenario.answering 200 "OK" "<p>hi</p>")
                (mkResponse true 200 (Ok "<p>hi</p>")) "<p>hi</p>"
                eq_refl eq_refl)
    as (_ & _ & _ & _ & _ & _ & _ & _ & Ht & Hx).
  split.
  - apply Ht; discriminate.
  - apply (Hx (Scenario.expecting "document" false) Scenario.accept
              200 "OK" "document"); try reflexivity.
    right. right. reflexivity.
Defined.

(** C6 fails on the code: a response declared "document" is decoded as
    text by handleFetchResponse, not as a parsed document. *)
Lemma fetch_document_is_text :
  handleFetchResponse (Scenario.answering 200 "OK" "<p>hi</p>")
    (mkResponse true 200 (Ok "<p>hi</p>")) (Some "document")
  = Ok (VStr "<p>hi</p>")
  /\ Ok (VStr "<p>hi</p>") <> Ok (VDocument "<p>hi</p>").
Proof. split; [reflexivity|discriminate]. Qed.

(** ** Validation *)

Lemma configure_reports (o : AjaxOptions) :
  flat_map reported (configure o) = [].
Proof.
  unfold configure. cbn [flat_map reported app]. rewrite !flat_map_app.
  assert (H : forall hs : Headers,
             flat_map reported
               (map (fun kv => XhrSetRequestHeader (fst kv) (snd kv)) hs)
             = []).
  { induction hs as [|h hs IH]; simpl; auto. }
  destruct (headers o) as [hs|]; [rewrite H|];
    destruct (responseType o) as [t|]; try destruct (str_truthy t);
    destruct (timeout o) as [n|]; try destruct (num_truthy n);
    reflexivity.
Qed.

(** C8, as the code has it: ajax checks nothing. With neither url nor
    method in the options it goes straight to the selected transport:
    through XMLHttpRequest it creates the request object and calls
    open(undefined, undefined), reporting no error of its own; through
    fetch (once the body is serialised) it calls fetch(undefined,
    config). *)
Theorem ajax_does_not_validate (B : Browser) (o : AjaxOptions) :
  method o = None ->
  url o = None ->
  (use_fetch o = false ->
     (exists rest, trace (ajax B o) = XhrNew :: XhrOpen None None :: rest)
     /\ flat_map reported (trace (ajax B o)) = [])
  /\ (use_fetch o = true ->
      forall config, config_of B o = Ok config ->
        exists rest, trace (ajax B o) = Fetch None config :: rest).
Proof.
  intros Hm Hu. split.
  - intros Hx. unfold ajax. rewrite Hx, ajaxXHR_trace.
    destruct (formatDataForXHR B (data_of o) (headers o)) as [v|e];
      cbn [bind ret trace fst].
    + split.
      * unfold configure. rewrite Hm, Hu. eexists. reflexivity.
      * rewrite app_nil_r, flat_map_app, configure_reports. reflexivity.
    + split.
      * unfold configure. rewrite Hm, Hu. eexists. reflexivity.
      * rewrite app_nil_r, configure_reports. reflexivity.
  - intros Hf config Hc. unfold ajax. rewrite Hf.
    unfold ajaxFetch. rewrite Hc, bind_pure.
    unfold exchange, perform, bind, try_catch. rewrite Hu.
    destruct (fetch B None config) as [r|e].
    + destruct (handleFetchResponse B r (responseType o)) as [v|e].
      * destruct (call_success o v) as [t [[]|e]];
          [|destruct (handleError o (Exception e))];
          eexists; reflexivity.
      * destruct (handleError o (Exception e)). eexists; reflexivity.
    + destruct (handleError o (Exception e)). eexists; reflexivity.
Qed.

Lemma ajax_does_not_validate_witness :
  (exists rest,
     trace (ajax (Scenario.answering 200 "OK" "hello") empty_options)
     = XhrNew :: XhrOpen None None :: rest)
  /\ flat_map reported
       (trace (ajax (Scenario.answering 200 "OK" "hello") empty_options))
     = [].
Proof.
  apply (proj1 (ajax_does_not_validate (Scenario.answering 200 "OK" "hello")
                  empty_options eq_refl eq_refl)).
  reflexivity.
Defined.

(** C8 fails as stated: with neither url nor method, ajax reports no
    configuration error and starts an attempt on XMLHttpRequest. *)
Lemma ajax_without_url_and_method_is_sent :
  method empty_options = None
  /\ url empty_options = None
  /\ ajax (Scenario.answering 200 "OK" "hello") empty_options
     = ([XhrNew; XhrOpen None None; XhrSend VUndefined], Ok Undefined)
  /\ existsb touches_transport
       (trace (ajax (Scenario.answering 200 "OK" "hello") empty_options))
     = true.
Proof. repeat split. Qed.

End AjaxFacts.

(* ================================================================== *)
(** * Further properties of the request core                           *)
(* ================================================================== *)

Section AjaxMore.
Import Js Ajax Observe.

(** A projection of effects that is blind to callbacks. *)
Lemma blind_to_callbacks {X} (f : Effect -> list X) (l : list Effect) :
  (forall e, is_callback e = true -> f e = []) ->
  forallb is_callback l = true ->
  flat_map f l = [].
Proof.
  intros Hf. induction l as [|e l IH]; [reflexivity|].
  cbn [forallb flat_map]. intros H. apply andb_prop in H as [He Hl].
  now rewrite (Hf e He), IH.
Qed.

Lemma task_callbacks (m : M Effect unit) :
  forallb is_callback (trace m) = true ->
  forallb is_callback (task m) = true.
Proof.
  destruct m as [t [[]|e]]; cbn [task trace fst]; [auto|].
  intros H. now rewrite forallb_app, H.
Qed.

Lemma handleError_callbacks (o : AjaxOptions) (a : ErrorArg) :
  forallb is_callback (trace (handleError o a)) = true.
Proof. unfold handleError. now destruct (error o). Qed.

Lemma call_success_callbacks (o : AjaxOptions) (v : JsVal) :
  forallb is_callback (trace (call_success o v)) = true.
Proof. unfold call_success. now destruct (success o). Qed.

Lemma onload_callbacks (B : Browser) (o : AjaxOptions) st txt b :
  forallb is_callback (trace (onload B o st txt b)) = true.
Proof.
  unfold onload. destruct ((200 <=? st) && (st <? 300));
    [|apply handleError_callbacks].
  destruct (success o) as [f|]; [|reflexivity].
  destruct (if opt_string_eqb (responseType o) "json" then _ else _)
    as [v|e]; [|reflexivity].
  rewrite bind_pure. reflexivity.
Qed.

(** The handlers of an exchange only call back. *)
Lemma events_callbacks (B : Browser) (o : AjaxOptions) (x : XhrExchange) :
  forallb is_callback (events B o x) = true.
Proof.
  unfold events. rewrite forallb_app. apply andb_true_intro. split.
  - induction (notifications x) as [|[a b] l IH]; [reflexivity|].
    cbn [flat_map]. rewrite forallb_app, IH, andb_true_r.
    apply task_callbacks. unfold onprogress. now destruct (onProgress o).
  - apply task_callbacks.
    destruct (ending x);
      [apply onload_callbacks| |]; apply handleError_callbacks.
Qed.

(** The promise of [ajaxFetch] calls [fetch] once and then only calls
    back. *)
Lemma ajaxFetch_shape (B : Browser) (o : AjaxOptions) (config : RequestInit) :
  config_of B o = Ok config ->
  exists rest,
    trace (ajaxFetch B o) = Fetch (url o) config :: rest
    /\ forallb is_callback rest = true.
Proof.
  intros Hc. unfold ajaxFetch. rewrite Hc, bind_pure.
  unfold exchange, perform, bind, try_catch.
  destruct (fetch B (url o) config) as [r|e].
  - destruct (handleFetchResponse B r (responseType o)) as [v|e].
    + pose proof (call_success_callbacks o v) as Hs.
      destruct (call_success o v) as [t [[]|e]]; cbn [trace fst] in Hs.
      * eexists. split; [reflexivity|exact Hs].
      * pose proof (handleError_callbacks o (Exception e)) as He.
        destruct (handleError o (Exception e)) as [t' r'].
        eexists. split; [reflexivity|].
        cbn [app trace fst] in *. now rewrite forallb_app, Hs, He.
    + pose proof (handleError_callbacks o (Exception e)) as He.
      destruct (handleError o (Exception e)) as [t' r'].
      eexists. split; [reflexivity|exact He].
  - pose proof (handleError_callbacks o (Exception e)) as He.
    destruct (handleError o (Exception e)) as [t' r'].
    eexists. split; [reflexivity|exact He].
Qed.

Lemma trace_promise (B : Browser) (o : AjaxOptions) :
  use_fetch o = true -> trace (ajax B o) = trace (ajaxFetch B o).
Proof. intros H. unfold ajax. rewrite H. now destruct (ajaxFetch B o). Qed.

Lemma trace_xhr (B : Browser) (o : AjaxOptions) (v : JsVal) :
  use_fetch o = false ->
  formatDataForXHR B (data_of o) (headers o) = Ok v ->
  trace (ajax B o) = (configure o ++ [XhrSend v])%list.
Proof.
  intros H Hv. unfold ajax. rewrite H, ajaxXHR_trace, Hv.
  cbn [bind ret trace fst]. now rewrite app_nil_r.
Qed.

Lemma configure_content_type (o : AjaxOptions) :
  flat_map content_type (configure o)
  = match headers o with
    | Some hs =>
        flat_map (fun kv => if (fst kv =? "Content-Type")%string
                            then [snd kv] else []) hs
    | None => []
    end.
Proof.
  unfold configure. cbn [flat_map content_type app].
  rewrite !flat_map_app.
  assert (H : forall hs : Headers,
             flat_map content_type
               (map (fun kv => XhrSetRequestHeader (fst kv) (snd kv)) hs)
             = flat_map (fun kv => if (fst kv =? "Content-Type")%string
                                   then [snd kv] else []) hs).
  { induction hs as [|h hs IH]; [reflexivity|].
    cbn [map flat_map content_type]. now rewrite IH. }
  destruct (headers o) as [hs|]; [rewrite H|];
    destruct (responseType o) as [t|]; try destruct (str_truthy t);
    destruct (timeout o) as [n|]; try destruct (num_truthy n);
    cbn [flat_map content_type app]; now rewrite ?app_nil_r.
Qed.

(** What one call of [ajax] sends, on either transport. *)
Lemma ajax_sends (B : Browser) (o : AjaxOptions) (v : JsVal) :
  opt_string_eqb (method o) "GET" = false ->
  formatDataForXHR B (data_of o) (headers o) = Ok v ->
  flat_map sent (trace (ajax B o)) = [v].
Proof.
  intros Hm Hv. destruct (use_fetch o) eqn:Hf.
  - rewrite trace_promise by assumption.
    destruct (ajaxFetch_shape B o (mkInit (method o) (headers o) v
                                     (abortSignal o)))
      as (rest & -> & Hrest).
    { unfold config_of. rewrite Hm. cbn [negb].
      change (formatDataForFetch B (data_of o) (headers o))
        with (formatDataForXHR B (data_of o) (headers o)).
      now rewrite Hv. }
    cbn [flat_map sent init_body app].
    now rewrite (blind_to_callbacks sent rest)
      by (auto; now intros []).
  - rewrite (trace_xhr B o v) by assumption.
    rewrite flat_map_app. destruct (configure_requests o) as [_ ->].
    reflexivity.
Qed.

(** ** The body of a request *)

Lemma body_options_sends (B : Browser) (m u : string) (d v : JsVal)
    (o : AjaxOptions) :
  opt_string_eqb (Some m) "GET" = false ->
  method o = None ->
  data o = None ->
  formatDataForXHR B d (or_else (headers o)
                          (Some [("Content-Type", "application/json")]))
  = Ok v ->
  flat_map sent (trace (ajax B (spread (body_options m u d) o))) = [v].
Proof.
  intros Hm Ho Hd Hv. apply ajax_sends.
  - cbn [spread method body_options]. now rewrite Ho.
  - unfold data_of. cbn [spread data headers body_options].
    now rewrite Hd.
Qed.

Lemma ajax_content_type_default (B : Browser) (m u : string) (d v : JsVal)
    (o : AjaxOptions) :
  opt_string_eqb (Some m) "GET" = false ->
  method o = None ->
  headers o = None ->
  data o = None ->
  formatDataForXHR B d (Some [("Content-Type", "application/json")]) = Ok v ->
  flat_map content_type (trace (ajax B (spread (body_options m u d) o)))
  = ["application/json"].
Proof.
  intros Hm Ho Hh Hd Hv.
  set (o' := spread (body_options m u d) o).
  assert (Hh' : headers o' = Some [("Content-Type", "application/json")]).
  { subst o'. cbn [spread headers body_options]. now rewrite Hh. }
  assert (Hv' : formatDataForXHR B (data_of o') (headers o') = Ok v).
  { rewrite Hh'. subst o'. unfold data_of.
    cbn [spread data body_options]. now rewrite Hd. }
  destruct (use_fetch o') eqn:Hf.
  - rewrite trace_promise by assumption.
    destruct (ajaxFetch_shape B o' (mkInit (method o') (headers o') v
                                      (abortSignal o')))
      as (rest & -> & Hrest).
    { unfold config_of. subst o'. cbn [spread method body_options].
      rewrite Ho. cbn [or_else]. rewrite Hm. cbn [negb].
      change (formatDataForFetch B ?a ?b) with (formatDataForXHR B a b).
      now rewrite Hv'. }
    cbn [flat_map content_type init_headers]. rewrite Hh'.
    cbn [header String.eqb Ascii.eqb Bool.eqb app].
    now rewrite (blind_to_callbacks content_type rest)
      by (auto; now intros []).
  - rewrite (trace_xhr B o' v) by assumption.
    rewrite flat_map_app, configure_content_type, Hh'. reflexivity.
Qed.

(** X1: post, put and patch send JSON by default. For a plain object
    and options that set no method, headers or data, the one request
    carries the Content-Type application/json and the body
    JSON.stringify(data), on either transport. *)
Theorem body_verbs_default_to_json (B : Browser) (u : string)
    (props : list (string * JsVal)) (o : AjaxOptions) (s : string) :
  method o = None ->
  headers o = None ->
  data o = None ->
  JSON_stringify B (VObject props) = Ok s ->
  (flat_map sent (trace (post B u (VObject props) o)) = [VStr s]
   /\ flat_map content_type (trace (post B u (VObject props) o))
      = ["application/json"])
  /\ (flat_map sent (trace (put B u (VObject props) o)) = [VStr s]
      /\ flat_map content_type (trace (put B u (VObject props) o))
         = ["application/json"])
  /\ (flat_map sent (trace (patch B u (VObject props) o)) = [VStr s]
      /\ flat_map content_type (trace (patch B u (VObject props) o))
         = ["application/json"]).
Proof.
  intros Hm Hh Hd Hs.
  assert (Hv : formatDataForXHR B (VObject props)
                 (Some [("Content-Type", "application/json")])
               = Ok (VStr s)).
  { unfold formatDataForXHR. cbn. now rewrite Hs. }
  unfold post, put, patch.
  repeat split;
    (apply body_options_sends; [reflexivity|assumption|assumption|];
     now rewrite Hh)
    || (now apply (ajax_content_type_default B _ u _ (VStr s))).
Qed.

Lemma body_verbs_default_to_json_witness :
  flat_map sent
    (trace (post (Scenario.answering 200 "OK" "[]") "/items"
              (VObject [("name", VStr "x")]) empty_options))
  = [VStr "{}"].
Proof.
  apply (body_verbs_default_to_json (Scenario.answering 200 "OK" "[]")
           "/items" [("name", VStr "x")] empty_options "{}");
    reflexivity.
Defined.

(** X2: post, put and patch hand the data over untouched when it is not
    a plain object to serialise (a string, a FormData, a falsy value), or
    when the caller supplies a headers object of its own whose
    Content-Type is not application/json: the caller's headers replace
    the default ones altogether. *)
Theorem body_verbs_pass_through (B : Browser) (u : string) (d : JsVal)
    (o : AjaxOptions) :
  method o = None ->
  data o = None ->
  passes_through d = true
  \/ (exists hs, headers o = Some hs
                 /\ opt_string_eqb (header hs "Content-Type")
                      "application/json" = false) ->
  flat_map sent (trace (post B u d o)) = [d]
  /\ flat_map sent (trace (put B u d o)) = [d]
  /\ flat_map sent (trace (patch B u d o)) = [d].
Proof.
  intros Hm Hd H.
  assert (Hv : formatDataForXHR B d
                 (or_else (headers o)
                    (Some [("Content-Type", "application/json")]))
               = Ok d).
  { unfold formatDataForXHR. destruct H as [H | (hs & -> & H)].
    - unfold passes_through in H. apply negb_true_iff in H. now rewrite H.
    - cbn [or_else]. rewrite H. now destruct (_ && _). }
  unfold post, put, patch.
  repeat split; now apply body_options_sends.
Qed.

Lemma body_verbs_pass_through_witness :
  flat_map sent
    (trace (post (Scenario.answering 200 "OK" "[]") "/upload"
              (VFormData [("file", "bytes")]) empty_options))
  = [VFormData [("file", "bytes")]].
Proof.
  apply (body_verbs_pass_through (Scenario.answering 200 "OK" "[]")
           "/upload" (VFormData [("file", "bytes")]) empty_options);
    try reflexivity.
  left. reflexivity.
Defined.

(** X3: data given with a GET. The fetch transport never attaches a body
    to a request whose method is exactly "GET"; the XMLHttpRequest
    transport hands the (serialised) data to send whatever the method
    is. *)
Theorem get_body_depends_on_transport (B : Browser) (o : AjaxOptions)
    (v : JsVal) :
  method o = Some "GET" ->
  formatDataForXHR B (data_of o) (headers o) = Ok v ->
  flat_map sent (trace (ajax B o)) = [if use_fetch o then VUndefined else v].
Proof.
  intros Hm Hv. destruct (use_fetch o) eqn:Hf.
  - rewrite trace_promise by assumption.
    destruct (ajaxFetch_shape B o (mkInit (method o) (headers o) VUndefined
                                     (abortSignal o)))
      as (rest & -> & Hrest).
    { unfold config_of. now rewrite Hm. }
    cbn [flat_map sent init_body app].
    now rewrite (blind_to_callbacks sent rest)
      by (auto; now intros []).
  - rewrite (trace_xhr B o v) by assumption.
    rewrite flat_map_app. destruct (configure_requests o) as [_ ->].
    reflexivity.
Qed.

Lemma get_body_depends_on_transport_witness :
  flat_map sent
    (trace (ajax (Scenario.answering 200 "OK" "[]")
              (Cases.carrying (VStr "payload"))))
  = [VStr "payload"].
Proof.
  apply (get_body_depends_on_transport (Scenario.answering 200 "OK" "[]")
           (Cases.carrying (VStr "payload")) (VStr "payload")); reflexivity.
Defined.

(** X4: a failure to serialise the body bypasses the error callback.
    When JSON.stringify throws on the data of a post, nothing is sent
    and nothing is reported: through XMLHttpRequest the exception is
    thrown to the caller, through fetch the promise is rejected with
    it. *)
Theorem unserialisable_body_is_thrown (B : Browser) (u : string)
    (props : list (string * JsVal)) (o : AjaxOptions) (e : Exn) :
  method o = None ->
  headers o = None ->
  data o = None ->
  JSON_stringify B (VObject props) = Throw e ->
  flat_map sent (trace (post B u (VObject props) o)) = []
  /\ flat_map reported (trace (post B u (VObject props) o)) = []
  /\ outcome (post B u (VObject props) o)
     = if use_fetch o then Ok (Promise (Throw e)) else Throw e.
Proof.
  intros Hm Hh Hd He. unfold post.
  set (o' := spread (body_options "POST" u (VObject props)) o).
  assert (Hv : formatDataForXHR B (data_of o') (headers o') = Throw e).
  { subst o'. unfold data_of. cbn [spread data headers body_options].
    rewrite Hd, Hh. unfold formatDataForXHR. cbn. now rewrite He. }
  assert (Hf : use_fetch o' = use_fetch o).
  { subst o'. now apply use_fetch_spread. }
  unfold ajax. rewrite Hf. destruct (use_fetch o).
  - assert (Hc : config_of B o' = Throw e).
    { unfold config_of. subst o'. cbn [spread method body_options].
      rewrite Hm. cbn [or_else opt_string_eqb String.eqb Ascii.eqb Bool.eqb
                         negb].
      change (formatDataForFetch B ?a ?b) with (formatDataForXHR B a b).
      now rewrite Hv. }
    unfold ajaxFetch. rewrite Hc. cbn. repeat split.
  - rewrite ajaxXHR_trace, Hv. cbn [bind trace outcome fst snd].
    rewrite app_nil_r. destruct (configure_requests o') as [_ ->].
    now rewrite configure_reports.
Qed.

Lemma unserialisable_body_is_thrown_witness :
  outcome
    (post (Cases.unserialising (TypeError "cyclic object value"))
       "/items" (VObject [("self", VNull)]) empty_options)
  = Throw (TypeError "cyclic object value").
Proof.
  apply (unserialisable_body_is_thrown
           (Cases.unserialising (TypeError "cyclic object value"))
           "/items" [("self", VNull)] empty_options
           (TypeError "cyclic object value")); reflexivity.
Defined.

(** ** The retry loop *)

(** X5: the settings of the XMLHttpRequest transport mean nothing to
    fetch. Whatever timeout, retries, retryDelay and onProgress are, a
    call through fetch does the same: no timeout is armed, nothing is
    retried and no progress is notified. *)
Theorem fetch_ignores_xhr_settings (B : Browser) (o : AjaxOptions)
    (t r d : option JsNum) (p : option (Z -> Z -> Result unit)) :
  use_fetch o = true ->
  ajax B (with_xhr_settings o t r d p) = ajax B o
  /\ flat_map timers (trace (ajax B o)) = []
  /\ (attempts (trace (ajax B o)) <= 1)%nat.
Proof.
  intros Hf. split; [|split].
  - unfold ajax.
    change (use_fetch (with_xhr_settings o t r d p)) with (use_fetch o).
    rewrite Hf. reflexivity.
  - rewrite trace_promise by assumption.
    destruct (config_of B o) as [config|e] eqn:Hc.
    + destruct (ajaxFetch_shape B o config Hc) as (rest & -> & Hrest).
      cbn [flat_map timers app].
      now rewrite (blind_to_callbacks timers rest)
        by (auto; now intros []).
    + unfold ajaxFetch. now rewrite Hc.
  - rewrite trace_promise by assumption.
    destruct (config_of B o) as [config|e] eqn:Hc.
    + destruct (ajaxFetch_shape B o config Hc) as (rest & -> & Hrest).
      unfold attempts. cbn [filter is_attempt List.length].
      assert (H : filter is_attempt rest = []).
      { clear -Hrest. induction rest as [|x rest IH]; [reflexivity|].
        cbn [forallb] in Hrest. apply andb_prop in Hrest as [Hx Hr].
        cbn [filter]. destruct x; try discriminate Hx; now apply IH. }
      rewrite H. cbn. lia.
    + unfold ajaxFetch. rewrite Hc. cbn. lia.
Qed.

Lemma fetch_ignores_xhr_settings_witness :
  ajax Scenario.unreachable
    (with_xhr_settings (Scenario.expecting "json" true) (Some (Num 50))
       (Some (Num 3)) (Some (Num 10)) None)
  = ajax Scenario.unreachable (Scenario.expecting "json" true).
Proof.
  apply (fetch_ignores_xhr_settings Scenario.unreachable
           (Scenario.expecting "json" true)).
  reflexivity.
Defined.

(** X6: only an HTTP status of 400 or more is retried. When the first
    exchange ends with a status below 400, and so after a network error
    or a timeout (status 0) or a redirect-class status, the call makes
    its one attempt and sets no timer, whatever the retry budget is. *)
Theorem only_http_errors_are_retried (B : Browser) (o : AjaxOptions)
    (v : JsVal) (fuel : nat) :
  formatDataForXHR B (data_of o) (headers o) = Ok v ->
  xhr_status (ending (xhr_exchange B 0)) < 400 ->
  attempts (xhr_call B fuel o) = 1%nat
  /\ flat_map timers (xhr_call B fuel o) = [].
Proof.
  intros Hv Hst. unfold xhr_call. rewrite ajaxXHR_trace, Hv.
  assert (Hs : settle B fuel 0 o
               = match fuel with
                 | O => []
                 | S _ => events B o (xhr_exchange B 0)
                 end).
  { destruct fuel as [|fuel]; [reflexivity|]. cbn [settle].
    unfold retry_due. apply Z.leb_gt in Hst. rewrite Hst. cbn [andb].
    now rewrite app_nil_r. }
  rewrite Hs. split.
  - rewrite !attempts_app, attempts_configure.
    destruct fuel; [reflexivity|]. now rewrite attempts_events.
  - rewrite !flat_map_app.
    assert (Hc : flat_map timers (configure o) = []).
    { unfold configure. cbn [flat_map timers app]. rewrite !flat_map_app.
      assert (H : forall hs : Headers,
                 flat_map timers
                   (map (fun kv => XhrSetRequestHeader (fst kv) (snd kv)) hs)
                 = []).
      { induction hs as [|h hs IH]; simpl; auto. }
      destruct (headers o) as [hs|]; [rewrite H|];
        destruct (responseType o) as [t|]; try destruct (str_truthy t);
        destruct (timeout o) as [n|]; try destruct (num_truthy n);
        reflexivity. }
    rewrite Hc. destruct fuel; [reflexivity|].
    cbn [flat_map timers app].
    now rewrite (blind_to_callbacks timers _ ltac:(now intros [])
                   (events_callbacks B o _)).
Qed.

Lemma only_http_errors_are_retried_witness :
  attempts (xhr_call Scenario.unreachable 9 Scenario.patient) = 1%nat.
Proof.
  apply (only_http_errors_are_retried Scenario.unreachable Scenario.patient
           VUndefined 9).
  - reflexivity.
  - simpl. lia.
Defined.

(** What [settle] yields under a projection that is blind to callbacks
    and warnings, when the projection of the timer and of [ajaxXHR] are
    in [P]. *)
Lemma settle_forall {X} (f : Effect -> list X) (P : X -> Prop)
    (B : Browser) :
  (forall e, is_callback e = true -> f e = []) ->
  (forall m, f (ConsoleWarn m) = []) ->
  forall (fuel n : nat) (o : AjaxOptions),
    Forall P (f (SetTimeout (num_or (retryDelay o) 1000))) ->
    Forall P (flat_map f (trace (ajaxXHR B o))) ->
    Forall P (flat_map f (settle B fuel n o)).
Proof.
  intros Hcb Hw. induction fuel as [|fuel IH]; intros n o Ht Hx;
    [constructor|].
  cbn [settle]. rewrite flat_map_app.
  rewrite (blind_to_callbacks f _ Hcb (events_callbacks B o _)).
  cbn [app]. destruct (retry_due _ _ _); [|constructor].
  cbn [flat_map]. rewrite Hw. cbn [app].
  apply Forall_app. split; [exact Ht|].
  change (ajaxXHR B (retried o)) with (ajaxXHR B o).
  specialize (IH (S n) (retried o) Ht Hx).
  destruct (ajaxXHR B o) as [t [[]|e]]; cbn [trace fst] in Hx;
    rewrite flat_map_app; apply Forall_app; split; auto.
  cbn [flat_map]. rewrite (Hcb (Uncaught e) eq_refl). constructor.
Qed.

(** X7: the delay between attempts is constant. Every timer a call sets
    waits options.retryDelay || 1000 milliseconds: the configured delay,
    and 1000 when it is absent, 0 or NaN. *)
Theorem retry_delay_is_constant (B : Browser) (o : AjaxOptions)
    (fuel : nat) :
  Forall (eq (num_or (retryDelay o) 1000))
    (flat_map timers (xhr_call B fuel o))
  /\ (retryDelay o = None \/ retryDelay o = Some (Num 0)
      \/ retryDelay o = Some NaN ->
      num_or (retryDelay o) 1000 = Num 1000).
Proof.
  split.
  - assert (Hx : Forall (eq (num_or (retryDelay o) 1000))
                   (flat_map timers (trace (ajaxXHR B o)))).
    { rewrite ajaxXHR_trace. cbn [trace fst]. rewrite flat_map_app.
      assert (Hc : flat_map timers (configure o) = []).
      { unfold configure. cbn [flat_map timers app]. rewrite !flat_map_app.
        assert (H : forall hs : Headers,
                   flat_map timers
                     (map (fun kv => XhrSetRequestHeader (fst kv) (snd kv))
                        hs) = []).
        { induction hs as [|h hs IH]; simpl; auto. }
        destruct (headers o) as [hs|]; [rewrite H|];
          destruct (responseType o) as [t|]; try destruct (str_truthy t);
          destruct (timeout o) as [n|]; try destruct (num_truthy n);
          reflexivity. }
      rewrite Hc. destruct (formatDataForXHR _ _ _); constructor. }
    unfold xhr_call.
    destruct (ajaxXHR B o) as [t [[]|e]] eqn:E; cbn [trace fst] in Hx;
      [|exact Hx].
    rewrite flat_map_app. apply Forall_app. split; [exact Hx|].
    apply settle_forall.
    + now intros [].
    + reflexivity.
    + repeat constructor.
    + rewrite E. exact Hx.
  - intros [-> | [-> | ->]]; reflexivity.
Qed.

Lemma retry_delay_is_constant_witness :
  num_or (retryDelay (Scenario.with_retries 3)) 1000 = Num 1000.
Proof.
  apply (retry_delay_is_constant
           (Scenario.answering 500 "Internal Server Error" "")
           (Scenario.with_retries 3) 4).
  left. reflexivity.
Defined.

(** X8: every attempt of a call repeats the same request: each
    xhr.open has the method and URL of the options and each xhr.send
    has the same body, the data serialised as for the first attempt. *)
Theorem retries_repeat_the_request (B : Browser) (o : AjaxOptions)
    (v : JsVal) (fuel : nat) :
  formatDataForXHR B (data_of o) (headers o) = Ok v ->
  Forall (eq (method o, url o)) (flat_map opened (xhr_call B fuel o))
  /\ Forall (eq v) (flat_map sent (xhr_call B fuel o)).
Proof.
  intros Hv.
  assert (Ho : flat_map opened (configure o) = [(method o, url o)]).
  { unfold configure. cbn [flat_map opened app]. rewrite !flat_map_app.
    assert (H : forall hs : Headers,
               flat_map opened
                 (map (fun kv => XhrSetRequestHeader (fst kv) (snd kv)) hs)
               = []).
    { induction hs as [|h hs IH]; simpl; auto. }
    destruct (headers o) as [hs|]; [rewrite H|];
      destruct (responseType o) as [t|]; try destruct (str_truthy t);
      destruct (timeout o) as [n|]; try destruct (num_truthy n);
      reflexivity. }
  assert (Hx1 : Forall (eq (method o, url o))
                  (flat_map opened (trace (ajaxXHR B o)))).
  { rewrite ajaxXHR_trace, Hv. cbn [trace fst].
    rewrite flat_map_app, Ho. repeat constructor. }
  assert (Hx2 : Forall (eq v) (flat_map sent (trace (ajaxXHR B o)))).
  { rewrite ajaxXHR_trace, Hv. cbn [trace fst]. rewrite flat_map_app.
    destruct (configure_requests o) as [_ ->]. repeat constructor. }
  unfold xhr_call.
  destruct (ajaxXHR B o) as [t [[]|e]] eqn:E; cbn [trace fst] in Hx1, Hx2;
    [|now split].
  rewrite !flat_map_app. split; apply Forall_app; split; auto;
    apply settle_forall; try (now intros []); try reflexivity;
    try constructor; rewrite E; assumption.
Qed.

Lemma retries_repeat_the_request_witness :
  Forall (eq (Some "GET", Some "/x"))
    (flat_map opened
       (xhr_call (Scenario.flaky 2 "hello") 9 Scenario.patient)).
Proof.
  apply (retries_repeat_the_request (Scenario.flaky 2 "hello")
           Scenario.patient VUndefined 9).
  reflexivity.
Defined.

(** ** Callbacks *)



(** X10: through fetch, an exception thrown by the success callback is
    caught like a transport error: the same call then also invokes
    handleError with that exception, so both callbacks run, and the
    promise is still fulfilled. *)
Theorem fetch_success_exception_is_reported (B : Browser) (o : AjaxOptions)
    (config : RequestInit) (r : Response) (v : JsVal)
    (f : JsVal -> Result unit) (e : Exn) :
  config_of B o = Ok config ->
  fetch B (url o) config = Ok r ->
  handleFetchResponse B r (responseType o) = Ok v ->
  success o = Some f ->
  f v = Throw e ->
  error_total o ->
  ajaxFetch B o
  = ([Fetch (url o) config; CallSuccess v; report o (Exception e)], Ok tt).
Proof.
  intros Hc Hf Hv Hs He Het. unfold ajaxFetch. rewrite Hc, bind_pure.
  unfold exchange, call_success, perform, bind, try_catch.
  rewrite Hf, Hv, Hs, He. now rewrite handleError_reports.
Qed.

Lemma fetch_success_exception_is_reported_witness :
  ajaxFetch (Scenario.answering 200 "OK" "hello")
    (Cases.careless (TypeError "response.map is not a function") true)
  = ([Fetch (Some "/x") (mkInit (Some "GET") None VUndefined None);
      CallSuccess (VStr "hello");
      CallError (Exception (TypeError "response.map is not a function"))],
     Ok tt).
Proof.
  apply (fetch_success_exception_is_reported
           (Scenario.answering 200 "OK" "hello")
           (Cases.careless (TypeError "response.map is not a function") true)
           (mkInit (Some "GET") None VUndefined None)
           (mkResponse true 200 (Ok "hello")) (VStr "hello")
           (fun _ => Throw (TypeError "response.map is not a function"))
           (TypeError "response.map is not a function"));
    try reflexivity.
  intros f H a. injection H as <-. reflexivity.
Defined.

Lemma progress_is_silent (o : AjaxOptions) (l : list (Z * Z)) :
  flat_map succeeded
    (flat_map (fun lt => task (onprogress o (fst lt) (snd lt))) l) = []
  /\ flat_map reported
       (flat_map (fun lt => task (onprogress o (fst lt) (snd lt))) l) = [].
Proof.
  induction l as [|[a b] l [IH1 IH2]]; [now split|].
  cbn [flat_map fst snd]. rewrite !flat_map_app, IH1, IH2.
  unfold onprogress. destruct (onProgress o) as [f|]; [|now split].
  unfold task, perform. destruct (f a b); now split.
Qed.

(** X11: through XMLHttpRequest, one exchange calls back at most once:
    its handlers call success or hand one error to handleError, never
    both, whatever the exchange and the callbacks do. *)
Theorem xhr_exchange_calls_back_at_most_once (B : Browser)
    (o : AjaxOptions) (x : XhrExchange) :
  (List.length (flat_map succeeded (events B o x))
   + List.length (flat_map reported (events B o x)) <= 1)%nat.
Proof.
  unfold events. rewrite !flat_map_app, !length_app.
  destruct (progress_is_silent o (notifications x)) as [-> ->].
  cbn [List.length Nat.add].
  assert (He : forall a,
             (List.length (flat_map succeeded (task (handleError o a)))
              + List.length (flat_map reported (task (handleError o a)))
              <= 1)%nat).
  { intros a. unfold handleError, task, perform, emit.
    destruct (error o) as [g|]; [destruct (g a)|]; cbn; lia. }
  destruct (ending x) as [st txt b| |]; try apply He.
  unfold onload. destruct ((200 <=? st) && (st <? 300)); [|apply He].
  destruct (success o) as [f|]; [|cbn; lia].
  destruct (if opt_string_eqb (responseType o) "json" then _ else _)
    as [v|e]; [|cbn; lia].
  rewrite bind_pure. unfold task, perform. destruct (f v); cbn; lia.
Qed.



(** X13: through XMLHttpRequest, a response declared "blob",
    "arraybuffer" or "document" never reaches the success callback: the
    load handler reads xhr.responseText, which throws for these types,
    and the exception leaves the handler uncaught with nothing
    reported. *)
Theorem xhr_binary_response_is_lost (B : Browser) (o : AjaxOptions)
    (f : JsVal -> Result unit) (rt : string) (st : Z) (txt b : string) :
  (200 <=? st) && (st <? 300) = true ->
  success o = Some f ->
  responseType o = Some rt ->
  rt = "blob" \/ rt = "arraybuffer" \/ rt = "document" ->
  exists e,
    exn_name e = "InvalidStateError"
    /\ events B o (mkExchange [] (Loaded st txt b)) = [Uncaught e].
Proof.
  intros Hst Hs Hrt H. unfold events, onload.
  cbn [notifications ending flat_map app]. rewrite Hst, Hs, Hrt.
  unfold xhr_responseType. rewrite Hrt.
  destruct H as [-> | [-> | ->]];
    (eexists; split; [|cbn; reflexivity]; reflexivity).
Qed.

Lemma xhr_binary_response_is_lost_witness :
  exists e,
    exn_name e = "InvalidStateError"
    /\ events (Scenario.answering 200 "OK" "bytes")
         (Scenario.expecting "blob" false)
         (mkExchange [] (Loaded 200 "OK" "bytes")) = [Uncaught e].
Proof.
  apply (xhr_binary_response_is_lost (Scenario.answering 200 "OK" "bytes")
           (Scenario.expecting "blob" false) Scenario.accept "blob");
    try reflexivity.
  left. reflexivity.
Defined.

End AjaxMore.

(* ================================================================== *)
(** * Further properties of the page script                            *)
(* ================================================================== *)

Section PageFacts.
Import Wallpaper Page.

Lemma step_shows_current (s : State) (e : Event) :
  index_in_range s -> shows_current s -> shows_current (step s e).
Proof.
  unfold index_in_range, shows_current. intros Hr Hs.
  destruct e; cbn [step]; auto.
  - unfold goBack. destruct (0 <? currentIndex s) eqn:E; [|exact Hs].
    apply Z.ltb_lt in E. right. cbn. unfold at_index.
    destruct (currentIndex s - 1 <? 0) eqn:E'; [apply Z.ltb_lt in E'; lia|].
    repeat split; try lia.
    apply nth_error_Some. lia.
  - unfold goForward.
    destruct (currentIndex s <? _) eqn:E; [|exact Hs].
    apply Z.ltb_lt in E. right. cbn. unfold at_index.
    destruct (currentIndex s + 1 <? 0) eqn:E'; [apply Z.ltb_lt in E'; lia|].
    repeat split; try lia.
    apply nth_error_Some. lia.
  - right. cbn. repeat split; try lia; try discriminate.
    assert (Hl : List.length (Js.splice_from (currentIndex s + 1)
                                (wallpaperHistory s))
                 = Z.to_nat (currentIndex s + 1)).
    { apply Nat2Z.inj. rewrite splice_from_length by lia. lia. }
    rewrite nth_error_app2 by lia. rewrite Hl, Nat.sub_diag. reflexivity.
Qed.

Lemma run_shows_current (evs : list Event) (s : State) :
  index_in_range s -> shows_current s ->
  index_in_range (run evs s) /\ shows_current (run evs s).
Proof.
  revert s. induction evs as [|e evs IH]; intros s Hr Hs; [now split|].
  apply IH; [now apply step_index_in_range|now apply step_shows_current].
Qed.

Lemma reachable_invariants (evs : list Event) :
  index_in_range (run evs initial) /\ shows_current (run evs initial).
Proof.
  apply run_shows_current.
  - unfold index_in_range. simpl. lia.
  - left. now repeat split.
Qed.

(** X14: the image always shows the current entry. After any sequence
    of clicks and fetch completions, either no wallpaper has arrived yet
    (index -1, empty history, no src set), or the src last given to the
    image is wallpaperHistory[currentIndex], which exists. *)
Theorem image_shows_current_entry (evs : list Event) :
  shows_current (run evs initial).
Proof. apply reachable_invariants. Qed.

(** X15: back and forward undo each other. In every reachable state, a
    back click that moves (currentIndex > 0) followed by a forward click
    restores the whole state, and a forward click that moves
    (currentIndex < length - 1) followed by a back click does too; no
    request is issued on the way. *)
Theorem back_and_forward_are_inverse (evs : list Event) :
  let s := run evs initial in
  (0 < currentIndex s -> goForward (goBack s) = s)
  /\ (currentIndex s < Z.of_nat (List.length (wallpaperHistory s)) - 1 ->
      goBack (goForward s) = s).
Proof.
  intros s. destruct (reachable_invariants evs) as [Hr Hs].
  fold s in Hr, Hs. unfold index_in_range in Hr.
  destruct s as [h i src n]. cbn in *.
  destruct Hs as [(Hi & Hh & Hsrc) | (Hi & Hne & Hsrc)]; cbn in *.
  - subst. cbn. split; intros; lia.
  - split; intros H.
    + unfold goBack. cbn. apply Z.ltb_lt in H as E. rewrite E.
      unfold goForward. cbn.
      replace (i - 1 <? Z.of_nat (List.length h) - 1) with true
        by (symmetry; apply Z.ltb_lt; lia).
      f_equal; [lia|]. unfold at_index.
      replace (i - 1 + 1) with i by lia.
      destruct (i <? 0) eqn:E'; [apply Z.ltb_lt in E'; lia|].
      now symmetry.
    + unfold goForward. cbn. apply Z.ltb_lt in H as E. rewrite E.
      unfold goBack. cbn.
      replace (0 <? i + 1) with true by (symmetry; apply Z.ltb_lt; lia).
      f_equal; [lia|]. unfold at_index.
      replace (i + 1 - 1) with i by lia.
      destruct (i <? 0) eqn:E'; [apply Z.ltb_lt in E'; lia|].
      now symmetry.
Qed.

Lemma back_and_forward_are_inverse_witness :
  goForward (goBack (run [FetchSuccess "blob:1"; ClickForward;
                          FetchSuccess "blob:2"] initial))
  = run [FetchSuccess "blob:1"; ClickForward; FetchSuccess "blob:2"] initial.
Proof.
  apply (proj1 (back_and_forward_are_inverse
                  [FetchSuccess "blob:1"; ClickForward;
                   FetchSuccess "blob:2"])).
  vm_compute. reflexivity.
Defined.

(** ** The slideshow timer *)

Lemma running_In (cb : Callback) (t : Timers) (h : nat) (ms : Z) :
  In (h, ms) (running cb t) <-> In (h, (cb, ms)) (intervals t).
Proof.
  unfold running. rewrite in_flat_map. split.
  - intros ([h' [cb' ms']] & Hin & H). cbn in H.
    destruct cb, cb'; cbn in H; try contradiction;
      destruct H as [H|[]]; injection H as <- <-; exact Hin.
  - intros H. exists (h, (cb, ms)). split; [exact H|].
    destruct cb; cbn; now left.
Qed.

Lemma running_clear (cb : Callback) (h : nat) (t : Timers) :
  running cb (clearInterval h t)
  = filter (fun e => negb (fst e =? h)%nat) (running cb t).
Proof.
  unfold running, clearInterval. cbn [intervals].
  induction (intervals t) as [|[h' [cb' ms]] l IH]; [reflexivity|].
  cbn [filter flat_map fst snd].
  destruct (h' =? h)%nat eqn:E; cbn [negb].
  - rewrite IH. destruct cb, cb'; cbn [app filter fst]; rewrite ?E; auto.
  - cbn [flat_map fst snd]. rewrite IH.
    destruct cb, cb'; cbn [app filter fst]; rewrite ?E; auto.
Qed.

Lemma filter_all {A} (f : A -> bool) (l : list A) :
  (forall x, In x l -> f x = true) -> filter f l = l.
Proof.
  induction l as [|a l IH]; intros H; [reflexivity|].
  cbn. rewrite (H a (or_introl eq_refl)). f_equal.
  apply IH. intros x Hx. apply H. now right.
Qed.

Lemma distinct_handles {B} (l : list (nat * B)) (h : nat) (b c : B) :
  NoDup (map fst l) -> In (h, b) l -> In (h, c) l -> b = c.
Proof.
  induction l as [|[h' b'] l IH]; [contradiction|].
  cbn. intros Hnd [H1|H1] [H2|H2]; inversion Hnd as [|? ? Hn Hnd']; subst.
  - congruence.
  - injection H1 as -> ->. exfalso. apply Hn.
    change h with (fst (h, c)). now apply in_map.
  - injection H2 as -> ->. exfalso. apply Hn.
    change h with (fst (h, b)). now apply in_map.
  - now apply IH.
Qed.

Lemma stopSlideshow_tidy (t : Timers) :
  tidy t ->
  tidy (stopSlideshow t)
  /\ slideshowTimer (stopSlideshow t) = None
  /\ next_handle (stopSlideshow t) = next_handle t
  /\ running UpdateClock (stopSlideshow t) = running UpdateClock t.
Proof.
  intros (Hn & Hnd & Hall & Hs). unfold stopSlideshow, timer_set.
  destruct (slideshowTimer t) as [h|] eqn:E.
  2:{ repeat split; auto. now rewrite E. }
  assert (Hin : In (h, (GoForward, slideshowIntervalMs)) (intervals t)).
  { apply running_In. rewrite Hs. now left. }
  assert (Hh : (0 < h)%nat).
  { rewrite Forall_forall in Hall. now apply (Hall _ Hin). }
  destruct (h =? 0)%nat eqn:E0; [apply Nat.eqb_eq in E0; lia|].
  set (t' := clearInterval h t).
  assert (Hg : running GoForward t' = []).
  { subst t'. rewrite running_clear, Hs. cbn. now rewrite Nat.eqb_refl. }
  assert (Hc : running UpdateClock t' = running UpdateClock t).
  { subst t'. rewrite running_clear. apply filter_all.
    intros [h' ms] Hx. cbn. apply negb_true_iff, Nat.eqb_neq. intros ->.
    apply running_In in Hx.
    pose proof (distinct_handles _ _ _ _ Hnd Hx Hin) as Habs.
    discriminate Habs. }
  repeat split; cbn; auto.
  - clear -Hnd. induction (intervals t) as [|[h' x] l IH]; [constructor|].
    cbn in *. inversion Hnd as [|? ? Hn Hnd']; subst.
    destruct (negb (h' =? h)%nat); cbn; auto.
    constructor; auto. intros Habs. apply Hn.
    apply in_map_iff in Habs as (y & <- & Hy).
    apply in_map. now apply filter_In in Hy as [Hy _].
  - apply Forall_forall. intros x Hx. apply filter_In in Hx as [Hx _].
    rewrite Forall_forall in Hall. now apply Hall.
Qed.

Lemma startSlideshow_tidy (t : Timers) :
  tidy t ->
  tidy (startSlideshow t)
  /\ slideshowTimer (startSlideshow t) = Some (next_handle t)
  /\ running UpdateClock (startSlideshow t) = running UpdateClock t.
Proof.
  intros Ht. destruct (stopSlideshow_tidy t Ht)
    as ((Hn & Hnd & Hall & Hs) & Hnone & Hnext & Hc).
  unfold startSlideshow, setInterval. cbn. rewrite Hnone in Hs.
  rewrite Hnext in *.
  assert (Hr : forall cb,
             running cb
               (mkTimers (Some (next_handle t))
                  (intervals (stopSlideshow t)
                   ++ [(next_handle t, (GoForward, slideshowIntervalMs))])
                  (S (next_handle t)))
             = (running cb (stopSlideshow t)
                ++ match cb with
                   | GoForward => [(next_handle t, slideshowIntervalMs)]
                   | UpdateClock => []
                   end)%list).
  { intros cb. unfold running. cbn [intervals]. rewrite flat_map_app.
    now destruct cb. }
  split; [|split].
  - unfold tidy. cbn [next_handle intervals slideshowTimer].
    split; [lia|]. split; [|split].
    + rewrite map_app. cbn [map fst].
      apply NoDup_app; [exact Hnd|repeat constructor; auto|].
      intros x Hx [<-|[]]. apply in_map_iff in Hx as (y & Hy & Hin).
      rewrite Forall_forall in Hall. specialize (Hall y Hin). lia.
    + apply Forall_app. split.
      * eapply Forall_impl; [|exact Hall]. cbn. intros; lia.
      * repeat constructor; cbn; lia.
    + rewrite Hr, Hs. reflexivity.
  - reflexivity.
  - rewrite <- Hc. specialize (Hr UpdateClock).
    rewrite app_nil_r in Hr. exact Hr.
Qed.

(** X16: the slideshow never leaks a timer. From the loaded script,
    after any sequence of startSlideshow and stopSlideshow calls there
    is at most one interval that calls goForward: exactly the one whose
    handle is in slideshowTimer, with the slideshow period, and none
    when the variable is null. The clock interval is never cleared. *)
Theorem slideshow_keeps_one_timer (h0 : nat) (calls : list Call) :
  (0 < h0)%nat ->
  let t := fold_left call calls (loaded h0) in
  match slideshowTimer t with
  | Some h => running GoForward t = [(h, slideshowIntervalMs)]
  | None => running GoForward t = []
  end
  /\ running UpdateClock t = [(h0, 1000)]
  /\ running GoForward (stopSlideshow t) = []
  /\ running GoForward (startSlideshow t)
     = [(next_handle t, slideshowIntervalMs)].
Proof.
  intros H0 t.
  assert (Hl : tidy (loaded h0) /\ running UpdateClock (loaded h0)
                                   = [(h0, 1000)]).
  { unfold loaded, tidy. cbn. repeat split; try lia.
    - repeat constructor. intros [].
    - repeat constructor; cbn; lia. }
  assert (Hgen : forall cs t0,
             tidy t0 ->
             tidy (fold_left call cs t0)
             /\ running UpdateClock (fold_left call cs t0)
                = running UpdateClock t0).
  { induction cs as [|c cs IH]; intros t0 Ht0; [now split|].
    cbn [fold_left]. destruct c; cbn [call].
    - destruct (startSlideshow_tidy t0 Ht0) as (Ht' & _ & Hc).
      destruct (IH _ Ht') as [IH1 IH2]. split; [exact IH1|congruence].
    - destruct (stopSlideshow_tidy t0 Ht0) as (Ht' & _ & _ & Hc).
      destruct (IH _ Ht') as [IH1 IH2]. split; [exact IH1|congruence]. }
  destruct Hl as [Hl Hclock].
  destruct (Hgen calls _ Hl) as [Ht Hc]. fold t in Ht, Hc.
  split; [apply Ht|]. split; [congruence|]. split.
  - destruct (stopSlideshow_tidy t Ht) as ((_ & _ & _ & Hs) & Hnone & _).
    now rewrite Hnone in Hs.
  - destruct (startSlideshow_tidy t Ht) as ((_ & _ & _ & Hs) & Hsome & _).
    now rewrite Hsome in Hs.
Qed.

Lemma slideshow_keeps_one_timer_witness :
  running UpdateClock (fold_left call [Start; Start; Stop; Start] (loaded 1))
  = [(1%nat, 1000)].
Proof.
  apply (slideshow_keeps_one_timer 1 [Start; Start; Stop; Start]).
  lia.
Defined.

End PageFacts.

(* ================================================================== *)
(** * Further properties of setAttribute                               *)
(* ================================================================== *)

Section AttributeMore.
Import Js Attribute Inspect.

Lemma call_onError_quiet (o : SetAttributesOptions) (e : Exn) :
  flat_map announced (trace (call_onError o e)) = []
  /\ filter is_write (trace (call_onError o e)) = [].
Proof. unfold call_onError. now destruct (onError o). Qed.

(** The body of a round for a name that passes the filters: it does
    not return from the function and announces nothing. *)
Lemma attempt_allowed (dom : Dom) (o : SetAttributesOptions)
    (k : string) (v : JsVal) (setted : Attrs) :
  shouldSetAttribute o (final_name o k) = true ->
  flat_map announced (trace (attempt dom o k v setted)) = []
  /\ outcome (attempt dom o k v setted) <> Ok Return.
Proof.
  intros Ha. unfold attempt. fold (final_name o k). rewrite Ha.
  cbn [negb]. unfold perform, when, emit, ret, throw, bind.
  destruct (validate o) as [f|]; [destruct (f _ _) as [[|]|e]|];
    cbn [negb]; try (split; [reflexivity|discriminate]);
    (destruct (transformValue o) as [g|]; [destruct (g _ _) as [w|e]|]);
    try (split; [reflexivity|discriminate]);
    destruct (is_data_name _);
    try destruct (dataset_set dom _ _) as [[]|e];
    try destruct (element_setAttribute dom _ _) as [[]|e];
    destruct (logging o);
    (split; [reflexivity|discriminate]).
Qed.

Lemma round_allowed (dom : Dom) (o : SetAttributesOptions)
    (k : string) (v : JsVal) (setted : Attrs) :
  onError_total o ->
  shouldSetAttribute o (final_name o k) = true ->
  exists t setted',
    round dom o k v setted = (t, Ok (Continue setted'))
    /\ flat_map announced t = [].
Proof.
  intros Ho Ha. destruct (attempt_allowed dom o k v setted Ha) as [Hq Hr].
  destruct (outcome (attempt dom o k v setted)) as [[|setted']|e] eqn:E.
  - congruence.
  - unfold round, try_catch.
    destruct (attempt dom o k v setted) as [t r]. cbn in *. subst r.
    now exists t, setted'.
  - rewrite (round_caught dom o k v setted e Ho E).
    eexists _, _. split; [reflexivity|].
    rewrite flat_map_app, Hq. unfold delivered. now destruct (onError o).
Qed.

Lemma rounds_allowed (dom : Dom) (o : SetAttributesOptions)
    (pre : list (string * JsVal)) :
  onError_total o ->
  Forall (fun kv => shouldSetAttribute o (final_name o (fst kv)) = true)
    pre ->
  forall setted, exists t setted',
    rounds dom o pre setted = (t, Ok (Some setted'))
    /\ flat_map announced t = []
    /\ forall rest,
         rounds dom o (pre ++ rest) setted
         = ((t ++ trace (rounds dom o rest setted'))%list,
            outcome (rounds dom o rest setted')).
Proof.
  intros Ho. induction 1 as [|[k v] pre Hk Hpre IH]; intros setted.
  - exists [], setted. split; [reflexivity|]. split; [reflexivity|].
    intros rest. cbn [app]. now destruct (rounds dom o rest setted).
  - destruct (round_allowed dom o k v setted Ho Hk) as (t1 & s1 & Hr & Hq1).
    destruct (IH s1) as (t2 & s2 & Hrs & Hq2 & Happ).
    exists (t1 ++ t2)%list, s2. cbn [rounds app]. rewrite Hr.
    cbn [bind]. rewrite Hrs. split; [reflexivity|]. split.
    + now rewrite flat_map_app, Hq1, Hq2.
    + intros rest. rewrite Happ. now rewrite app_assoc.
Qed.

(** X17: a filtered name ends the whole call. When the attribute object
    lists, after names that pass the whitelist and blacklist, a name that
    does not, setAttribute returns right there: the attributes after it
    are never looked at and onAttributeSet is not called, although the
    ones before it were set. *)
Theorem skipped_attribute_ends_the_call (dom : Dom) (tag : string)
    (o : SetAttributesOptions) (pre post : list (string * JsVal))
    (k : string) (v : JsVal) :
  onError_total o ->
  Forall (fun kv => shouldSetAttribute o (final_name o (fst kv)) = true)
    pre ->
  shouldSetAttribute o (final_name o k) = false ->
  setAttribute dom (HTMLElement tag) (VObject (pre ++ (k, v) :: post)) o
  = ((trace (rounds dom o pre []) ++ skip_log o k)%list, Ok tt)
  /\ flat_map announced
       (trace (setAttribute dom (HTMLElement tag)
                 (VObject (pre ++ (k, v) :: post)) o)) = [].
Proof.
  intros Ho Hpre Hk.
  destruct (rounds_allowed dom o pre Ho Hpre []) as (t & s' & Hr & Hq & Happ).
  assert (Hskip : rounds dom o ((k, v) :: post) s' = (skip_log o k, Ok None)).
  { cbn [rounds]. unfold round, attempt. fold (final_name o k).
    rewrite Hk. cbn [negb]. unfold skip_log, when.
    destruct (logging o); reflexivity. }
  assert (H : setAttribute dom (HTMLElement tag)
                (VObject (pre ++ (k, v) :: post)) o
              = ((t ++ skip_log o k)%list, Ok tt)).
  { unfold setAttribute. cbn [typeof_object negb object_entries].
    rewrite !bind_pure, Happ, Hskip. cbn [trace outcome fst snd].
    unfold bind, try_catch, ret. now rewrite !app_nil_r. }
  rewrite H, Hr. split; [reflexivity|].
  cbn [trace fst]. rewrite flat_map_app, Hq.
  unfold skip_log. now destruct (logging o).
Qed.

Lemma skipped_attribute_ends_the_call_witness :
  flat_map announced
    (trace (setAttribute (mkDom (fun _ _ => Ok tt) (fun _ _ => Ok tt))
              (HTMLElement "img")
              (VObject ([("src", VStr "a.png")]
                        ++ ("id", VStr "x") :: [("alt", VStr "y")]))
              (mkOptions (Some ["src"; "alt"]) None None None None
                 (Some (fun _ => Ok tt)) None None)))
  = [].
Proof.
  apply (skipped_attribute_ends_the_call
           (mkDom (fun _ _ => Ok tt) (fun _ _ => Ok tt)) "img"
           (mkOptions (Some ["src"; "alt"]) None None None None
              (Some (fun _ => Ok tt)) None None)
           [("src", VStr "a.png")] [("alt", VStr "y")] "id" (VStr "x")).
  - intros f H. discriminate H.
  - repeat constructor.
  - reflexivity.
Defined.

(** One round without filters, validator or transform: the write, and
    the entry kept when the write did not throw. *)
Lemma round_unfiltered (dom : Dom) (o : SetAttributesOptions)
    (k : string) (v : JsVal) (setted : Attrs) :
  onError_total o ->
  unfiltered o ->
  exists t,
    round dom o k v setted = (t, Ok (Continue (kept dom o [(k, v)] setted)))
    /\ filter is_write t = [write_of (final_name o k) v]
    /\ flat_map announced t = [].
Proof.
  intros Ho (Hw & Hb & Hv & Ht).
  unfold round, attempt, kept, write_of, write_result.
  fold (final_name o k). unfold shouldSetAttribute.
  rewrite Hw, Hb, Hv, Ht. cbn [negb fold_left fst snd].
  unfold ret. rewrite !bind_pure.
  unfold perform, when, emit, ret, bind, try_catch, throw.
  cbn [negb app].
  assert (He : forall e, exists t,
             call_onError o e = (t, Ok tt)
             /\ filter is_write t = [] /\ flat_map announced t = []).
  { intros e. rewrite call_onError_delivers by assumption.
    eexists. split; [reflexivity|]. unfold delivered.
    destruct (onError o); now split. }
  destruct (is_data_name (final_name o k)).
  - destruct (dataset_set dom _ v) as [[]|e]; cbn [throws app].
    + destruct (logging o); eexists; repeat split.
    + destruct (He e) as (t & -> & H1 & H2). cbn [app].
      eexists. split; [reflexivity|]. cbn [filter is_write flat_map announced
                                            app].
      now rewrite app_nil_r, H1, H2.
  - destruct (element_setAttribute dom _ v) as [[]|e]; cbn [throws app].
    + destruct (logging o); eexists; repeat split.
    + destruct (He e) as (t & -> & H1 & H2). cbn [app].
      eexists. split; [reflexivity|]. cbn [filter is_write flat_map announced
                                            app].
      now rewrite app_nil_r, H1, H2.
Qed.

Lemma rounds_unfiltered (dom : Dom) (o : SetAttributesOptions)
    (entries : list (string * JsVal)) :
  onError_total o ->
  unfiltered o ->
  forall setted, exists t,
    rounds dom o entries setted = (t, Ok (Some (kept dom o entries setted)))
    /\ filter is_write t
       = map (fun kv => write_of (final_name o (fst kv)) (snd kv)) entries
    /\ flat_map announced t = [].
Proof.
  intros Ho Hu. induction entries as [|[k v] entries IH]; intros setted.
  - exists []. now repeat split.
  - destruct (round_unfiltered dom o k v setted Ho Hu) as (t1 & Hr & Hw1 & Hq1).
    destruct (IH (kept dom o [(k, v)] setted)) as (t2 & Hrs & Hw2 & Hq2).
    exists (t1 ++ t2)%list. cbn [rounds]. rewrite Hr. cbn [bind].
    rewrite Hrs. split; [reflexivity|]. split.
    + rewrite filter_app, Hw1, Hw2. reflexivity.
    + now rewrite flat_map_app, Hq1, Hq2.
Qed.

(** X18: without a whitelist, blacklist, validator or transform, every
    attribute of the object is written to the element once, in order,
    whether or not an earlier write threw; and onAttributeSet is called
    once, with exactly the attributes whose write did not throw. *)
Theorem onAttributeSet_gets_what_was_set (dom : Dom) (tag : string)
    (o : SetAttributesOptions) (entries : list (string * JsVal))
    (f : Attrs -> Result unit) :
  onError_total o ->
  unfiltered o ->
  onAttributeSet o = Some f ->
  filter is_write
    (trace (setAttribute dom (HTMLElement tag) (VObject entries) o))
  = map (fun kv => write_of (final_name o (fst kv)) (snd kv)) entries
  /\ flat_map announced
       (trace (setAttribute dom (HTMLElement tag) (VObject entries) o))
     = [kept dom o entries []].
Proof.
  intros Ho Hu Hf.
  destruct (rounds_unfiltered dom o entries Ho Hu []) as (t & Hr & Hw & Hq).
  unfold setAttribute. cbn [typeof_object negb object_entries].
  unfold ret. rewrite !bind_pure, Hr. unfold call_onAttributeSet.
  rewrite Hf. unfold perform, bind, try_catch.
  destruct (f (kept dom o entries [])) as [[]|e]; cbn [trace fst].
  - rewrite filter_app, flat_map_app, Hw, Hq. cbn. now rewrite app_nil_r.
  - destruct (call_onError_quiet o e) as [H1 H2].
    destruct (call_onError o e) as [t' r']. cbn [trace fst] in *.
    rewrite !filter_app, !flat_map_app, Hw, Hq, H1, H2. cbn.
    now rewrite !app_nil_r.
Qed.

Lemma onAttributeSet_gets_what_was_set_witness :
  flat_map announced
    (trace (setAttribute
              (mkDom (fun _ _ => Ok tt)
                 (fun name _ =>
                    if (name =? "a b")%string
                    then Throw (mkExn "InvalidCharacterError" "bad name")
                    else Ok tt))
              (HTMLElement "img")
              (VObject [("src", VStr "a.png"); ("a b", VStr "x");
                        ("data-kind", VNumber (Num 3))])
              (mkOptions None None None None None (Some (fun _ => Ok tt))
                 None None)))
  = [[("src", VStr "a.png"); ("data-kind", VNumber (Num 3))]].
Proof.
  apply (onAttributeSet_gets_what_was_set
           (mkDom (fun _ _ => Ok tt)
              (fun name _ =>
                 if (name =? "a b")%string
                 then Throw (mkExn "InvalidCharacterError" "bad name")
                 else Ok tt))
           "img"
           (mkOptions None None None None None (Some (fun _ => Ok tt))
              None None)
           [("src", VStr "a.png"); ("a b", VStr "x");
            ("data-kind", VNumber (Num 3))]
           (fun _ => Ok tt)).
  - intros f H. discriminate H.
  - now repeat split.
  - reflexivity.
Defined.



End AttributeMore.

(* ================================================================== *)
(** * Properties of the other attribute functions                      *)
(* ================================================================== *)

Section AttributesFacts.
Import Js Dom Attributes.

(** ** Attribute lists *)

Lemma lookup_In (n : string) (l : AttrList) (v : string) :
  lookup n l = Some v -> In (n, v) l.
Proof.
  induction l as [|[k w] l IH]; cbn; [discriminate|].
  destruct (k =? n)%string eqn:E.
  - apply String.eqb_eq in E. intros H. injection H as <-. subst. now left.
  - intros H. right. now apply IH.
Qed.

Lemma In_lookup (n v : string) (l : AttrList) :
  NoDup (map fst l) -> In (n, v) l -> lookup n l = Some v.
Proof.
  induction l as [|[k w] l IH]; cbn; [contradiction|].
  intros Hnd [H|H]; inversion Hnd as [|? ? Hn Hnd']; subst.
  - injection H as -> ->. now rewrite String.eqb_refl.
  - destruct (k =? n)%string eqn:E; [|now apply IH].
    apply String.eqb_eq in E. subst. exfalso. apply Hn.
    change n with (fst (n, v)). now apply in_map.
Qed.

Lemma lookup_None (n : string) (l : AttrList) :
  lookup n l = None <-> ~ In n (map fst l).
Proof.
  induction l as [|[k w] l IH]; cbn; [tauto|].
  destruct (k =? n)%string eqn:E.
  - apply String.eqb_eq in E. split; [discriminate|]. intros H.
    exfalso. apply H. now left.
  - apply String.eqb_neq in E. rewrite IH. tauto.
Qed.

Lemma remove_names (n m : string) (l : AttrList) :
  In m (map fst (remove n l)) -> In m (map fst l).
Proof.
  induction l as [|[k w] l IH]; cbn; [tauto|].
  destruct (k =? n)%string; cbn; tauto.
Qed.

Lemma remove_NoDup (n : string) (l : AttrList) :
  NoDup (map fst l) -> NoDup (map fst (remove n l)).
Proof.
  induction l as [|[k w] l IH]; cbn; [auto|].
  intros Hnd. inversion Hnd as [|? ? Hn Hnd']; subst.
  destruct (k =? n)%string; cbn; [assumption|].
  constructor; [|now apply IH]. intros H. apply Hn.
  now apply remove_names in H.
Qed.

Lemma lookup_remove_same (n : string) (l : AttrList) :
  NoDup (map fst l) -> lookup n (remove n l) = None.
Proof.
  induction l as [|[k w] l IH]; cbn; [reflexivity|].
  intros Hnd. inversion Hnd as [|? ? Hn Hnd']; subst.
  destruct (k =? n)%string eqn:E.
  - apply String.eqb_eq in E. subst. now apply lookup_None.
  - cbn. rewrite E. now apply IH.
Qed.

Lemma lookup_remove_other (n m : string) (l : AttrList) :
  m <> n -> lookup m (remove n l) = lookup m l.
Proof.
  intros Hmn. induction l as [|[k w] l IH]; cbn; [reflexivity|].
  destruct (k =? n)%string eqn:E.
  - apply String.eqb_eq in E. subst.
    destruct (n =? m)%string eqn:E'; [|reflexivity].
    apply String.eqb_eq in E'. congruence.
  - cbn. now rewrite IH.
Qed.

Lemma remove_absent (n : string) (l : AttrList) :
  lookup n l = None -> remove n l = l.
Proof.
  induction l as [|[k w] l IH]; cbn; [reflexivity|].
  destruct (k =? n)%string; [discriminate|]. intros H. now rewrite IH.
Qed.


Lemma change_absent (n v : string) (l : AttrList) :
  lookup n l = None -> change n v l = (l ++ [(n, v)])%list.
Proof.
  induction l as [|[k w] l IH]; cbn; [reflexivity|].
  destruct (k =? n)%string; [discriminate|]. intros H. now rewrite IH.
Qed.

Lemma lookup_change (n m v : string) (l : AttrList) :
  lookup m (change n v l) = if (n =? m)%string then Some v else lookup m l.
Proof.
  induction l as [|[k w] l IH]; cbn.
  - reflexivity.
  - destruct (k =? n)%string eqn:E; cbn.
    + apply String.eqb_eq in E. subst. now destruct (n =? m)%string.
    + rewrite IH. destruct (k =? m)%string eqn:E'; [|reflexivity].
      apply String.eqb_eq in E'. subst.
      rewrite String.eqb_sym in E. now rewrite E.
Qed.

Lemma change_names (n v m : string) (l : AttrList) :
  In m (map fst (change n v l)) <-> m = n \/ In m (map fst l).
Proof.
  induction l as [|[k w] l IH]; cbn.
  - intuition congruence.
  - destruct (k =? n)%string eqn:E; cbn.
    + apply String.eqb_eq in E. subst. intuition congruence.
    + rewrite IH. intuition congruence.
Qed.

Lemma change_NoDup (n v : string) (l : AttrList) :
  NoDup (map fst l) -> NoDup (map fst (change n v l)).
Proof.
  induction l as [|[k w] l IH]; cbn; [repeat constructor; auto|].
  intros Hnd. inversion Hnd as [|? ? Hn Hnd']; subst.
  destruct (k =? n)%string eqn:E; cbn; [assumption|].
  constructor; [|now apply IH]. rewrite change_names.
  apply String.eqb_neq in E. intros [H|H]; auto.
Qed.

Lemma remove_appended (n v : string) (l : AttrList) :
  lookup n l = None -> remove n (l ++ [(n, v)])%list = l.
Proof.
  induction l as [|[k w] l IH]; cbn.
  - now rewrite String.eqb_refl.
  - destruct (k =? n)%string; [discriminate|]. intros H. now rewrite IH.
Qed.

(** ** The element check *)

(** X20: what an argument that is no element does. removeAttribute,
    getAttribute, getAllAttributes, hasAttribute, toggleAttribute,
    removeAllAttributes, attributesToQueryString and copyAttributes (for
    either argument) throw Error("Invalid HTMLElement provided.") to the
    caller before doing anything; compareAttributes and
    removeAttributesByPrefix instead log one console.error and return,
    the former with an empty object. *)
Theorem element_check_throws (valid blank : string -> bool) (v : JsVal)
    (name : string) (value : JsVal) (other : Node)
    (g : option GetAttributeOptions) (c : CompareAttributesOptions)
    (prefixes : list string) (r : RemoveAttributesByPrefixOptions) :
  removeAttribute (NonElement v) name = ([], Throw invalid_element)
  /\ getAttribute (NonElement v) name g = ([], Throw invalid_element)
  /\ getAllAttributes (NonElement v) = ([], Throw invalid_element)
  /\ hasAttribute (NonElement v) name = ([], Throw invalid_element)
  /\ toggleAttribute valid (NonElement v) name value
     = ([], Throw invalid_element)
  /\ removeAllAttributes (NonElement v) = ([], Throw invalid_element)
  /\ attributesToQueryString (NonElement v) = ([], Throw invalid_element)
  /\ copyAttributes valid (NonElement v) other = ([], Throw invalid_element)
  /\ copyAttributes valid other (NonElement v) = ([], Throw invalid_element)
  /\ compareAttributes (NonElement v) other c
     = ([LogError ("Error comparing attributes: "
                   ++ "Both el1 and el2 must be valid HTMLElements.")], no_diff)
  /\ compareAttributes other (NonElement v) c
     = ([LogError ("Error comparing attributes: "
                   ++ "Both el1 and el2 must be valid HTMLElements.")], no_diff)
  /\ removeAttributesByPrefix blank (NonElement v) prefixes r
     = ([LogError ("Error while removing attributes by prefix: "
                   ++ "Provided element is not a valid HTMLElement.")], []).
Proof.
  repeat split; try reflexivity; now destruct other.
Qed.

(** ** removeAttribute, removeAttributesByName *)

(** X21: removeAttribute removes just the named attribute. For a name
    that does not start with data-, on an element with distinct attribute
    names, the attribute is gone afterwards and every other attribute
    reads as before; when the element has no such attribute nothing
    changes and one warning is logged. *)
Theorem removeAttribute_removes (tag : string) (l : AttrList)
    (name : string) :
  NoDup (map fst l) ->
  Attribute.is_data_name name = false ->
  exists l',
    outcome (removeAttribute (HtmlElement tag l) name) = Ok l'
    /\ Dom.hasAttribute name l' = false
    /\ (forall m, lower m <> lower name ->
          Dom.getAttribute m l' = Dom.getAttribute m l)
    /\ (Dom.hasAttribute name l = false ->
        l' = l
        /\ trace (removeAttribute (HtmlElement tag l) name)
           = [Warn ("Attribute " ++ quote ++ name ++ quote
                    ++ " does not exist on")]).
Proof.
  intros Hnd Hd. unfold removeAttribute. rewrite Hd.
  destruct (Dom.hasAttribute name l) eqn:E.
  - exists (Dom.removeAttribute name l). split; [reflexivity|].
    unfold Dom.hasAttribute, Dom.getAttribute, Dom.removeAttribute.
    rewrite lookup_remove_same by assumption.
    repeat split; try discriminate.
    intros m Hm. now apply lookup_remove_other.
  - exists l. repeat split; auto.
Qed.

Lemma removeAttribute_removes_witness :
  exists l',
    outcome (removeAttribute
               (HtmlElement "img" [("src", "a.png"); ("alt", "x")]) "SRC")
    = Ok l'
    /\ Dom.hasAttribute "SRC" l' = false
    /\ (forall m, lower m <> lower "SRC" ->
          Dom.getAttribute m l'
          = Dom.getAttribute m [("src", "a.png"); ("alt", "x")])
    /\ (Dom.hasAttribute "SRC" [("src", "a.png"); ("alt", "x")] = false ->
        l' = [("src", "a.png"); ("alt", "x")]
        /\ trace (removeAttribute
                    (HtmlElement "img" [("src", "a.png"); ("alt", "x")])
                    "SRC")
           = [Warn ("Attribute " ++ quote ++ "SRC" ++ quote
                    ++ " does not exist on")]).
Proof.
  apply (removeAttribute_removes "img" [("src", "a.png"); ("alt", "x")]
           "SRC").
  - repeat constructor; cbn; intuition discriminate.
  - reflexivity.
Defined.

Lemma removeAttributesByName_spec (names : list string) :
  forall l : AttrList,
    NoDup (map fst l) ->
    NoDup (map fst (removeAttributesByName l names))
    /\ forall m,
         Dom.getAttribute m (removeAttributesByName l names)
         = if existsb (fun n => (lower n =? lower m)%string) names
           then None else Dom.getAttribute m l.
Proof.
  unfold removeAttributesByName, Dom.getAttribute, Dom.removeAttribute.
  induction names as [|n names IH]; intros l Hnd; [now split|].
  cbn [fold_left existsb].
  destruct (IH (remove (lower n) l) (remove_NoDup _ _ Hnd)) as [H1 H2].
  split; [exact H1|]. intros m. rewrite H2.
  destruct (existsb _ names); [now rewrite orb_true_r|].
  rewrite orb_false_r. destruct (lower n =? lower m)%string eqn:E.
  - apply String.eqb_eq in E. rewrite <- E.
    now apply lookup_remove_same.
  - apply String.eqb_neq in E. apply lookup_remove_other. congruence.
Qed.

(** X22: removeAttributesByName removes exactly the named attributes.
    On an element with distinct attribute names, an attribute reads as
    missing afterwards when its name is among the arguments (compared
    without regard to ASCII case), and as before otherwise. *)
Theorem removeAttributesByName_removes_exactly (l : AttrList)
    (names : list string) (m : string) :
  NoDup (map fst l) ->
  Dom.getAttribute m (removeAttributesByName l names)
  = if existsb (fun n => (lower n =? lower m)%string) names
    then None else Dom.getAttribute m l.
Proof. intros Hnd. now apply removeAttributesByName_spec. Qed.

Lemma removeAttributesByName_removes_exactly_witness :
  Dom.getAttribute "alt"
    (removeAttributesByName [("src", "a.png"); ("alt", "x"); ("id", "i")]
       ["ALT"; "id"])
  = None.
Proof.
  apply (removeAttributesByName_removes_exactly
           [("src", "a.png"); ("alt", "x"); ("id", "i")] ["ALT"; "id"]
           "alt").
  repeat constructor; cbn; intuition discriminate.
Defined.

(** ** attributesToQueryString, getAttributesByPrefix *)

(** X23: attributesToQueryString writes the attributes the way get and
    deleteRequest write query data: the result is the query string of
    the attributes taken as an object, made of unreserved characters,
    %XX escapes, = and & only. *)
Theorem attributesToQueryString_is_a_query (tag : string) (l : AttrList) :
  attributesToQueryString (HtmlElement tag l)
  = ([], Ok (Ajax.queryString (map (fun a => (fst a, VStr (snd a))) l)))
  /\ all_chars query_char
       (Ajax.queryString (map (fun a => (fst a, VStr (snd a))) l)) = true.
Proof.
  split; [|apply queryString_chars].
  unfold attributesToQueryString, Ajax.queryString, ret.
  now rewrite map_map.
Qed.

(** *** The keys of an object filled by assignment *)

Lemma array_index_canonical (key : string) (i : Z) :
  array_index key = Some i -> string_of_Z i = key.
Proof.
  unfold array_index.
  destruct (NilEmpty.uint_of_string key) as [d|]; [|discriminate].
  cbv zeta.
  destruct (string_of_Z (Z.of_uint d) =? key)%string eqn:E; [|discriminate].
  destruct (Z.of_uint d <? 4294967295); [|discriminate].
  intros H. injection H as <-. now apply String.eqb_eq.
Qed.

Lemma has_own_In {V : Type} (props : Props V) (key : string) :
  has_own props key = true <-> In key (map fst props).
Proof.
  induction props as [|[k w] props IH]; cbn; [intuition discriminate|].
  rewrite orb_true_iff, IH, String.eqb_eq. tauto.
Qed.

Lemma update_keys {V : Type} (props : Props V) (key : string) (value : V) :
  map fst (update props key value) = map fst props.
Proof.
  induction props as [|[k w] props IH]; cbn; [reflexivity|].
  destruct (k =? key)%string; cbn; [reflexivity|now rewrite IH].
Qed.

Lemma insert_index_perm {V : Type} (i : Z) (key : string) (value : V)
    (props : Props V) :
  Permutation (insert_index i key value props) ((key, value) :: props).
Proof.
  induction props as [|[k w] props IH]; cbn; [reflexivity|].
  destruct (array_index k) as [j|]; [|reflexivity].
  destruct (j <? i); [|reflexivity].
  rewrite IH. apply perm_swap.
Qed.

Lemma define_keys {V : Type} (props : Props V) (key : string) (value : V)
    (m : string) :
  In m (map fst (define props key value)) <-> m = key \/ In m (map fst props).
Proof.
  unfold define. destruct (has_own props key) eqn:E.
  - rewrite update_keys. apply has_own_In in E.
    split; [auto|]. now intros [->|H].
  - destruct (array_index key) as [i|].
    + pose proof (Permutation_map fst (insert_index_perm i key value props))
        as Hp. cbn [map fst] in Hp. split; intros H.
      * apply (Permutation_in _ Hp) in H. cbn in H. intuition congruence.
      * apply (Permutation_in _ (Permutation_sym Hp)). cbn.
        intuition congruence.
    + rewrite map_app, in_app_iff. cbn. intuition congruence.
Qed.

Lemma insert_index_app (i : Z) (key value : string) (ints strs : Obj) :
  Forall (fun a => is_index (fst a) = false) strs ->
  insert_index i key value (ints ++ strs)%list
  = (insert_index i key value ints ++ strs)%list.
Proof.
  intros Hs. induction ints as [|[k w] ints IH]; cbn.
  - destruct strs as [|[k w] strs]; [reflexivity|].
    inversion Hs as [|? ? Hk _]; subst. unfold is_index in Hk. cbn in Hk.
    cbn. now destruct (array_index k).
  - destruct (array_index k) as [j|]; [|reflexivity].
    destruct (j <? i); [|reflexivity]. now rewrite IH.
Qed.

Lemma insert_index_sorted (i : Z) (key value : string) (ints : Obj) :
  Forall (fun a => is_index (fst a) = true) ints ->
  StronglySorted
    (fun a b : string * string => index_ltb (fst a) (fst b) = true) ints ->
  array_index key = Some i ->
  ~ In key (map fst ints) ->
  StronglySorted
    (fun a b : string * string => index_ltb (fst a) (fst b) = true) (insert_index i key value ints).
Proof.
  intros Hi Hs Ei. induction ints as [|[k w] ints IH]; intros Hfresh; cbn.
  - repeat constructor.
  - inversion Hi as [|? ? Hk Hi']; subst.
    inversion Hs as [|? ? Hs' Hall]; subst.
    unfold is_index in Hk. cbn [fst] in Hk.
    destruct (array_index k) as [j|] eqn:Ej; [|discriminate].
    cbn [map fst In] in Hfresh.
    destruct (j <? i) eqn:Elt.
    + constructor; [apply IH; tauto|].
      apply (Permutation_Forall
               (Permutation_sym (insert_index_perm i key value ints))).
      constructor; [|exact Hall].
      cbn [fst]. unfold index_ltb. now rewrite Ej, Ei.
    + assert (Hij : i < j).
      { apply Z.ltb_ge in Elt.
        assert (i <> j); [|lia]. intros ->.
        apply array_index_canonical in Ei, Ej. apply Hfresh. left.
        congruence. }
      constructor; [now constructor|]. constructor.
      * cbn [fst]. unfold index_ltb. rewrite Ei, Ej. now apply Z.ltb_lt.
      * revert Hall. apply Forall_impl. intros [x y]. cbn [fst].
        unfold index_ltb. rewrite Ei, Ej.
        destruct (array_index x) as [h|]; [|discriminate].
        rewrite !Z.ltb_lt. lia.
Qed.

Lemma assign_eq (obj : Obj) (k v : string) :
  assign obj k v
  = if (k =? "__proto__")%string then obj else define obj k v.
Proof. unfold assign, assign_to. now destruct (k =? "__proto__")%string. Qed.

Lemma getAttributesByPrefix_fold (prefix : string) (l : AttrList) :
  forall ints strs : Obj,
    Forall (fun a => is_index (fst a) = true) ints ->
    Forall (fun a => is_index (fst a) = false) strs ->
    StronglySorted
    (fun a b : string * string => index_ltb (fst a) (fst b) = true) ints ->
    NoDup (map fst ints ++ map fst strs ++ map fst l) ->
    exists indices,
      fold_left
        (fun result a =>
           if String.prefix prefix (fst a) then assign result (fst a) (snd a)
           else result)
        l (ints ++ strs)%list
      = (indices ++ strs
         ++ filter (fun a => String.prefix prefix (fst a)
                             && negb (is_index (fst a))
                             && negb (fst a =? "__proto__")%string) l)%list
      /\ Permutation indices
           (ints ++ filter (fun a => String.prefix prefix (fst a)
                                     && is_index (fst a)) l)
      /\ StronglySorted
    (fun a b : string * string => index_ltb (fst a) (fst b) = true) indices.
Proof.
  induction l as [|[n v] l IH]; intros ints strs Hi Hstr Hs Hnd.
  - exists ints. cbn. rewrite !app_nil_r. auto.
  - cbn [fold_left filter fst snd].
    assert (Hnd' : NoDup (map fst ints ++ map fst strs ++ map fst l)
                   /\ ~ In n (map fst (ints ++ strs)%list)).
    { cbn [map fst] in Hnd. rewrite app_assoc in Hnd.
      apply NoDup_remove in Hnd as [Hnd Hn]. rewrite <- app_assoc in Hnd.
      split; [exact Hnd|]. rewrite map_app. intros H. apply Hn.
      apply in_or_app. now left. }
    destruct Hnd' as [Hnd' Hfresh].
    destruct (String.prefix prefix n); cbn [andb];
      [|now apply IH].
    rewrite assign_eq.
    destruct (n =? "__proto__")%string eqn:Ep.
    { apply String.eqb_eq in Ep. subst n.
      change (is_index "__proto__") with false. cbn [negb andb].
      now apply IH. }
    cbn [negb]. rewrite andb_true_r.
    unfold define.
    destruct (has_own (ints ++ strs)%list n) eqn:Eh;
      [apply has_own_In in Eh; contradiction|].
    unfold is_index. destruct (array_index n) as [i|] eqn:Ei; cbn [negb].
    + rewrite insert_index_app by assumption.
      assert (Hfi : ~ In n (map fst ints)).
      { intros H. apply Hfresh. rewrite map_app. apply in_or_app. now left. }
      pose proof (insert_index_perm i n v ints) as Hp.
      destruct (IH (insert_index i n v ints) strs) as (ix & Hf & Hperm & Hsx).
      * apply (Permutation_Forall (Permutation_sym Hp)).
        constructor; [|exact Hi]. cbn [fst]. unfold is_index. now rewrite Ei.
      * exact Hstr.
      * now apply insert_index_sorted.
      * cbn [map fst] in Hnd. revert Hnd. apply Permutation_NoDup.
        rewrite (Permutation_map fst Hp). cbn [map fst].
        rewrite !app_assoc. symmetry. apply Permutation_middle.
      * exists ix. split; [exact Hf|]. split; [|exact Hsx].
        rewrite Hperm, Hp. apply Permutation_middle.
    + rewrite <- app_assoc.
      destruct (IH ints (strs ++ [(n, v)])%list) as (ix & Hf & Hperm & Hsx).
      * exact Hi.
      * apply Forall_app. split; [exact Hstr|].
        constructor; [|constructor]. cbn [fst]. unfold is_index.
        now rewrite Ei.
      * exact Hs.
      * rewrite map_app, <- app_assoc. exact Hnd.
      * exists ix. rewrite <- !app_assoc in Hf. auto.
Qed.

Lemma filter_none {A : Type} (f : A -> bool) (l : list A) :
  (forall a, In a l -> f a = false) -> filter f l = [].
Proof.
  induction l as [|a l IH]; intros H; [reflexivity|]. cbn.
  rewrite (H a (or_introl eq_refl)). apply IH. intros; apply H; now right.
Qed.

Lemma getAttributesByPrefix_order (l : AttrList) (prefix : string) :
  NoDup (map fst l) ->
  exists indices,
    getAttributesByPrefix l prefix
    = (indices
       ++ filter (fun a => String.prefix prefix (fst a)
                           && negb (is_index (fst a))
                           && negb (fst a =? "__proto__")%string) l)%list
    /\ Permutation indices
         (filter (fun a => String.prefix prefix (fst a) && is_index (fst a)) l)
    /\ StronglySorted
    (fun a b : string * string => index_ltb (fst a) (fst b) = true) indices.
Proof.
  intros Hnd.
  destruct (getAttributesByPrefix_fold prefix l [] [])
    as (ix & Hf & Hp & Hs); try constructor; [exact Hnd|].
  exists ix. auto.
Qed.

Lemma getAttributesByPrefix_ordinary (l : AttrList) (prefix : string) :
  NoDup (map fst l) ->
  (forall a, In a l -> is_index (fst a) = false /\ fst a <> "__proto__") ->
  getAttributesByPrefix l prefix
  = filter (fun a => String.prefix prefix (fst a)) l.
Proof.
  intros Hnd Hord.
  destruct (getAttributesByPrefix_order l prefix Hnd) as (ix & -> & Hp & _).
  rewrite filter_none in Hp.
  - apply Permutation_sym, Permutation_nil in Hp. subst ix. cbn [app].
    apply filter_ext_in. intros a Ha. destruct (Hord a Ha) as [Hi Hn].
    rewrite Hi. apply String.eqb_neq in Hn. rewrite Hn.
    now rewrite !andb_true_r.
  - intros a Ha. destruct (Hord a Ha) as [Hi _]. rewrite Hi.
    apply andb_false_r.
Qed.

(** X24: the object getAttributesByPrefix returns, for an element with
    distinct attribute names. Its keys are the attribute names that
    start with the prefix, the name __proto__ left out (the assignment
    reaches the setter of Object.prototype, which ignores a string):
    first those that are array indices, in ascending numeric order, then
    the others in the order of the element. So when no attribute name is
    an array index or __proto__, the object lists exactly the attributes
    with the prefix in the order of the element, and with the empty
    prefix all of them. *)
Theorem getAttributesByPrefix_filters (l : AttrList) (prefix : string) :
  NoDup (map fst l) ->
  (exists indices,
     getAttributesByPrefix l prefix
     = (indices
        ++ filter (fun a => String.prefix prefix (fst a)
                            && negb (is_index (fst a))
                            && negb (fst a =? "__proto__")%string) l)%list
     /\ Permutation indices
          (filter (fun a => String.prefix prefix (fst a) && is_index (fst a))
             l)
     /\ StronglySorted
          (fun a b : string * string => index_ltb (fst a) (fst b) = true)
          indices)
  /\ ((forall a, In a l -> is_index (fst a) = false /\ fst a <> "__proto__") ->
      getAttributesByPrefix l prefix
      = filter (fun a => String.prefix prefix (fst a)) l
      /\ getAttributesByPrefix l "" = l).
Proof.
  intros Hnd. split; [now apply getAttributesByPrefix_order|].
  intros Hord. split; [now apply getAttributesByPrefix_ordinary|].
  rewrite getAttributesByPrefix_ordinary by assumption.
  apply filter_all. intros [n v] _. cbn. now destruct n.
Qed.

Lemma getAttributesByPrefix_filters_witness :
  exists indices,
    getAttributesByPrefix
      [("id", "a"); ("1", "x"); ("aria-a", "y"); ("0", "z")] ""
    = (indices
       ++ filter (fun a => String.prefix "" (fst a)
                           && negb (is_index (fst a))
                           && negb (fst a =? "__proto__")%string)
            [("id", "a"); ("1", "x"); ("aria-a", "y"); ("0", "z")])%list
    /\ Permutation indices
         (filter (fun a => String.prefix "" (fst a) && is_index (fst a))
            [("id", "a"); ("1", "x"); ("aria-a", "y"); ("0", "z")])
    /\ StronglySorted
         (fun a b : string * string => index_ltb (fst a) (fst b) = true)
         indices.
Proof.
  apply (getAttributesByPrefix_filters
           [("id", "a"); ("1", "x"); ("aria-a", "y"); ("0", "z")] "").
  repeat constructor; cbn; intuition discriminate.
Defined.

(** The keys of <div id=a 1=x aria-a=y 0=z __proto__=p>, as
    [Object.keys] lists them. *)
Example getAttributesByPrefix_key_order :
  getAttributesByPrefix
    [("id", "a"); ("1", "x"); ("aria-a", "y"); ("0", "z"); ("__proto__", "p")]
    ""
  = [("0", "z"); ("1", "x"); ("id", "a"); ("aria-a", "y")].
Proof. reflexivity. Qed.

(** ** Data attributes *)

Lemma substring_all (s : string) : substring 0 (String.length s) s = s.
Proof. induction s as [|c s IH]; cbn; [|rewrite IH]; reflexivity. Qed.

Lemma data_name_parts (rest : string) :
  Attribute.is_data_name ("data-" ++ rest) = true
  /\ Attribute.slice5 ("data-" ++ rest) = rest.
Proof.
  unfold Attribute.is_data_name, Attribute.slice5. cbn.
  split; [now destruct rest|]. rewrite Nat.sub_0_r. apply substring_all.
Qed.

Lemma upper_is_no_lower (c : ascii) :
  is_lower c = true ->
  is_lower (to_upper c) = false /\ Ascii.eqb (to_upper c) "-" = false.
Proof.
  destruct c as [[] [] [] [] [] [] [] []]; cbn; intros H;
    try discriminate H; now split.
Qed.

(** The first character of a property name: that of the attribute name,
    or an uppercase letter. *)
Lemma camel_head (c : ascii) (rest : string) :
  exists c' r',
    camel (String c rest) = String c' r'
    /\ (c' = c \/ is_lower c' = false).
Proof.
  destruct rest as [|c2 r2]; cbn [camel].
  - eexists _, _. split; [reflexivity|now left].
  - destruct (Ascii.eqb c "-" && is_lower c2) eqn:E.
    + apply andb_prop in E as [_ E].
      eexists _, _. split; [reflexivity|right].
      now apply upper_is_no_lower.
    + eexists _, _. split; [reflexivity|now left].
Qed.

Lemma camel_has_no_hyphen_lower (n : nat) :
  forall s, (String.length s <= n)%nat -> has_hyphen_lower (camel s) = false.
Proof.
  induction n as [|n IH]; intros s Hn.
  - destruct s; [reflexivity|cbn in Hn; lia].
  - destruct s as [|a t]; [reflexivity|].
    destruct t as [|c rest]; [reflexivity|].
    cbn [String.length] in Hn.
    change (camel (String a (String c rest)))
      with (if Ascii.eqb a "-" && is_lower c
            then String (to_upper c) (camel rest)
            else String a (camel (String c rest))).
    destruct (Ascii.eqb a "-" && is_lower c) eqn:E.
    + apply andb_prop in E as [_ E].
      destruct (upper_is_no_lower c E) as [_ Hh].
      assert (Hr : has_hyphen_lower (camel rest) = false)
        by (apply IH; lia).
      destruct (camel rest) as [|c' r']; [reflexivity|].
      change (has_hyphen_lower (String (to_upper c) (String c' r')))
        with ((Ascii.eqb (to_upper c) "-" && is_lower c')
              || has_hyphen_lower (String c' r')).
      now rewrite Hh, Hr.
    + assert (Ht : has_hyphen_lower (camel (String c rest)) = false)
        by (apply IH; cbn; lia).
      destruct (camel_head c rest) as (c' & r' & Hc & Hh).
      rewrite Hc in *.
      change (has_hyphen_lower (String a (String c' r')))
        with ((Ascii.eqb a "-" && is_lower c')
              || has_hyphen_lower (String c' r')).
      rewrite Ht.
      rewrite orb_false_r. destruct (Ascii.eqb a "-") eqn:Ea; [|reflexivity].
      cbn [andb] in *. destruct Hh as [->|Hh]; assumption.
Qed.

(** A key with a [-] followed by a lowercase letter is no property of
    any dataset. *)
Lemma hyphenated_key_is_no_property (key : string) (l : AttrList) :
  has_hyphen_lower key = true -> dataset_get key l = None.
Proof.
  intros Hk. induction l as [|[n v] l IH]; [reflexivity|].
  cbn [dataset_get]. destruct (data_key n) as [k|] eqn:E; [|exact IH].
  destruct (k =? key)%string eqn:Ek; [|exact IH].
  apply String.eqb_eq in Ek. subst k. exfalso.
  unfold data_key in E. destruct (String.prefix "data-" n); [|discriminate].
  destruct (has_upper _); [discriminate|]. injection E as E.
  rewrite <- E, (camel_has_no_hyphen_lower _ _ (le_n _)) in Hk.
  discriminate.
Qed.

(** The library's [setAttribute] with one attribute and no options:
    one write, and one console.error when the write throws. *)
Lemma set_on_single (valid : string -> bool) (tag : string) (l : AttrList)
    (name : string) (v : JsVal) :
  set_on valid tag l (VObject [(name, v)]) Attribute.no_options
  = match (if Attribute.is_data_name name
           then Dom.dataset_set valid (Attribute.slice5 name) (to_string v) l
           else Dom.setAttribute valid name (to_string v) l) with
    | Ok l' => (([Setting (Inspect.write_of name v)], Ok tt), l')
    | Throw e =>
        (([Setting (Inspect.write_of name v);
           Setting (Attribute.ConsoleError e)], Ok tt), l)
    end.
Proof.
  unfold set_on, Attribute.setAttribute, Inspect.write_of.
  cbn [typeof_object negb object_entries].
  unfold ret. rewrite !bind_pure. cbn [Attribute.rounds].
  unfold Attribute.round, Attribute.attempt.
  cbn [Attribute.prefix_of Attribute.addPrefix Attribute.no_options
         str_truthy Attribute.shouldSetAttribute Attribute.whitelist
         Attribute.blacklist negb Attribute.validate
         Attribute.transformValue Attribute.logging Attribute.log].
  unfold ret, Attribute.call_onAttributeSet, Attribute.call_onError,
    when, perform, emit.
  cbn [Attribute.onAttributeSet Attribute.onError Attribute.no_options].
  rewrite !bind_pure.
  destruct (Attribute.is_data_name name).
  - cbn [dom_of Attribute.dataset_set].
    destruct (Dom.dataset_set valid (Attribute.slice5 name) (to_string v) l)
      as [l'|e] eqn:E; cbn; rewrite E; reflexivity.
  - cbn [dom_of Attribute.element_setAttribute].
    destruct (Dom.setAttribute valid name (to_string v) l)
      as [l'|e] eqn:E; cbn; rewrite E; reflexivity.
Qed.

(** X25: a data attribute with a hyphen in its name, such as
    data-foo-bar, is out of reach of the helpers that go through the
    dataset. Whatever attributes the element has, hasAttribute answers
    false for it, removeAttribute leaves the element as it is, and
    toggleAttribute, finding it absent, tries to set it, which the
    dataset refuses with a SyntaxError that is logged: the element is
    unchanged. *)
Theorem hyphenated_data_attribute_is_out_of_reach (valid : string -> bool)
    (tag : string) (l : AttrList) (rest : string) (v : JsVal) :
  has_hyphen_lower rest = true ->
  hasAttribute (HtmlElement tag l) ("data-" ++ rest) = ([], Ok false)
  /\ removeAttribute (HtmlElement tag l) ("data-" ++ rest) = ([], Ok l)
  /\ exists e,
       exn_name e = "SyntaxError"
       /\ toggleAttribute valid (HtmlElement tag l) ("data-" ++ rest) v
          = ([Setting (Attribute.DatasetSet rest v);
              Setting (Attribute.ConsoleError e)], Ok l).
Proof.
  intros Hk. destruct (data_name_parts rest) as [Hd Hs].
  assert (Hh : dataset_has rest l = false).
  { unfold dataset_has. now rewrite hyphenated_key_is_no_property. }
  assert (H1 : hasAttribute (HtmlElement tag l) ("data-" ++ rest)
               = ([], Ok false)).
  { unfold hasAttribute. now rewrite Hd, Hs, Hh. }
  split; [exact H1|]. split.
  - unfold removeAttribute, dataset_delete. now rewrite Hd, Hs, Hh.
  - eexists. split; [|unfold toggleAttribute; rewrite H1, bind_pure].
    2:{ rewrite set_on_single, Hd, Hs. unfold Inspect.write_of.
        rewrite Hd, Hs. unfold dataset_set. rewrite Hk. reflexivity. }
    reflexivity.
Qed.

Lemma hyphenated_data_attribute_is_out_of_reach_witness :
  removeAttribute
    (HtmlElement "div" [("data-foo-bar", "1"); ("id", "x")])
    ("data-" ++ "foo-bar")
  = ([], Ok [("data-foo-bar", "1"); ("id", "x")]).
Proof.
  apply (hyphenated_data_attribute_is_out_of_reach (fun _ => true) "div"
           [("data-foo-bar", "1"); ("id", "x")] "foo-bar" VNull).
  reflexivity.
Defined.

(** X26: toggling an attribute on and off again restores the element.
    For a name that does not start with data-, that the platform
    accepts and that the element does not have, toggleAttribute appends
    the attribute (under its lowercased name, with the value as a
    string), and a second toggleAttribute removes it, leaving the
    attributes exactly as they were. *)
Theorem toggleAttribute_round_trip (valid : string -> bool) (tag : string)
    (l : AttrList) (name : string) (v w : JsVal) :
  Attribute.is_data_name name = false ->
  valid name = true ->
  Dom.hasAttribute name l = false ->
  toggleAttribute valid (HtmlElement tag l) name v
  = ([Setting (Attribute.SetAttribute name v)],
     Ok (l ++ [(lower name, to_string v)])%list)
  /\ toggleAttribute valid
       (HtmlElement tag (l ++ [(lower name, to_string v)])%list) name w
     = ([], Ok l).
Proof.
  intros Hd Hv Hh.
  assert (Hn : lookup (lower name) l = None).
  { unfold Dom.hasAttribute, Dom.getAttribute in Hh.
    now destruct (lookup (lower name) l). }
  split.
  - unfold toggleAttribute, hasAttribute. rewrite Hd, Hh.
    unfold ret. rewrite bind_pure, set_on_single, Hd.
    unfold Inspect.write_of, Dom.setAttribute. rewrite Hd, Hv.
    now rewrite change_absent.
  - unfold toggleAttribute, hasAttribute, removeAttribute. rewrite Hd.
    assert (Hp : Dom.hasAttribute name
                   (l ++ [(lower name, to_string v)])%list = true).
    { unfold Dom.hasAttribute, Dom.getAttribute.
      rewrite <- (change_absent _ _ _ Hn), lookup_change.
      now rewrite String.eqb_refl. }
    rewrite Hp. unfold ret. rewrite bind_pure.
    unfold Dom.removeAttribute. now rewrite remove_appended.
Qed.

Lemma toggleAttribute_round_trip_witness :
  toggleAttribute (fun _ => true) (HtmlElement "input" [("type", "text")])
    "Disabled" (VStr "")
  = ([Setting (Attribute.SetAttribute "Disabled" (VStr ""))],
     Ok ([("type", "text")] ++ [(lower "Disabled", to_string (VStr ""))])%list)
  /\ toggleAttribute (fun _ => true)
       (HtmlElement "input"
          ([("type", "text")]
           ++ [(lower "Disabled", to_string (VStr ""))])%list)
       "Disabled" VNull
     = ([], Ok [("type", "text")]).
Proof.
  apply (toggleAttribute_round_trip (fun _ => true) "input"
           [("type", "text")] "Disabled" (VStr "") VNull); reflexivity.
Defined.

(** ** compareAttributes *)

Lemma assign_diff_records (d : Diff) (k m : string) (v : DiffEntry) :
  records (assign_diff d k v) m <-> m = k \/ records d m.
Proof.
  unfold records, assign_diff, assign_to.
  destruct (k =? "__proto__")%string eqn:E; cbn [prototype own].
  - apply String.eqb_eq in E. subst k. split.
    + intros [[-> _]|H]; auto.
    + intros [->|[[-> _]|H]]; auto; left; (split; [reflexivity|discriminate]).
  - rewrite define_keys. tauto.
Qed.

(** [__proto__] never becomes an own property. *)
Lemma assign_diff_own (d : Diff) (k : string) (v : DiffEntry) :
  ~ In "__proto__" (map fst (own d)) ->
  ~ In "__proto__" (map fst (own (assign_diff d k v))).
Proof.
  unfold assign_diff, assign_to.
  destruct (k =? "__proto__")%string eqn:E; cbn [prototype own]; [auto|].
  rewrite define_keys. apply String.eqb_neq in E.
  intros H [Heq|H']; [congruence|auto].
Qed.

Lemma loop_own (f : Diff -> string * string -> Diff) (l : AttrList) :
  (forall d a, ~ In "__proto__" (map fst (own d)) ->
               ~ In "__proto__" (map fst (own (f d a)))) ->
  forall d, ~ In "__proto__" (map fst (own d)) ->
            ~ In "__proto__" (map fst (own (fold_left f l d))).
Proof.
  intros Hf. induction l as [|a l IH]; intros d Hd; [exact Hd|].
  cbn [fold_left]. apply IH, Hf, Hd.
Qed.

Lemma for_each_quiet (f : string * string -> Diff -> Diff)
    (body : string * string -> Diff -> Filling) (l : AttrList) :
  (forall a d, In a l -> body a d = ([], f a d, Ok tt)) ->
  forall d, for_each body l d = ([], fold_left (fun d a => f a d) l d, Ok tt).
Proof.
  induction l as [|a l IH]; intros Hb d; [reflexivity|].
  cbn [for_each fold_left]. rewrite (Hb a d (or_introl eq_refl)).
  rewrite IH by (intros; apply Hb; now right). reflexivity.
Qed.

(** The entry of the first loop and of the second loop, without
    options. *)
Lemma compare_one_plain (l2 : AttrList) (a : string * string) (d : Diff) :
  lower (fst a) = fst a ->
  compare_one no_compare_options l2 a d
  = ([], if same_value (snd a) (lookup (fst a) l2) then d
         else assign_diff d (fst a) (Some (snd a), lookup (fst a) l2),
     Ok tt).
Proof.
  intros Hl. unfold compare_one, Dom.getAttribute. rewrite Hl. cbn.
  now destruct (same_value _ _).
Qed.

Lemma missing_one_plain (l1 : AttrList) (a : string * string) (d : Diff) :
  lower (fst a) = fst a ->
  missing_one no_compare_options l1 a d
  = ([], match lookup (fst a) l1 with
         | Some _ => d
         | None => assign_diff d (fst a) (None, Some (snd a))
         end,
     Ok tt).
Proof.
  intros Hl. unfold missing_one, Dom.hasAttribute, Dom.getAttribute.
  rewrite Hl. cbn. now destruct (lookup (fst a) l1).
Qed.

Lemma first_loop_keys (l2 l : AttrList) (d : Diff) (m : string) :
  records
    (fold_left
       (fun d a =>
          if same_value (snd a) (lookup (fst a) l2) then d
          else assign_diff d (fst a) (Some (snd a), lookup (fst a) l2))
       l d) m
  <-> records d m
      \/ exists v, In (m, v) l /\ same_value v (lookup m l2) = false.
Proof.
  revert d. induction l as [|[n v] l IH]; intros d; cbn [fold_left fst snd].
  - split; [now left|]. intros [H|(v & [] & _)]. exact H.
  - rewrite IH. destruct (same_value v (lookup n l2)) eqn:E.
    + split; intros [H|(w & H & Hw)]; auto.
      * right. exists w. split; [now right|exact Hw].
      * destruct H as [H|H]; [|right; now exists w].
        injection H as -> ->. congruence.
    + rewrite assign_diff_records.
      split; intros [H|(w & H & Hw)]; auto.
      * destruct H as [->|H]; [|now left].
        right. exists v. split; [now left|exact E].
      * right. exists w. split; [now right|exact Hw].
      * destruct H as [H|H]; [|right; now exists w].
        injection H as -> ->. left. now left.
Qed.

Lemma second_loop_keys (l1 l : AttrList) (d : Diff) (m : string) :
  records
    (fold_left
       (fun d a =>
          match lookup (fst a) l1 with
          | Some _ => d
          | None => assign_diff d (fst a) (None, Some (snd a))
          end)
       l d) m
  <-> records d m \/ (In m (map fst l) /\ lookup m l1 = None).
Proof.
  revert d. induction l as [|[n v] l IH]; intros d; cbn [fold_left fst snd].
  - cbn. tauto.
  - rewrite IH. cbn [map fst]. destruct (lookup n l1) eqn:E.
    + split; intros [H|[H Hn]]; auto.
      * right. split; [now right|exact Hn].
      * destruct H as [->|H]; [congruence|]. right. now split.
    + rewrite assign_diff_records.
      split; intros [H|[H Hn]]; auto.
      * destruct H as [->|H]; [|now left]. right. split; [now left|exact E].
      * right. split; [now right|exact Hn].
      * destruct H as [<-|H]; [left; now left|]. right. now split.
Qed.

Lemma string_dec_option (a b : option string) : a = b \/ a <> b.
Proof.
  destruct a as [x|], b as [y|]; try (right; discriminate); [|now left].
  destruct (string_dec x y) as [->|H]; [now left|right; congruence].
Qed.

(** X27: compareAttributes finds every difference. For two elements
    whose attribute names are lowercase and distinct, and without
    options, nothing is logged and the object returned has an own key
    for a name exactly when the name is not __proto__ and the two
    elements differ on it (another value, or the attribute on one side
    only). A difference on the attribute __proto__ makes no key: the
    assignment replaces the prototype of the object, and that happens
    exactly when the elements differ on __proto__. So the object is the
    untouched empty object exactly when the elements have the same
    attributes. *)
Theorem compareAttributes_finds_every_difference (tag1 tag2 : string)
    (l1 l2 : AttrList) :
  plain l1 ->
  plain l2 ->
  let r := compareAttributes (HtmlElement tag1 l1) (HtmlElement tag2 l2)
             no_compare_options in
  fst r = []
  /\ (forall m, In m (map fst (own (snd r)))
                <-> m <> "__proto__" /\ lookup m l1 <> lookup m l2)
  /\ (prototype (snd r) <> None
      <-> lookup "__proto__" l1 <> lookup "__proto__" l2)
  /\ (snd r = no_diff <-> forall m, lookup m l1 = lookup m l2).
Proof.
  intros [Hnd1 Hlow1] [Hnd2 Hlow2] r.
  rewrite Forall_forall in Hlow1, Hlow2.
  assert (Hr : r = ([],
                 fold_left
                   (fun d a =>
                      match lookup (fst a) l1 with
                      | Some _ => d
                      | None => assign_diff d (fst a) (None, Some (snd a))
                      end)
                   l2
                   (fold_left
                      (fun d a =>
                         if same_value (snd a) (lookup (fst a) l2) then d
                         else assign_diff d (fst a)
                                (Some (snd a), lookup (fst a) l2))
                      l1 no_diff))).
  { subst r. unfold compareAttributes.
    rewrite (for_each_quiet
               (fun a d =>
                  if same_value (snd a) (lookup (fst a) l2) then d
                  else assign_diff d (fst a)
                         (Some (snd a), lookup (fst a) l2)))
      by (intros a d Ha; apply compare_one_plain; now apply Hlow1).
    rewrite (for_each_quiet
               (fun a d =>
                  match lookup (fst a) l1 with
                  | Some _ => d
                  | None => assign_diff d (fst a) (None, Some (snd a))
                  end))
      by (intros a d Ha; apply missing_one_plain; now apply Hlow2).
    reflexivity. }
  rewrite Hr. cbn [fst snd]. split; [reflexivity|].
  assert (Hrec : forall m,
             records
               (fold_left
                  (fun d a =>
                     match lookup (fst a) l1 with
                     | Some _ => d
                     | None => assign_diff d (fst a) (None, Some (snd a))
                     end)
                  l2
                  (fold_left
                     (fun d a =>
                        if same_value (snd a) (lookup (fst a) l2) then d
                        else assign_diff d (fst a)
                               (Some (snd a), lookup (fst a) l2))
                     l1 no_diff)) m
             <-> lookup m l1 <> lookup m l2).
  { intros m. rewrite second_loop_keys, first_loop_keys.
    split.
    - intros [[[[_ H]|[]]|(v & Hin & Hv)]|[Hin Hn]].
      + now contradiction H.
      + rewrite (In_lookup _ _ _ Hnd1 Hin). intros Heq.
        rewrite <- Heq in Hv. cbn in Hv. now rewrite String.eqb_refl in Hv.
      + rewrite Hn. intros Heq. symmetry in Heq.
        apply lookup_None in Heq. contradiction.
    - intros Hne. destruct (lookup m l1) as [v|] eqn:E1.
      + left. right. exists v. split; [now apply lookup_In|].
        destruct (lookup m l2) as [w|]; [|reflexivity]. cbn.
        apply String.eqb_neq. congruence.
      + right. split; [|reflexivity].
        destruct (lookup m l2) as [w|] eqn:E2; [|congruence].
        apply lookup_In in E2. change m with (fst (m, w)).
        now apply in_map. }
  assert (Hown : ~ In "__proto__"
                   (map fst
                      (own
                         (fold_left
                            (fun d a =>
                               match lookup (fst a) l1 with
                               | Some _ => d
                               | None =>
                                   assign_diff d (fst a)
                                     (None, Some (snd a))
                               end)
                            l2
                            (fold_left
                               (fun d a =>
                                  if same_value (snd a) (lookup (fst a) l2)
                                  then d
                                  else assign_diff d (fst a)
                                         (Some (snd a), lookup (fst a) l2))
                               l1 no_diff))))).
  { apply loop_own.
    - intros d a Hd. destruct (lookup (fst a) l1); [exact Hd|].
      now apply assign_diff_own.
    - apply loop_own.
      + intros d a Hd. destruct (same_value _ _); [exact Hd|].
        now apply assign_diff_own.
      + intros []. }
  revert Hrec Hown.
  match goal with |- (forall m, records ?d m <-> _) -> _ =>
    generalize d
  end.
  intros d Hrec Hown. unfold records in Hrec. split; [|split].
  - intros m. split.
    + intros H. split; [intros ->; contradiction|].
      apply Hrec. now right.
    + intros [Hm Hne]. apply Hrec in Hne as [[Hp _]|H]; [contradiction|exact H].
  - split.
    + intros H. apply Hrec. now left.
    + intros Hne. apply Hrec in Hne as [[_ H]|H]; [exact H|contradiction].
  - split.
    + intros -> m.
      destruct (string_dec_option (lookup m l1) (lookup m l2))
        as [Heq|Hne]; [exact Heq|].
      apply Hrec in Hne as [[_ H]|[]]. now contradiction H.
    + intros Hall. destruct d as [p o]. cbn [prototype own] in *.
      unfold no_diff. f_equal.
      * destruct p as [e|]; [|reflexivity]. exfalso.
        apply (proj1 (Hrec "__proto__")); [|apply Hall].
        left. split; [reflexivity|discriminate].
      * destruct o as [|[k w] o]; [reflexivity|]. exfalso.
        apply (proj1 (Hrec k)); [|apply Hall]. right. now left.
Qed.

Lemma compareAttributes_finds_every_difference_witness :
  snd (compareAttributes
         (HtmlElement "img" [("src", "a.png"); ("alt", "x")])
         (HtmlElement "picture" [("src", "a.png"); ("alt", "x")])
         no_compare_options) = no_diff.
Proof.
  apply (compareAttributes_finds_every_difference "img" "picture"
           [("src", "a.png"); ("alt", "x")]
           [("src", "a.png"); ("alt", "x")]).
  - split; repeat constructor; cbn; intuition discriminate.
  - split; repeat constructor; cbn; intuition discriminate.
  - reflexivity.
Defined.

(** The difference on __proto__ is no key of the object returned; the
    one on the array index 7 is listed before the one on id. *)
Example compareAttributes_on_proto :
  compareAttributes
    (HtmlElement "div" [("id", "a"); ("__proto__", "x"); ("7", "s")])
    (HtmlElement "div" [])
    no_compare_options
  = ([], mkObject (Some (Some "x", None))
           [("7", (Some "s", None)); ("id", (Some "a", None))]).
Proof. reflexivity. Qed.

(** ** removeAttributesByPrefix, removeAllAttributes *)






Lemma remove_all (snapshot : AttrList) :
  Forall (fun a => lower (fst a) = fst a) snapshot ->
  forall l,
    NoDup (map fst l) ->
    (forall n, In n (map fst l) -> In n (map fst snapshot)) ->
    fold_left (fun acc a => Dom.removeAttribute (fst a) acc) snapshot l = [].
Proof.
  induction 1 as [|[n v] rest Hn Hrest IH]; intros l Hnd Hsub.
  - destruct l as [|[k w] l]; [reflexivity|].
    destruct (Hsub k (or_introl eq_refl)).
  - cbn [fold_left fst]. unfold Dom.removeAttribute at 2.
    cbn [fst] in Hn. rewrite Hn.
    apply IH; [now apply remove_NoDup|].
    intros m Hm. pose proof (remove_names _ _ _ Hm) as Hm'.
    destruct (Hsub m Hm') as [Heq|Hin]; [|exact Hin].
    cbn in Heq. subst m. exfalso.
    apply (proj1 (lookup_None n (remove n l)));
      [now apply lookup_remove_same|exact Hm].
Qed.

(** X29: removeAllAttributes leaves an element with no attribute at
    all, when its attribute names are lowercase and distinct. *)
Theorem removeAllAttributes_empties (tag : string) (l : AttrList) :
  plain l ->
  removeAllAttributes (HtmlElement tag l) = ([], Ok [])
  /\ (forall l', outcome (removeAllAttributes (HtmlElement tag l)) = Ok l' ->
        hasAnyAttributes l' = false).
Proof.
  intros [Hnd Hlow].
  assert (H : removeAllAttributes (HtmlElement tag l) = ([], Ok [])).
  { unfold removeAllAttributes. now rewrite (remove_all l Hlow l Hnd). }
  split; [exact H|]. rewrite H. intros l' Hl. now injection Hl as <-.
Qed.

Lemma removeAllAttributes_empties_witness :
  removeAllAttributes
    (HtmlElement "div" [("data-foo-bar", "1"); ("id", "x")])
  = ([], Ok []).
Proof.
  apply (removeAllAttributes_empties "div"
           [("data-foo-bar", "1"); ("id", "x")]).
  split; repeat constructor; cbn; intuition discriminate.
Defined.

(** ** toggleAttributes *)

Lemma toggleAttributes_spec (valid : string -> bool)
    (attributes : list (string * JsVal)) :
  NoDup (map (fun a => lower (fst a)) attributes) ->
  (forall a, In a attributes -> truthy (snd a) = true ->
             valid (fst a) = true) ->
  forall l,
    NoDup (map fst l) ->
    exists l',
      toggleAttributes valid l attributes = (l', Ok tt)
      /\ (forall k flag, In (k, flag) attributes ->
            Dom.getAttribute k l' = if truthy flag then Some "" else None)
      /\ (forall m,
            ~ In (lower m) (map (fun a => lower (fst a)) attributes) ->
            Dom.getAttribute m l' = Dom.getAttribute m l).
Proof.
  induction attributes as [|[k flag] rest IH]; intros Hnd Hv l Hl.
  - exists l. split; [reflexivity|]. split; [intros k flag []|reflexivity].
  - cbn [map fst] in Hnd. inversion Hnd as [|? ? Hk Hnd']; subst.
    assert (Hv' : forall a, In a rest -> truthy (snd a) = true ->
                            valid (fst a) = true)
      by (intros a Ha; apply Hv; now right).
    set (l1 := if truthy flag then change (lower k) "" l
               else remove (lower k) l).
    assert (Hl1 : NoDup (map fst l1)).
    { subst l1. destruct (truthy flag);
        [now apply change_NoDup|now apply remove_NoDup]. }
    assert (Hhead : lookup (lower k) l1
                    = if truthy flag then Some "" else None).
    { subst l1. destruct (truthy flag).
      - now rewrite lookup_change, String.eqb_refl.
      - now apply lookup_remove_same. }
    assert (Hother : forall m, lower m <> lower k ->
                               lookup (lower m) l1 = lookup (lower m) l).
    { intros m Hm. subst l1. destruct (truthy flag).
      - rewrite lookup_change.
        destruct (lower k =? lower m)%string eqn:E; [|reflexivity].
        apply String.eqb_eq in E. congruence.
      - now apply lookup_remove_other. }
    destruct (IH Hnd' Hv' l1 Hl1) as (l' & Ht & Hset & Hkeep).
    exists l'. split; [|split].
    + cbn [toggleAttributes]. subst l1.
      destruct (truthy flag) eqn:Ef.
      * pose proof (Hv (k, flag) (or_introl eq_refl) Ef) as Hvk.
        cbn [fst] in Hvk. unfold Dom.setAttribute. rewrite Hvk. exact Ht.
      * exact Ht.
    + intros k' flag' [H|H].
      * injection H as <- <-. rewrite (Hkeep k Hk). exact Hhead.
      * now apply Hset.
    + intros m Hm. cbn [map In fst] in Hm. rewrite Hkeep by tauto.
      apply Hother. intros Heq. apply Hm. now left.
Qed.

(** X30: toggleAttributes makes the element match the flags. On an
    element with distinct attribute names, for flags whose names are
    distinct without regard to ASCII case and, where the flag is truthy,
    accepted by the platform, the call ends normally; afterwards each
    name with a truthy flag is an attribute with the empty value, each
    name with a falsy flag is no attribute, and the attributes not named
    read as before. *)
Theorem toggleAttributes_sets_flags (valid : string -> bool)
    (l : AttrList) (attributes : list (string * JsVal)) :
  NoDup (map fst l) ->
  NoDup (map (fun a => lower (fst a)) attributes) ->
  (forall a, In a attributes -> truthy (snd a) = true ->
             valid (fst a) = true) ->
  exists l',
    toggleAttributes valid l attributes = (l', Ok tt)
    /\ (forall k flag, In (k, flag) attributes ->
          Dom.getAttribute k l' = if truthy flag then Some "" else None)
    /\ (forall m,
          ~ In (lower m) (map (fun a => lower (fst a)) attributes) ->
          Dom.getAttribute m l' = Dom.getAttribute m l).
Proof. intros Hl Hnd Hv. now apply toggleAttributes_spec. Qed.

Lemma toggleAttributes_sets_flags_witness :
  exists l',
    toggleAttributes (fun _ => true) [("hidden", ""); ("id", "x")]
      [("disabled", VBool true); ("hidden", VBool false)]
    = (l', Ok tt)
    /\ (forall k flag,
          In (k, flag) [("disabled", VBool true); ("hidden", VBool false)] ->
          Dom.getAttribute k l' = if truthy flag then Some "" else None)
    /\ (forall m,
          ~ In (lower m)
              (map (fun a => lower (fst a))
                 [("disabled", VBool true); ("hidden", VBool false)]) ->
          Dom.getAttribute m l'
          = Dom.getAttribute m [("hidden", ""); ("id", "x")]).
Proof.
  apply (toggleAttributes_sets_flags (fun _ => true)
           [("hidden", ""); ("id", "x")]
           [("disabled", VBool true); ("hidden", VBool false)]).
  - repeat constructor; cbn; intuition discriminate.
  - repeat constructor; cbn; intuition discriminate.
  - reflexivity.
Defined.

(** An invalid name among the flags ends the call with the exception of
    the platform; the flags before it stay applied. *)
Example toggleAttributes_stops_at_an_invalid_name :
  toggleAttributes (fun n => negb (n =? "a b")%string) [("id", "x")]
    [("hidden", VBool true); ("a b", VBool true); ("id", VBool false)]
  = ([("id", "x"); ("hidden", "")],
     Throw (mkExn "InvalidCharacterError"
              "String contains an invalid character")).
Proof. reflexivity. Qed.

(** copyAttributes goes through the library's setAttribute: a data
    attribute with a hyphen in its name is not copied, and the
    SyntaxError of the dataset is logged. *)
Example copyAttributes_skips_hyphenated_data :
  copyAttributes (fun _ => true)
    (HtmlElement "a" [("href", "/x"); ("data-foo-bar", "1");
                      ("data-kind", "k")])
    (HtmlElement "a" [("id", "y")])
  = ([Setting (Attribute.SetAttribute "href" (VStr "/x"));
      Setting (Attribute.DatasetSet "foo-bar" (VStr "1"));
      Setting (Attribute.ConsoleError
                 (mkExn "SyntaxError"
                    "The string did not match the expected pattern"));
      Setting (Attribute.DatasetSet "kind" (VStr "k"))],
     Ok [("id", "y"); ("href", "/x"); ("data-kind", "k")]).
Proof. reflexivity. Qed.

End AttributesFacts.
